(** * Long-audio transcription pipeline of [whisper_transcriber.py]

    A shallow embedding of the class [WhisperTranscriber]: the segmentation
    engine ([split_audio]), the per-chunk orchestration and timeline merge
    ([transcribe_long_audio]), script normalisation ([transcribe_audio]) and
    the Markdown renderer ([save_transcript_to_markdown]).

    Conventions of the embedding.
    - Timestamps are Python floats in the source.  They are idealised here as
      canonical rationals ([Qc]): additions, comparisons, [min], [%] and
      [int()] are the exact ones, rounding error is not modelled.
    - Audio lengths are integer milliseconds ([Z]), as [len(audio)] is.
    - The file system is an explicit store threaded through a small
      state-and-exception monad; writes are assumed to succeed.
    - Third-party collaborators (pydub's silence splitter, the Whisper model,
      OpenCC, [os.path], [str.strip]) are fields of a record the pipeline is
      parameterised by.  Model loading is outside the embedding: the
      recogniser is taken as loaded. *)

From Stdlib Require Import ZArith QArith Qcanon Qround String Ascii List DecimalString Lia Lqa.
From stdpp Require Import base numbers strings gmap list sorting.

Open Scope Z_scope.

(** ** Python primitives used by the source *)

Module Py.

(** [min(x, y)]: the first argument unless the second is strictly smaller. *)
Definition min (x y : Qc) : Qc := if decide (y < x)%Qc then y else x.

(** [int(x)] on a float: truncation toward zero. *)
Definition int (x : Qc) : Z :=
  if decide (0 ≤ x)%Qc then Qfloor x else Qceiling x.

(** [x % y] on floats: the remainder has the sign of the divisor. *)
Definition mod_ (x y : Qc) : Qc := (x - y * Qc_of_Z (Qfloor (x / y)))%Qc.

(** [str(n)] / [f"{n}"] for an integer. *)
Definition str (n : Z) : string := NilZero.string_of_int (Z.to_int n).

(** [f"{n:0<width>d}"]: sign-aware zero padding to a minimal width. *)
Definition format_0d (width : nat) (n : Z) : string :=
  let digits := str (Z.abs n) in
  let sign := if n <? 0 then "-" else "" in
  let room := (width - String.length sign)%nat in
  sign +:+ String.concat "" (replicate (room - String.length digits) "0")
       +:+ digits.

(** [sep.join(parts)]. *)
Definition join (sep : string) (parts : list string) : string :=
  String.concat sep parts.

(** Line feed, the ["\n"] of the source. *)
Definition nl : string := String "010" "".

End Py.

(** ** Data model *)

(** One recognised utterance: the keys ["start"], ["end"], ["text"] of a
    Whisper segment dictionary. *)
Record Segment := mkSegment {
  seg_start : Qc;
  seg_end : Qc;
  seg_text : string
}.

(** The recogniser's result dictionary: ["text"], ["segments"], ["language"]. *)
Record Transcript := mkTranscript {
  tr_text : string;
  tr_segments : list Segment;
  tr_language : string
}.

(** The renderer reads its argument with [dict.get] and [in]: a key may be
    absent.  [TranscriptDict] is that view of a dictionary. *)
Record TranscriptDict := mkTranscriptDict {
  get_language : option string;
  get_text : option string;
  get_segments : option (list Segment)
}.

Definition as_dict (t : Transcript) : TranscriptDict :=
  {| get_language := Some (tr_language t);
     get_text := Some (tr_text t);
     get_segments := Some (tr_segments t) |}.

(** A pydub [AudioSegment] at the resolution [len()] and slicing expose:
    one amplitude value per millisecond. *)
Definition AudioSegment := list Z.

Definition len (audio : AudioSegment) : Z := Z.of_nat (length audio).

(** [audio[start:stop]] for non-negative bounds: both are clamped to
    [len(audio)]. *)
Definition audio_slice (audio : AudioSegment) (start stop : Z) : AudioSegment :=
  let start := Z.min start (len audio) in
  let stop := Z.min stop (len audio) in
  take (Z.to_nat (stop - start)) (drop (Z.to_nat start) audio).

(** ** Exceptions, the store and the monad *)

Inductive exn :=
| FileNotFoundError (path : string)
| ValueError (msg : string)
| RecognitionError (msg : string).

Inductive outcome (A : Type) :=
| Returned (a : A)
| Raised (e : exn).
Arguments Returned {A} a.
Arguments Raised {A} e.

Record World := mkWorld {
  audio_files : gmap string AudioSegment;
  documents : gmap string string;
  directories : gset string
}.

Definition M (A : Type) : Type := World -> outcome A * World.

Definition ret {A} (a : A) : M A := fun w => (Returned a, w).

Definition bind {A B} (m : M A) (k : A -> M B) : M B :=
  fun w =>
    match m w with
    | (Returned a, w') => k a w'
    | (Raised e, w') => (Raised e, w')
    end.

Definition raise {A} (e : exn) : M A := fun w => (Raised e, w).

(** [try: body / except Exception: handler]. *)
Definition try_except {A} (body : M A) (handler : exn -> M A) : M A :=
  fun w =>
    match body w with
    | (Returned a, w') => (Returned a, w')
    | (Raised e, w') => handler e w'
    end.

Definition lift {A} (o : outcome A) : M A := fun w => (o, w).

Global Instance M_ret : MRet M := @ret.
Global Instance M_bind : MBind M := fun A B k m => bind m k.

(** [range(start, stop, step)] as the list it enumerates. *)
Definition py_range (start stop step : Z) : outcome (list Z) :=
  if step =? 0 then Raised (ValueError "range() arg 3 must not be zero")
  else
    let count :=
      if 0 <? step then (stop - start + step - 1) / step
      else (start - stop - step - 1) / (- step) in
    Returned (map (fun k => start + Z.of_nat k * step) (seq 0 (Z.to_nat count))).

(** File-system primitives. *)

(** [if not os.path.exists(d): os.makedirs(d)], on a file system where the
    call succeeds.  [directories] is the set of paths the program has asked
    for and found or made as directories: the parents that [os.makedirs]
    creates on the way are not entered, and a path held by a file or
    refused by the system, where the call raises, is outside the model.  So
    [d ∈ directories w] reads: the program has made sure of [d]. *)
Definition ensure_dir (d : string) : M unit :=
  fun w =>
    (Returned tt,
     if decide (d ∈ directories w) then w
     else {| audio_files := audio_files w;
             documents := documents w;
             directories := {[ d ]} ∪ directories w |}).

(** [AudioSegment.from_file(path)]. *)
Definition from_file (path : string) : M AudioSegment :=
  fun w =>
    match audio_files w !! path with
    | Some audio => (Returned audio, w)
    | None => (Raised (FileNotFoundError path), w)
    end.

(** [chunk.export(path, format="mp3")]. *)
Definition export (chunk : AudioSegment) (path : string) : M unit :=
  fun w =>
    (Returned tt,
     {| audio_files := <[ path := chunk ]> (audio_files w);
        documents := documents w;
        directories := directories w |}).

(** [with open(path, 'w') as f: f.write(...)]: the file holds exactly what
    was written. *)
Definition write_text (path : string) (content : string) : M unit :=
  fun w =>
    (Returned tt,
     {| audio_files := audio_files w;
        documents := <[ path := content ]> (documents w);
        directories := directories w |}).

(** ** Collaborators *)

Record Collaborators := mkCollaborators {
  (** [pydub.silence.split_on_silence(audio, min_silence_len, silence_thresh,
      keep_silence)]. *)
  split_on_silence : AudioSegment -> Z -> Z -> Z -> list AudioSegment;
  (** [model.transcribe(audio, language=..., task="transcribe")]. *)
  model_transcribe : AudioSegment -> string -> outcome Transcript;
  (** [opencc.OpenCC('t2s').convert]. *)
  converter_convert : string -> string;
  (** [str.strip()]. *)
  strip : string -> string;
  os_path_basename : string -> string;
  os_path_dirname : string -> string;
  os_path_splitext : string -> string * string;
  os_path_join : string -> string -> string
}.

(** The fields of [self] the pipeline reads. *)
Record WhisperTranscriber := mkWhisperTranscriber {
  model_size : string;
  to_simplified : bool
}.

(** ** The transcriber *)

Section Transcriber.

Variable ext : Collaborators.
Variable self : WhisperTranscriber.

(** [convert_to_simplified] (lines 59-71). *)
Definition convert_to_simplified (text : string) : string :=
  if to_simplified self then converter_convert ext text else text.

(** The loop of lines 122-123: every segment's text is rewritten in place. *)
Definition convert_segment (segment : Segment) : Segment :=
  {| seg_start := seg_start segment;
     seg_end := seg_end segment;
     seg_text := convert_to_simplified (seg_text segment) |}.

(** [transcribe_audio] (lines 91-132).  The recogniser reads the file at
    [audio_path]; its exceptions are logged and re-raised. *)
Definition transcribe_audio (audio_path language : string) : M Transcript :=
  audio ← from_file audio_path;
  result ← lift (model_transcribe ext audio language);
  if to_simplified self && bool_decide (language = "zh") then
    mret {| tr_text := convert_to_simplified (tr_text result);
            tr_segments := map convert_segment (tr_segments result);
            tr_language := tr_language result |}
  else
    mret result.

(** *** Segmentation engine *)

(** [max(len(chunk) for chunk in chunks)], evaluated on a non-empty list
    only (the [or] of line 184 short-circuits). *)
Definition max_len (chunks : list AudioSegment) : Z :=
  match chunks with
  | [] => 0
  | chunk :: rest => fold_left Z.max (map len rest) (len chunk)
  end.

(** Lines 174-186 of [split_audio]: the silence-aware split, its validation
    and the fixed-length fallback. *)
Definition choose_chunks (audio : AudioSegment)
    (chunk_length_ms min_silence_len silence_thresh keep_silence : Z)
    : outcome (list AudioSegment) :=
  let total_length_ms := len audio in
  let chunks :=
    split_on_silence ext audio min_silence_len silence_thresh keep_silence in
  if bool_decide (chunks = []) || (chunk_length_ms <? max_len chunks) then
    match py_range 0 total_length_ms chunk_length_ms with
    | Returned starts =>
        Returned (map (fun i => audio_slice audio i (i + chunk_length_ms)) starts)
    | Raised e => Raised e
    end
  else Returned chunks.

(** Lines 189-194: every chunk is exported under its 1-based, zero-padded
    ordinal and its path appended to [chunk_files]. *)
Fixpoint export_chunks (output_dir base_name : string) (i : nat)
    (chunks : list AudioSegment) (chunk_files : list string) : M (list string) :=
  match chunks with
  | [] => mret chunk_files
  | chunk :: rest =>
      let chunk_path :=
        os_path_join ext output_dir
          (base_name +:+ "_" +:+ Py.format_0d 3 (Z.of_nat i + 1) +:+ ".mp3") in
      export chunk chunk_path;;
      export_chunks output_dir base_name (S i) rest (chunk_files ++ [chunk_path])
  end.

(** [split_audio] (lines 134-201). *)
Definition split_audio (audio_path output_dir : string)
    (chunk_length_ms min_silence_len silence_thresh keep_silence : Z)
    : M (list string) :=
  ensure_dir output_dir;;
  let base_name := (os_path_splitext ext (os_path_basename ext audio_path)).1 in
  audio ← from_file audio_path;
  let total_length_ms := len audio in
  if total_length_ms <=? chunk_length_ms then
    mret [audio_path]
  else
    chunks ← lift (choose_chunks audio chunk_length_ms min_silence_len
                                 silence_thresh keep_silence);
    export_chunks output_dir base_name 0 chunks [].

(** The defaults of [split_audio]'s keyword arguments. *)
Definition default_chunk_length_ms : Z := 10 * 60 * 1000.
Definition default_min_silence_len : Z := 1000.
Definition default_silence_thresh : Z := -40.
Definition default_keep_silence : Z := 500.

(** *** Document renderer *)

(** [max_time = 10 * 3600] (lines 295 and 326). *)
Definition max_time : Qc := Qc_of_Z (10 * 3600).

(** Lines 296-306: the metadata duration, from the last segment's end. *)
Definition duration_str (last_end : Qc) : string :=
  let duration := Py.min last_end max_time in
  let hours := Py.int (duration / Qc_of_Z 3600) in
  let minutes := Py.int (Py.mod_ duration (Qc_of_Z 3600) / Qc_of_Z 60) in
  let seconds := Py.int (Py.mod_ duration (Qc_of_Z 60)) in
  if 0 <? hours then
    Py.str hours +:+ "小时" +:+ Py.str minutes +:+ "分钟"
      +:+ Py.str seconds +:+ "秒"
  else
    Py.str minutes +:+ "分钟" +:+ Py.str seconds +:+ "秒".

(** Lines 320-342: [(start_formatted, end_formatted)] of one segment. *)
Definition format_times (segment : Segment) : string * string :=
  let start_time := seg_start segment in
  let end_time := seg_end segment in
  let start_time := Py.min start_time max_time in
  let end_time := Py.min end_time max_time in
  if bool_decide (Qc_of_Z 3600 ≤ start_time)%Qc
     || bool_decide (Qc_of_Z 3600 ≤ end_time)%Qc then
    let start_hours := Py.int (start_time / Qc_of_Z 3600) in
    let start_minutes := Py.int (Py.mod_ start_time (Qc_of_Z 3600) / Qc_of_Z 60) in
    let start_seconds := Py.int (Py.mod_ start_time (Qc_of_Z 60)) in
    let start_formatted :=
      Py.format_0d 2 start_hours +:+ ":" +:+ Py.format_0d 2 start_minutes
        +:+ ":" +:+ Py.format_0d 2 start_seconds in
    let end_hours := Py.int (end_time / Qc_of_Z 3600) in
    let end_minutes := Py.int (Py.mod_ end_time (Qc_of_Z 3600) / Qc_of_Z 60) in
    let end_seconds := Py.int (Py.mod_ end_time (Qc_of_Z 60)) in
    let end_formatted :=
      Py.format_0d 2 end_hours +:+ ":" +:+ Py.format_0d 2 end_minutes
        +:+ ":" +:+ Py.format_0d 2 end_seconds in
    (start_formatted, end_formatted)
  else
    let start_formatted :=
      Py.format_0d 2 (Py.int (start_time / Qc_of_Z 60)) +:+ ":"
        +:+ Py.format_0d 2 (Py.int (Py.mod_ start_time (Qc_of_Z 60))) in
    let end_formatted :=
      Py.format_0d 2 (Py.int (end_time / Qc_of_Z 60)) +:+ ":"
        +:+ Py.format_0d 2 (Py.int (Py.mod_ end_time (Qc_of_Z 60))) in
    (start_formatted, end_formatted).

(** Line 344: one entry of the timestamped listing. *)
Definition segment_line (segment : Segment) : string :=
  let text := strip ext (seg_text segment) in
  let '(start_formatted, end_formatted) := format_times segment in
  "**[" +:+ start_formatted +:+ "-" +:+ end_formatted +:+ "]** " +:+ text
    +:+ Py.nl +:+ Py.nl.

(** Lines 292-309: the metadata block.  The duration line is written only
    when ['segments'] is present and non-empty. *)
Definition metadata_block (transcript : TranscriptDict) : string :=
  "## 音频信息" +:+ Py.nl +:+ Py.nl
  +:+ "- 语言: " +:+ default "未知" (get_language transcript) +:+ Py.nl
  +:+ match get_segments transcript with
      | Some segments =>
          match last segments with
          | Some last_segment =>
              "- 时长: " +:+ duration_str (seg_end last_segment) +:+ Py.nl
          | None => ""
          end
      | None => ""
      end
  +:+ Py.nl.

(** Lines 317-344: the timestamped listing, one line per segment, absent
    when there is no segment. *)
Definition timestamped_listing (transcript : TranscriptDict) : string :=
  match get_segments transcript with
  | Some segments =>
      match segments with
      | [] => ""
      | _ :: _ =>
          "## 带时间戳的分段文本" +:+ Py.nl +:+ Py.nl
          +:+ String.concat "" (map segment_line segments)
      end
  | None => ""
  end.

(** Everything [save_transcript_to_markdown] writes to [f], in order, in
    one piece. *)
Definition render_markdown (transcript : TranscriptDict) : string :=
  "# 音频转录" +:+ Py.nl +:+ Py.nl
  +:+ metadata_block transcript
  +:+ "## 完整转录文本" +:+ Py.nl +:+ Py.nl
  +:+ strip ext (default "" (get_text transcript))
  +:+ Py.nl +:+ Py.nl
  +:+ timestamped_listing transcript.

(** The body of the [with] of lines 286-344, write by write.  While the
    file is open the renderer holds the dictionary it was handed, which is
    the caller's object, and [f]: what has been written to it so far. *)
Record Rendering := mkRendering {
  transcript_object : TranscriptDict;
  written : string
}.

Definition Render (A : Type) : Type := Rendering -> A * Rendering.

#[local] Instance Render_ret : MRet Render := fun A a r => (a, r).
#[local] Instance Render_bind : MBind Render :=
  fun A B k m r => k (m r).1 (m r).2.

(** [f.write(text)] appends to the file. *)
Definition f_write (text : string) : Render unit :=
  fun r =>
    (tt, {| transcript_object := transcript_object r;
            written := written r +:+ text |}).

(** [transcript.get(key, ...)] and [transcript[key]]: a read of the
    dictionary. *)
Definition read {A} (key : TranscriptDict -> A) : Render A :=
  fun r => (key (transcript_object r), r).

(** The loop of lines 319-344. *)
Fixpoint write_segments (segments : list Segment) : Render unit :=
  match segments with
  | [] => mret tt
  | segment :: rest =>
      f_write (segment_line segment);;
      write_segments rest
  end.

Definition write_document : Render unit :=
  f_write ("# 音频转录" +:+ Py.nl +:+ Py.nl);;
  f_write ("## 音频信息" +:+ Py.nl +:+ Py.nl);;
  language ← read get_language;
  f_write ("- 语言: " +:+ default "未知" language +:+ Py.nl);;
  segments ← read get_segments;
  match segments with
  | Some segments =>
      match last segments with
      | Some last_segment =>
          f_write ("- 时长: " +:+ duration_str (seg_end last_segment) +:+ Py.nl)
      | None => mret tt
      end
  | None => mret tt
  end;;
  f_write Py.nl;;
  f_write ("## 完整转录文本" +:+ Py.nl +:+ Py.nl);;
  text ← read get_text;
  f_write (strip ext (default "" text));;
  f_write (Py.nl +:+ Py.nl);;
  segments ← read get_segments;
  match segments with
  | Some segments =>
      match segments with
      | [] => mret tt
      | _ :: _ =>
          f_write ("## 带时间戳的分段文本" +:+ Py.nl +:+ Py.nl);;
          write_segments segments
      end
  | None => mret tt
  end.

(** [save_transcript_to_markdown] (lines 277-350): [open(output_path, 'w')]
    starts from an empty file, whatever the path held; when the [with]
    block is left the file holds what was written. *)
Definition save_transcript_to_markdown (transcript : TranscriptDict)
    (output_path : string) : M unit :=
  let rendering :=
    (write_document {| transcript_object := transcript; written := "" |}).2 in
  write_text output_path (written rendering).

(** *** Orchestration and timeline merge *)

(** Lines 252-254: [segment["start"] += total_duration] and
    [segment["end"] += total_duration], in place. *)
Definition adjust_timestamps (total_duration : Qc) (segment : Segment) : Segment :=
  {| seg_start := seg_start segment + total_duration;
     seg_end := seg_end segment + total_duration;
     seg_text := seg_text segment |}.

(** Lines 251-257.  The loop of lines 252-254 mutates the dictionaries held
    by [result["segments"]]; lines 256 and 257 read that same list afterwards,
    so [result] is rebound to its updated value before they use it. *)
Definition merge_result (result : Transcript) (all_segments : list Segment)
    (total_duration : Qc) : list Segment * Qc :=
  let result :=
    {| tr_text := tr_text result;
       tr_segments := map (adjust_timestamps total_duration) (tr_segments result);
       tr_language := tr_language result |} in
  let all_segments := all_segments ++ tr_segments result in
  let total_duration :=
    (total_duration
     + match last (tr_segments result) with
       | Some last_segment => seg_end last_segment
       | None => 0
       end)%Qc in
  (all_segments, total_duration).

(** The body of the [try] of lines 244-257. *)
Definition transcribe_chunk (chunk_path language : string)
    (all_segments : list Segment) (total_duration : Qc)
    : M (list Segment * Qc) :=
  result ← transcribe_audio chunk_path language;
  let chunk_md_path := (os_path_splitext ext chunk_path).1 +:+ ".md" in
  save_transcript_to_markdown (as_dict result) chunk_md_path;;
  mret (merge_result result all_segments total_duration).

(** The loop of lines 241-261: a chunk whose [try] body raises is logged and
    leaves [all_segments] and [total_duration] as they were. *)
Fixpoint transcribe_chunks (chunk_files : list string) (language : string)
    (all_segments : list Segment) (total_duration : Qc)
    : M (list Segment * Qc) :=
  match chunk_files with
  | [] => mret (all_segments, total_duration)
  | chunk_path :: rest =>
      acc ← try_except
              (transcribe_chunk chunk_path language all_segments total_duration)
              (fun _ => mret (all_segments, total_duration));
      transcribe_chunks rest language acc.1 acc.2
  end.

(** Lines 237-271: the loop over the chunks followed by the construction of
    [merged_result]. *)
Definition merge_chunks (chunk_files : list string) (language : string)
    : M Transcript :=
  acc ← transcribe_chunks chunk_files language [] 0%Qc;
  let all_segments := acc.1 in
  mret {| tr_text := Py.join " " (map seg_text all_segments);
          tr_segments := all_segments;
          tr_language := language |}.

(** [transcribe_long_audio] (lines 203-275). *)
Definition transcribe_long_audio (audio_path : string)
    (output_dir : option string) (language : string) : M Transcript :=
  output_dir ←
    match output_dir with
    | None =>
        let base_name :=
          (os_path_splitext ext (os_path_basename ext audio_path)).1 in
        let parent_dir := os_path_dirname ext audio_path in
        let output_dir := os_path_join ext parent_dir base_name in
        ensure_dir output_dir;;
        mret output_dir
    | Some output_dir => mret output_dir
    end;
  chunk_files ← split_audio audio_path output_dir default_chunk_length_ms
                  default_min_silence_len default_silence_thresh
                  default_keep_silence;
  if bool_decide (length chunk_files = 1%nat)
     && bool_decide (head chunk_files = Some audio_path) then
    transcribe_audio audio_path language
  else
    merge_chunks chunk_files language.

End Transcriber.

(** ** Notions the statements are phrased with *)

Global Instance Segment_eq_dec : EqDecision Segment.
Proof. solve_decision. Defined.
Global Instance Transcript_eq_dec : EqDecision Transcript.
Proof. solve_decision. Defined.
Global Instance exn_eq_dec : EqDecision exn.
Proof. solve_decision. Defined.
Global Instance outcome_eq_dec {A} `{EqDecision A} : EqDecision (outcome A).
Proof. solve_decision. Defined.

Definition is_returned {A} (o : outcome A) : bool :=
  match o with Returned _ => true | Raised _ => false end.

(** What the recogniser stage yields for each chunk file of a run started
    in store [w]: the value or the exception of [transcribe_audio]. *)
Definition chunk_results (ext : Collaborators) (self : WhisperTranscriber)
    (language : string) (w : World) (chunk_files : list string)
    : list (outcome Transcript) :=
  map (fun chunk_path => (transcribe_audio ext self chunk_path language w).1)
      chunk_files.

(** One turn of the loop of lines 241-261, given what the [try] body got
    from the recogniser: a result is merged, an exception changes nothing. *)
Definition absorb (acc : list Segment * Qc) (r : outcome Transcript)
    : list Segment * Qc :=
  match r with
  | Returned result => merge_result result acc.1 acc.2
  | Raised _ => acc
  end.

(** The end of the last segment, [0] when there is none. *)
Definition last_end (segments : list Segment) : Qc :=
  match last segments with
  | Some last_segment => seg_end last_segment
  | None => 0%Qc
  end.

(** The Timeline Merger as section 4.3 of the specification words it: the
    running offset is added to every segment of a chunk's transcript, then
    advanced by that transcript's last segment end. *)
Fixpoint spec_merge (offset : Qc) (transcripts : list Transcript) : list Segment :=
  match transcripts with
  | [] => []
  | t :: rest =>
      map (adjust_timestamps offset) (tr_segments t)
      ++ spec_merge (offset + last_end (tr_segments t)) rest
  end.

(** A sequence of timestamps that never goes back. *)
Definition non_decreasing (xs : list Qc) : Prop := StronglySorted Qcle xs.

Global Instance non_decreasing_dec xs : Decision (non_decreasing xs).
Proof. unfold non_decreasing. apply _. Defined.

(** Every segment spans a non-negative interval. *)
Definition spans_ok (segments : list Segment) : Prop :=
  Forall (fun s => (0 ≤ seg_start s)%Qc ∧ (seg_start s ≤ seg_end s)%Qc) segments.

(** The state of the merge loop between two chunks when no start has gone
    back so far: the offset is non-negative, the starts are in order and none
    lies beyond the offset. *)
Definition starts_in_order (acc : list Segment * Qc) : Prop :=
  (0 ≤ acc.2)%Qc
  ∧ non_decreasing (map seg_start acc.1)
  ∧ Forall (fun s => (seg_start s ≤ acc.2)%Qc) acc.1.

(** The same for the ends. *)
Definition ends_in_order (acc : list Segment * Qc) : Prop :=
  non_decreasing (map seg_end acc.1)
  ∧ Forall (fun s => (seg_end s ≤ acc.2)%Qc) acc.1.

(** The rendered forms of section 4.4, on an already clamped time. *)
Definition clamp (t : Qc) : Qc := Py.min t max_time.

Definition hh_mm_ss (t : Qc) : string :=
  Py.format_0d 2 (Py.int (t / Qc_of_Z 3600)) +:+ ":"
  +:+ Py.format_0d 2 (Py.int (Py.mod_ t (Qc_of_Z 3600) / Qc_of_Z 60)) +:+ ":"
  +:+ Py.format_0d 2 (Py.int (Py.mod_ t (Qc_of_Z 60))).

Definition mm_ss (t : Qc) : string :=
  Py.format_0d 2 (Py.int (t / Qc_of_Z 60)) +:+ ":"
  +:+ Py.format_0d 2 (Py.int (Py.mod_ t (Qc_of_Z 60))).

(** ["H小时M分钟S秒"] when [H > 0], else ["M分钟S秒"], with integer
    truncation, for a duration [d] in seconds. *)
Definition hms_text (d : Qc) : string :=
  let h := Py.int (d / Qc_of_Z 3600) in
  let m := Py.int (Py.mod_ d (Qc_of_Z 3600) / Qc_of_Z 60) in
  let s := Py.int (Py.mod_ d (Qc_of_Z 60)) in
  (if 0 <? h then Py.str h +:+ "小时" else "")
  +:+ Py.str m +:+ "分钟" +:+ Py.str s +:+ "秒".

(** ** Concrete collaborators used to exercise the pipeline *)

Module Demo.

(** Split [s] at the last occurrence of [c]. *)
Fixpoint rsplit (c : ascii) (s : string) : option (string * string) :=
  match s with
  | EmptyString => None
  | String a s' =>
      match rsplit c s' with
      | Some (before, after) => Some (String a before, after)
      | None => if bool_decide (a = c) then Some (EmptyString, s') else None
      end
  end.

Definition basename (p : string) : string :=
  match rsplit "/" p with Some (_, b) => b | None => p end.

Definition dirname (p : string) : string :=
  match rsplit "/" p with Some (d, _) => d | None => "" end.

Definition splitext (p : string) : string * string :=
  match rsplit "." p with
  | Some (root, e) =>
      match rsplit "/" e with
      | Some _ => (p, "")
      | None => (root, "." +:+ e)
      end
  | None => (p, "")
  end.

Definition join (d f : string) : string := d +:+ "/" +:+ f.

End Demo.

Module Examples.

(** A recogniser given by a table from clip contents to results; any other
    clip is a recognition failure. *)
Definition table_recognizer (table : list (AudioSegment * outcome Transcript))
    (audio : AudioSegment) (language : string) : outcome Transcript :=
  match list_find (fun entry => entry.1 = audio) table with
  | Some (_, (_, result)) => result
  | None => Raised (RecognitionError "unintelligible")
  end.

Definition collaborators (silence : AudioSegment -> list AudioSegment)
    (table : list (AudioSegment * outcome Transcript)) : Collaborators :=
  {| split_on_silence := fun audio _ _ _ => silence audio;
     model_transcribe := table_recognizer table;
     converter_convert := fun s => s;
     strip := fun s => s;
     os_path_basename := Demo.basename;
     os_path_dirname := Demo.dirname;
     os_path_splitext := Demo.splitext;
     os_path_join := Demo.join |}.

Definition transcriber : WhisperTranscriber :=
  {| model_size := "small"; to_simplified := true |}.

Definition seg (a b : Z) (t : string) : Segment :=
  {| seg_start := Qc_of_Z a; seg_end := Qc_of_Z b; seg_text := t |}.

Definition heard (segments : list Segment) : Transcript :=
  {| tr_text := Py.join "" (map seg_text segments);
     tr_segments := segments;
     tr_language := "zh" |}.

(** A twelve-second clip of constant amplitude [k]. *)
Definition clip (k : Z) : AudioSegment := replicate (Z.to_nat 12000) k.

(** Three already exported chunks, told apart by their content. *)
Definition three_chunks : World :=
  {| audio_files := {[ "ep/ep_001.mp3" := clip 1; "ep/ep_002.mp3" := clip 2;
                       "ep/ep_003.mp3" := clip 3 ]};
     documents := ∅;
     directories := {[ "ep" ]} |}.

Definition three_files : list string :=
  ["ep/ep_001.mp3"; "ep/ep_002.mp3"; "ep/ep_003.mp3"].

(** Every chunk is heard as one ten-second utterance. *)
Definition all_heard : Collaborators :=
  collaborators (fun audio => [audio])
    [(clip 1, Returned (heard [seg 0 10 "a"]));
     (clip 2, Returned (heard [seg 0 10 "b"]));
     (clip 3, Returned (heard [seg 0 10 "c"]))].

(** The recogniser fails on the second chunk. *)
Definition second_fails : Collaborators :=
  collaborators (fun audio => [audio])
    [(clip 1, Returned (heard [seg 0 4 "a"; seg 5 9 "b"]));
     (clip 2, Raised (RecognitionError "decoder error"));
     (clip 3, Returned (heard [seg 1 3 "c"]))].

(** Two chunks; in the first, a long utterance is followed by a short one
    that starts later and ends earlier. *)
Definition overlapping : Collaborators :=
  collaborators (fun audio => [audio])
    [(clip 1, Returned (heard [seg 0 10 "a"; seg 1 2 "b"]));
     (clip 2, Returned (heard [seg 0 1 "c"]))].

Definition two_files : list string := ["ep/ep_001.mp3"; "ep/ep_002.mp3"].

(** Two chunks with utterances one after the other. *)
Definition consecutive : Collaborators :=
  collaborators (fun audio => [audio])
    [(clip 1, Returned (heard [seg 0 4 "a"; seg 5 9 "b"]));
     (clip 2, Returned (heard [seg 1 3 "c"; seg 3 8 "d"]))].

(** The recogniser fails on every clip. *)
Definition none_heard : Collaborators :=
  collaborators (fun audio => [audio]) [].

(** An eleven-minute recording: five minutes of speech, one minute of
    silence, five minutes of speech. *)
Definition lecture : AudioSegment :=
  replicate (Z.to_nat 300000) 1 ++ replicate (Z.to_nat 60000) 0
  ++ replicate (Z.to_nat 300000) 1.

(** What pydub's [split_on_silence] returns for [lecture] with the default
    [keep_silence] of 500 ms: the two spoken stretches, each with half a
    second of the pause kept; the 59 s in between are dropped. *)
Definition between_pauses (audio : AudioSegment) : list AudioSegment :=
  [audio_slice audio 0 300500; audio_slice audio 359500 660000].

Definition lecture_heard : Collaborators :=
  collaborators between_pauses
    [(audio_slice lecture 0 300500, Returned (heard [seg 2 298 "a"]));
     (audio_slice lecture 359500 660000, Returned (heard [seg 1 299 "b"]))].

(** An eleven-minute recording of three answers of 200 s each, separated by
    pauses of 30 s. *)
Definition interview : AudioSegment :=
  replicate (Z.to_nat 200000) 1 ++ replicate (Z.to_nat 30000) 0
  ++ replicate (Z.to_nat 200000) 2 ++ replicate (Z.to_nat 30000) 0
  ++ replicate (Z.to_nat 200000) 3.

(** The three answers, each with half a second of the neighbouring pauses. *)
Definition three_answers (audio : AudioSegment) : list AudioSegment :=
  [audio_slice audio 0 200500; audio_slice audio 229500 430500;
   audio_slice audio 459500 660000].

Definition interview_heard : Collaborators :=
  collaborators three_answers
    [(audio_slice interview 0 200500, Returned (heard [seg 1 199 "a"]));
     (audio_slice interview 229500 430500, Returned (heard [seg 1 200 "b"]));
     (audio_slice interview 459500 660000, Returned (heard [seg 1 199 "c"]))].

Definition newsroom : World :=
  {| audio_files := {[ "audio/talk.mp3" := interview ]};
     documents := ∅;
     directories := {[ "audio" ]} |}.

Definition studio : World :=
  {| audio_files := {[ "audio/ep.mp3" := lecture ]};
     documents := ∅;
     directories := {[ "audio" ]} |}.

(** A recogniser that hears the same traditional-script word whatever the
    language, and a converter that knows that word. *)
Definition traditional : Collaborators :=
  {| split_on_silence := fun audio _ _ _ => [audio];
     model_transcribe := fun _ language =>
       Returned {| tr_text := "書";
                   tr_segments := [{| seg_start := 0; seg_end := Qc_of_Z 1;
                                      seg_text := "書" |}];
                   tr_language := language |};
     converter_convert := fun s => if bool_decide (s = "書") then "书" else s;
     strip := fun s => s;
     os_path_basename := Demo.basename;
     os_path_dirname := Demo.dirname;
     os_path_splitext := Demo.splitext;
     os_path_join := Demo.join |}.

End Examples.

(** * Further notions *)

(** The running offset of the merge loop once the chunks with the given
    outcomes have been gone through: the value of [total_duration] when the
    next chunk is reached. *)
Definition running_offset (results : list (outcome Transcript)) : Qc :=
  (fold_left absorb results ([], 0%Qc)).2.

(** What a chunk contributes when it is placed at [offset]: its segments
    as they were heard, with [offset] added to every start and end; nothing
    when the chunk was not recognised. *)
Definition placed (offset : Qc) (r : outcome Transcript) : list Segment :=
  match r with
  | Returned t =>
      map (fun s => {| seg_start := seg_start s + offset;
                       seg_end := seg_end s + offset;
                       seg_text := seg_text s |})
          (tr_segments t)
  | Raised _ => []
  end.

(** No segment of a recognised chunk ends before 0. *)
Definition ends_from_zero (r : outcome Transcript) : Prop :=
  match r with
  | Returned t => Forall (fun s => (0 ≤ seg_end s)%Qc) (tr_segments t)
  | Raised _ => True
  end.

(** A text given line by line, every line ended by a line feed. *)
Definition text_lines (lines : list string) : string :=
  String.concat "" (map (fun line => line +:+ Py.nl) lines).

(** The path under which [split_audio] exports chunk number [i] (from 0):
    line 191. *)
Definition chunk_path (ext : Collaborators) (output_dir base_name : string)
    (i : nat) : string :=
  os_path_join ext output_dir
    (base_name +:+ "_" +:+ Py.format_0d 3 (Z.of_nat i + 1) +:+ ".mp3").

(** The ordinals ["001"] to ["999"]. *)
Definition ordinals : list string :=
  map (fun i => Py.format_0d 3 (Z.of_nat i + 1)) (seq 0 999).

(** The transcripts of the chunks that were recognised, in chunk order. *)
Definition heard_of (results : list (outcome Transcript)) : list Transcript :=
  omap (fun r => match r with Returned t => Some t | Raised _ => None end)
       results.

(** Where the transcript of a chunk is written: line 248. *)
Definition chunk_md_path (ext : Collaborators) (chunk_path : string) : string :=
  (os_path_splitext ext chunk_path).1 +:+ ".md".

(** The renderer's clock on whole seconds: what a time is rendered from,
    and the three forms it is rendered in, in integer arithmetic. *)
Definition whole_seconds (t : Qc) : Z := Z.min (Py.int t) 36000.

Definition clock_long (n : Z) : string :=
  Py.format_0d 2 (n / 3600) +:+ ":" +:+ Py.format_0d 2 (n mod 3600 / 60)
  +:+ ":" +:+ Py.format_0d 2 (n mod 60).

Definition clock_short (n : Z) : string :=
  Py.format_0d 2 (n / 60) +:+ ":" +:+ Py.format_0d 2 (n mod 60).

Definition duration_text (n : Z) : string :=
  (if 0 <? n / 3600 then Py.str (n / 3600) +:+ "小时" else "")
  +:+ Py.str (n mod 3600 / 60) +:+ "分钟" +:+ Py.str (n mod 60) +:+ "秒".

(** * The link reader of [csv_reader.py]

    Strings are byte strings here as everywhere in this development; the
    markers and separators the reader looks for are ASCII, for which the
    substring test and [split] on the UTF-8 bytes agree with Python's on
    code points. *)

(** ** Python's string operations used by the reader *)

Module PyStr.

(** [needle in s]. *)
Fixpoint contains (needle s : string) : bool :=
  String.prefix needle s
  || match s with
     | EmptyString => false
     | String _ rest => contains needle rest
     end.

(** The scan of [s.split(sep)], left to right: [skip] characters of a
    separator just found are still to be passed over, [field] is the field
    read so far. *)
Fixpoint split_from (sep s : string) (skip : nat) (field : string) : list string :=
  match s with
  | EmptyString => [field]
  | String c rest =>
      match skip with
      | S skip' => split_from sep rest skip' field
      | O =>
          if String.prefix sep s
          then field :: split_from sep rest (String.length sep - 1) ""
          else split_from sep rest 0 (field +:+ String c "")
      end
  end.

(** [s.endswith(suffix)]: some tail of [s] is [suffix]. *)
Fixpoint endswith (suffix s : string) : bool :=
  bool_decide (s = suffix)
  || match s with
     | EmptyString => false
     | String _ rest => endswith suffix rest
     end.

(** [s.split(sep)]; [None] stands for the [ValueError] raised for an empty
    separator. *)
Definition split (sep s : string) : option (list string) :=
  if bool_decide (sep = "") then None else Some (split_from sep s 0 "").

End PyStr.

Module CsvReader.

(** ** The table [pd.read_csv] returns *)

(** A cell: missing ([NaN]), a string, or any other object. *)
Inductive Cell :=
| NaN
| Str (s : string)
| Num (x : Z).

Definition Series := list Cell.

(** The columns in file order; [read_csv] makes their labels unique. *)
Definition DataFrame := list (string * Series).

(** [df[column_name]]; [None] stands for the [KeyError]. *)
Definition getitem (df : DataFrame) (column_name : string) : option Series :=
  snd <$> List.find (fun column => bool_decide (column.1 = column_name)) df.

(** [series.dropna()]. *)
Definition dropna (series : Series) : Series :=
  List.filter (fun cell => match cell with NaN => false | _ => true end) series.

(** [isinstance(value, str) and marker in value]. *)
Definition is_str_with (marker : string) (value : Cell) : bool :=
  match value with
  | Str s => PyStr.contains marker s
  | _ => false
  end.

(** ** Exceptions and files *)

Inductive error :=
| FileNotFoundError (msg : string)
| ValueError (msg : string)
| KeyError (key : string)
| ReadError (msg : string).

Inductive result (A : Type) :=
| Ok (a : A)
| Raise (e : error).
Arguments Ok {A} a.
Arguments Raise {A} e.


(** ** The reader *)

Record CSVLinkReader := mkCSVLinkReader {
  csv_file_path : string;
  links : list string
}.

(** [__init__] (lines 18-27). *)
Definition init (csv_file_path : string) : CSVLinkReader :=
  {| csv_file_path := csv_file_path; links := [] |}.

(** Line 52: the first value of a column that is not missing, [""] when
    there is none. *)
Definition first_value (series : Series) : Cell :=
  match dropna series with
  | [] => Str ""
  | value :: _ => value
  end.

(** Lines 50-56: the first column whose first value is a string with the
    site's name in it.  The loop visits the columns in order; [df[col]] is
    the column being visited. *)
Definition detect (df : DataFrame) : option string :=
  fst <$> List.find
            (fun column => is_str_with "xiaoyuzhoufm.com" (first_value column.2))
            df.

(** Lines 66-71: the cells that are strings with an episode address. *)
Definition valid_links (cells : Series) : list string :=
  omap (fun link =>
          match link with
          | Str s =>
              if PyStr.contains "xiaoyuzhoufm.com/episode/" s then Some s
              else None
          | _ => None
          end)
       cells.

(** [read_links] (lines 29-80): the value or the exception, and the reader
    afterwards.  [files] holds what [pd.read_csv] makes of each path that
    exists: a table, or the exception it raises. *)
Definition read_links (files : gmap string (result DataFrame))
    (self : CSVLinkReader)
    (column_name : option string) : result (list string) * CSVLinkReader :=
  match files !! csv_file_path self with
  | None =>
      (Raise (FileNotFoundError ("CSV文件不存在: " +:+ csv_file_path self)), self)
  | Some (Raise e) => (Raise e, self)
  | Some (Ok df) =>
      let column_name :=
        match column_name with
        | None => detect df
        | Some column_name => Some column_name
        end in
      match column_name with
      | None =>
          (Raise (ValueError
                    "无法自动检测到包含小宇宙链接的列，请指定column_name参数"),
           self)
      | Some column_name =>
          match getitem df column_name with
          | None => (Raise (KeyError column_name), self)
          | Some series =>
              let links := dropna series in
              let valid_links := valid_links links in
              (Ok valid_links,
               {| csv_file_path := csv_file_path self; links := valid_links |})
          end
      end
  end.

(** Line 98: [link.split("/episode/")[1].split("?")[0]]; [None] stands for
    an exception ([IndexError]) of the expression. *)
Definition episode_id_of (link : string) : option string :=
  parts ← PyStr.split "/episode/" link;
  rest ← parts !! 1%nat;
  fields ← PyStr.split "?" rest;
  fields !! 0%nat.

(** [extract_episode_ids] (lines 82-106).  An exception inside the loop is
    logged and the link passed over. *)
Definition extract_episode_ids (self : CSVLinkReader) : list string :=
  if bool_decide (links self = []) then []
  else
    fold_left
      (fun episode_ids link =>
         if PyStr.contains "/episode/" link then
           match episode_id_of link with
           | Some episode_id => episode_ids ++ [episode_id]
           | None => episode_ids
           end
         else episode_ids)
      (links self) [].

End CsvReader.

(** * The workflow of [main.py] *)

Module Workflow.

(** The dictionary [dirs] of [create_directory_structure]: its keys are the
    three literals ["mp3"], ["transcripts"] and ["temp"], in this order. *)
Record Dirs := mkDirs {
  mp3 : string;
  transcripts : string;
  temp : string
}.

(** [create_directory_structure] (lines 33-54). *)
Definition create_directory_structure (ext : Collaborators) (base_dir : string)
    : M Dirs :=
  let dirs :=
    {| mp3 := os_path_join ext base_dir "mp3_files";
       transcripts := os_path_join ext base_dir "transcripts";
       temp := os_path_join ext base_dir "temp" |} in
  ensure_dir (mp3 dirs);;
  ensure_dir (transcripts dirs);;
  ensure_dir (temp dirs);;
  mret dirs.

(** What the workflow asks of the browser-driven extractor and of the model
    loader; both act on the world outside this development. *)
Record Services := mkServices {
  (** [MP3Extractor.extract_mp3_from_episode]: the path of the downloaded
      file, or [None]. *)
  extract_mp3_from_episode : string -> M (option string);
  (** [WhisperTranscriber.load_model]. *)
  load_model : M unit;
  (** [MP3Extractor.close]. *)
  close : M unit
}.

Section Workflow.

Variable ext : Collaborators.
Variable services : Services.

(** The body of the [try] of lines 91-132, for one link and its
    identifier. *)
Definition process_episode (self : WhisperTranscriber) (dirs : Dirs)
    (link episode_id : string) : M unit :=
  mp3_path ← extract_mp3_from_episode services link;
  match mp3_path with
  | None => mret tt
  | Some mp3_path =>
      if bool_decide (mp3_path = "") then mret tt
      else
        let audio_chunks_dir := os_path_join ext (mp3 dirs) episode_id in
        ensure_dir audio_chunks_dir;;
        transcript ← transcribe_long_audio ext self mp3_path
                       (Some audio_chunks_dir) "zh";
        let episode_transcript_dir :=
          os_path_join ext (transcripts dirs) episode_id in
        ensure_dir episode_transcript_dir;;
        let md_path :=
          os_path_join ext episode_transcript_dir (episode_id +:+ ".md") in
        save_transcript_to_markdown ext (as_dict transcript) md_path
  end.

(** The loop of lines 90-135 over [zip(links, episode_ids)]: an exception
    of the body is logged and the next pair is taken. *)
Fixpoint process_episodes (self : WhisperTranscriber) (dirs : Dirs)
    (pairs : list (string * string)) : M unit :=
  match pairs with
  | [] => mret tt
  | (link, episode_id) :: rest =>
      try_except (process_episode self dirs link episode_id)
                 (fun _ => mret tt);;
      process_episodes self dirs rest
  end.

(** An exception that leaves [process_podcast_links]: one of the reader or
    one of the pipeline and its services. *)
Inductive raised :=
| ReaderError (e : CsvReader.error)
| PipelineError (e : exn).

Inductive finished :=
| Done
| Failed (e : raised).

(** [process_podcast_links] (lines 56-144).  [files] is what the reader
    finds on disk. *)
Definition process_podcast_links
    (files : gmap string (CsvReader.result CsvReader.DataFrame))
    (csv_file output_base_dir whisper_model_size : string)
    (column_name : option string) (to_simplified : bool)
    : World -> finished * World :=
  fun w =>
    match create_directory_structure ext output_base_dir w with
    | (Raised e, w) => (Failed (PipelineError e), w)
    | (Returned dirs, w) =>
        let csv_reader := CsvReader.init csv_file in
        match CsvReader.read_links files csv_reader column_name with
        | (CsvReader.Raise e, _) => (Failed (ReaderError e), w)
        | (CsvReader.Ok links, csv_reader) =>
            let episode_ids := CsvReader.extract_episode_ids csv_reader in
            let transcriber :=
              {| model_size := whisper_model_size;
                 to_simplified := to_simplified |} in
            match (ensure_dir (mp3 dirs);;
                   load_model services;;
                   process_episodes transcriber dirs (zip links episode_ids);;
                   close services) w with
            | (Returned _, w) => (Done, w)
            | (Raised e, w) => (Failed (PipelineError e), w)
            end
        end
    end.

End Workflow.

End Workflow.

(** * The batch script [test_transcribe_all.py] *)

Module TranscribeAll.

(** Lines 27-35 of [main]: the model size and the conversion flag read from
    the arguments after the two directories. *)
Definition parse_options (argv : list string) : string * bool :=
  fold_left
    (fun '(model_size, to_simplified) arg =>
       if bool_decide (arg ∈ ["tiny"; "base"; "small"; "medium"; "large"])
       then (arg, to_simplified)
       else if bool_decide (arg = "--traditional")
            then (model_size, false)
            else (model_size, to_simplified))
    (drop 3 argv) ("small", true).

Section Batch.

Variable ext : Collaborators.

(** [os.listdir]. *)
Variable listdir : string -> M (list string).

(** The body of the [try] of lines 54-64, for one file name. *)
Definition transcribe_file (self : WhisperTranscriber)
    (audio_dir output_dir mp3_file : string) : M unit :=
  let mp3_path := os_path_join ext audio_dir mp3_file in
  transcript ← transcribe_audio ext self mp3_path "zh";
  let base_name := (os_path_splitext ext mp3_file).1 in
  let md_path := os_path_join ext output_dir (base_name +:+ ".md") in
  save_transcript_to_markdown ext (as_dict transcript) md_path.

(** The loop of lines 50-67: a file whose [try] body raises is logged and
    the next one is taken. *)
Fixpoint transcribe_files (self : WhisperTranscriber)
    (audio_dir output_dir : string) (mp3_files : list string) : M unit :=
  match mp3_files with
  | [] => mret tt
  | mp3_file :: rest =>
      try_except (transcribe_file self audio_dir output_dir mp3_file)
                 (fun _ => mret tt);;
      transcribe_files self audio_dir output_dir rest
  end.

(** [main] (lines 14-69); with fewer than three arguments the usage is
    printed and nothing else happens. *)
Definition main (argv : list string) : M unit :=
  match argv with
  | _ :: audio_dir :: output_dir :: _ =>
      let '(model_size, to_simplified) := parse_options argv in
      ensure_dir output_dir;;
      let transcriber :=
        {| model_size := model_size; to_simplified := to_simplified |} in
      names ← listdir audio_dir;
      let mp3_files := List.filter (PyStr.endswith ".mp3") names in
      transcribe_files transcriber audio_dir output_dir mp3_files
  | _ => mret tt
  end.

End Batch.

End TranscribeAll.

(** ** A table of links and stand-ins for the services *)

Module Scenario.

Definition episode_link : string :=
  "https://www.xiaoyuzhoufm.com/episode/abc?s=1".

(** A table whose second column holds the links: a missing cell, an episode
    link, a number and the address of a podcast. *)
Definition links_csv : gmap string (CsvReader.result CsvReader.DataFrame) :=
  {[ "links.csv" :=
       CsvReader.Ok
         [("title", [CsvReader.Str "one"; CsvReader.Str "two"]);
          ("url",
           [CsvReader.NaN;
            CsvReader.Str episode_link;
            CsvReader.Num 7;
            CsvReader.Str "https://www.xiaoyuzhoufm.com/podcast/xyz"])] ]}.

(** An extractor that finds the audio of every episode already on disk, and
    a model that loads at once. *)
Definition downloads : Workflow.Services :=
  {| Workflow.extract_mp3_from_episode := fun _ => mret (Some "ep/ep_001.mp3");
     Workflow.load_model := mret tt;
     Workflow.close := mret tt |}.

(** A directory listing with two audio files and a text file. *)
Definition listing : string -> M (list string) :=
  fun _ => mret ["ep_001.mp3"; "notes.txt"; "ep_002.mp3"].

End Scenario.

(** * Properties *)

(** Closed goals are settled by running the decision procedure; for an
    equation the procedure is picked from the type of its sides alone. *)
Ltac by_evaluation :=
  lazymatch goal with
  | |- ?x = ?y =>
      apply (@bool_decide_unpack _ (decide_rel (=) x y)); vm_compute; exact I
  | |- _ => apply (bool_decide_unpack _); vm_compute; exact I
  end.

Ltac run_monad :=
  unfold mbind, mret, M_bind, M_ret, bind, ret, lift, try_except; simpl.

(** ** The recogniser stage reads the store and leaves it alone *)

Section Recogniser.

Variable ext : Collaborators.
Variable self : WhisperTranscriber.

Lemma transcribe_audio_store audio_path language w :
  (transcribe_audio ext self audio_path language w).2 = w.
Proof.
  unfold transcribe_audio, from_file. run_monad.
  destruct (audio_files w !! audio_path) as [audio|]; [|reflexivity].
  destruct (model_transcribe ext audio language); [|reflexivity].
  destruct (to_simplified self && bool_decide (language = "zh")); reflexivity.
Qed.

Lemma transcribe_audio_reads_audio audio_path language w w' :
  audio_files w = audio_files w' ->
  (transcribe_audio ext self audio_path language w).1
  = (transcribe_audio ext self audio_path language w').1.
Proof.
  intros Hfiles. unfold transcribe_audio, from_file. run_monad.
  rewrite Hfiles.
  destruct (audio_files w' !! audio_path) as [audio|]; [|reflexivity].
  destruct (model_transcribe ext audio language); [|reflexivity].
  destruct (to_simplified self && bool_decide (language = "zh")); reflexivity.
Qed.

Lemma chunk_results_reads_audio language w w' chunk_files :
  audio_files w = audio_files w' ->
  chunk_results ext self language w chunk_files
  = chunk_results ext self language w' chunk_files.
Proof.
  intros Hfiles. unfold chunk_results. apply map_ext. intros p.
  by apply transcribe_audio_reads_audio.
Qed.

(** The [try] body merges the recogniser's result, or raises what the
    recogniser raised; it only ever writes a document. *)
Lemma transcribe_chunk_run chunk_path language all_segments total_duration w :
  (transcribe_chunk ext self chunk_path language all_segments total_duration w).1
  = match (transcribe_audio ext self chunk_path language w).1 with
    | Returned result => Returned (merge_result result all_segments total_duration)
    | Raised e => Raised e
    end
  /\ audio_files
       (transcribe_chunk ext self chunk_path language all_segments total_duration w).2
     = audio_files w.
Proof.
  unfold transcribe_chunk. run_monad.
  pose proof (transcribe_audio_store chunk_path language w) as Hstore.
  destruct (transcribe_audio ext self chunk_path language w) as [[result|e] w1];
    simpl in *; subst w1; done.
Qed.

(** The loop is a left fold of [absorb] over the recogniser's verdicts, and
    it always returns. *)
Lemma transcribe_chunks_fold chunk_files language all_segments total_duration w :
  (transcribe_chunks ext self chunk_files language all_segments total_duration w).1
  = Returned (fold_left absorb (chunk_results ext self language w chunk_files)
                        (all_segments, total_duration))
  /\ audio_files
       (transcribe_chunks ext self chunk_files language all_segments total_duration w).2
     = audio_files w.
Proof.
  revert all_segments total_duration w.
  induction chunk_files as [|chunk_path rest IH]; intros all_segments total_duration w.
  - done.
  - simpl. run_monad.
    destruct (transcribe_chunk_run chunk_path language all_segments
                total_duration w) as [Hval Hfiles].
    destruct (transcribe_chunk ext self chunk_path language all_segments
                total_duration w) as [[acc|e] w1]; simpl in *.
    + destruct (IH acc.1 acc.2 w1) as [IHval IHfiles].
      rewrite IHval, IHfiles, Hfiles.
      rewrite (chunk_results_reads_audio language w1 w rest Hfiles).
      destruct (transcribe_audio ext self chunk_path language w) as [[result|e] w2];
        simpl in *; [|discriminate].
      injection Hval as ->. by destruct (merge_result _ _ _).
    + destruct (IH all_segments total_duration w1) as [IHval IHfiles].
      rewrite IHval, IHfiles, Hfiles.
      rewrite (chunk_results_reads_audio language w1 w rest Hfiles).
      destruct (transcribe_audio ext self chunk_path language w) as [[result|e'] w2];
        simpl in *; [discriminate|done].
Qed.

(** [merge_chunks] never raises: its value is built from the fold. *)
Lemma merge_chunks_fold chunk_files language w :
  (merge_chunks ext self chunk_files language w).1
  = Returned
      (let all_segments :=
         (fold_left absorb (chunk_results ext self language w chunk_files)
                    ([], 0%Qc)).1 in
       {| tr_text := Py.join " " (map seg_text all_segments);
          tr_segments := all_segments;
          tr_language := language |}).
Proof.
  unfold merge_chunks. run_monad.
  destruct (transcribe_chunks_fold chunk_files language [] 0%Qc w) as [Hval _].
  destruct (transcribe_chunks ext self chunk_files language [] 0%Qc w)
    as [[acc|e] w1]; simpl in *; [|discriminate].
  by injection Hval as ->.
Qed.

End Recogniser.

(** ** Timeline merger *)

Section Merger.

Variable ext : Collaborators.
Variable self : WhisperTranscriber.

Lemma adjust_timestamps_0 segment : adjust_timestamps 0 segment = segment.
Proof.
  destruct segment as [s e t]. unfold adjust_timestamps. simpl.
  by rewrite !Qcplus_0_r.
Qed.

Lemma map_adjust_timestamps_0 segments :
  map (adjust_timestamps 0) segments = segments.
Proof.
  induction segments as [|s rest IH]; simpl; [done|].
  by rewrite adjust_timestamps_0, IH.
Qed.

Lemma seg_text_adjust total_duration segments :
  map seg_text (map (adjust_timestamps total_duration) segments)
  = map seg_text segments.
Proof. rewrite map_map. by apply map_ext. Qed.

Lemma last_end_adjust total_duration segments :
  segments <> [] ->
  last_end (map (adjust_timestamps total_duration) segments)
  = (last_end segments + total_duration)%Qc.
Proof.
  intros Hne. unfold last_end.
  change (map (adjust_timestamps total_duration) segments)
    with (adjust_timestamps total_duration <$> segments).
  rewrite fmap_last.
  destruct (last segments) as [s|] eqn:Hlast; [done|].
  by apply last_None in Hlast.
Qed.

(** What line 257 adds to the running offset is read after lines 252-254
    have shifted the segments: the old offset is counted once more. *)
Lemma merge_result_offset result all_segments total_duration :
  tr_segments result <> [] ->
  (merge_result result all_segments total_duration).2
  = (total_duration + (last_end (tr_segments result) + total_duration))%Qc.
Proof.
  intros Hne. unfold merge_result. simpl.
  by rewrite <- (last_end_adjust total_duration _ Hne).
Qed.

Lemma merge_result_segments result all_segments total_duration :
  (merge_result result all_segments total_duration).1
  = all_segments ++ map (adjust_timestamps total_duration) (tr_segments result).
Proof. reflexivity. Qed.

Lemma merge_result_no_segments result all_segments total_duration :
  tr_segments result = [] ->
  merge_result result all_segments total_duration = (all_segments, total_duration).
Proof.
  intros Hnil. unfold merge_result. rewrite Hnil. simpl.
  by rewrite Qcplus_0_r, app_nil_r.
Qed.

(** The merged text is the space-joined texts of the merged segments. *)
Lemma merge_chunks_text chunk_files language w merged :
  (merge_chunks ext self chunk_files language w).1 = Returned merged ->
  tr_text merged = Py.join " " (map seg_text (tr_segments merged))
  /\ tr_language merged = language.
Proof.
  rewrite merge_chunks_fold. intros [= <-]. done.
Qed.

Lemma fold_absorb_skips_failures results acc :
  fold_left absorb results acc
  = fold_left absorb (List.filter is_returned results) acc.
Proof.
  revert acc. induction results as [|r rest IH]; intros acc; [done|].
  destruct r as [result|e]; simpl; by rewrite IH.
Qed.

Lemma chunk_results_filter language w chunk_files :
  chunk_results ext self language w
    (List.filter
       (fun chunk_path =>
          is_returned (transcribe_audio ext self chunk_path language w).1)
       chunk_files)
  = List.filter is_returned (chunk_results ext self language w chunk_files).
Proof.
  unfold chunk_results.
  induction chunk_files as [|p rest IH]; simpl; [done|].
  destruct (is_returned (transcribe_audio ext self p language w).1);
    simpl; by rewrite IH.
Qed.

Lemma fold_absorb_all_failed results acc :
  Forall (fun r => is_returned r = false) results ->
  fold_left absorb results acc = acc.
Proof.
  intros Hall. revert acc.
  induction Hall as [|r rest Hr _ IH]; intros acc; [done|].
  destruct r; [discriminate|]. simpl. apply IH.
Qed.

End Merger.

(** ** Order of the merged timestamps *)

Ltac qc_lra :=
  unfold Qcle, Qclt, Qcplus, Qcminus, Qcopp, Q2Qc in *; simpl this in *;
  repeat rewrite !Qred_correct in *; lra.

Section Order.

Lemma non_decreasing_le_last (xs : list Qc) x y :
  non_decreasing xs -> last xs = Some y -> x ∈ xs -> (x ≤ y)%Qc.
Proof.
  intros Hsorted Hlast Hin.
  apply last_Some in Hlast as [front ->].
  apply elem_of_app in Hin as [Hin|Hin].
  - eapply StronglySorted_app_1_elem_of; [exact Hsorted|exact Hin|].
    apply list_elem_of_singleton. reflexivity.
  - apply list_elem_of_singleton in Hin as ->. apply Qcle_refl.
Qed.

Lemma non_decreasing_shift total_duration (xs : list Qc) :
  non_decreasing xs ->
  non_decreasing (map (fun x => (x + total_duration)%Qc) xs).
Proof.
  apply (StronglySorted_fmap (fun x => (x + total_duration)%Qc) Qcle Qcle).
  intros x y Hxy. by apply Qcplus_le_mono_r.
Qed.

Lemma map_start_adjust total_duration segments :
  map seg_start (map (adjust_timestamps total_duration) segments)
  = map (fun x => (x + total_duration)%Qc) (map seg_start segments).
Proof. rewrite !map_map. by apply map_ext. Qed.

Lemma map_end_adjust total_duration segments :
  map seg_end (map (adjust_timestamps total_duration) segments)
  = map (fun x => (x + total_duration)%Qc) (map seg_end segments).
Proof. rewrite !map_map. by apply map_ext. Qed.

Lemma last_seg_start segments last_segment :
  last segments = Some last_segment ->
  last (map seg_start segments) = Some (seg_start last_segment).
Proof.
  intros Hlast. change (map seg_start segments) with (seg_start <$> segments).
  by rewrite fmap_last, Hlast.
Qed.

Lemma last_seg_end segments last_segment :
  last segments = Some last_segment ->
  last (map seg_end segments) = Some (seg_end last_segment).
Proof.
  intros Hlast. change (map seg_end segments) with (seg_end <$> segments).
  by rewrite fmap_last, Hlast.
Qed.

(** The offset after a chunk, in terms of the chunk's own last segment. *)
Lemma merge_result_offset_cases result all_segments total_duration :
  (exists last_segment,
     last (tr_segments result) = Some last_segment
     /\ (merge_result result all_segments total_duration).2
        = (total_duration + (seg_end last_segment + total_duration))%Qc)
  \/ (tr_segments result = []
      /\ (merge_result result all_segments total_duration).2 = total_duration).
Proof.
  destruct (last (tr_segments result)) as [last_segment|] eqn:Hlast.
  - left. exists last_segment. split; [done|].
    rewrite merge_result_offset.
    + unfold last_end. by rewrite Hlast.
    + intros Hnil. by rewrite Hnil in Hlast.
  - right. apply last_None in Hlast. split; [done|].
    by rewrite merge_result_no_segments.
Qed.

(** Merging a transcript whose starts are in order keeps the starts in
    order and below the new offset. *)
Lemma merge_result_starts result acc :
  starts_in_order acc ->
  spans_ok (tr_segments result) ->
  non_decreasing (map seg_start (tr_segments result)) ->
  starts_in_order (merge_result result acc.1 acc.2).
Proof.
  destruct acc as [all_segments total_duration]. simpl.
  intros (Hpos & Hstarts & Hbound) Hspans Hs.
  unfold spans_ok in Hspans. rewrite Forall_forall in Hspans, Hbound.
  unfold starts_in_order. rewrite merge_result_segments.
  assert (Hnew : forall s, s ∈ tr_segments result ->
            (seg_start s + total_duration
             ≤ (merge_result result all_segments total_duration).2)%Qc).
  { intros s Hin.
    destruct (merge_result_offset_cases result all_segments total_duration)
      as [(last_segment & Hlast & ->)|[Hnil _]].
    - assert (seg_start s ≤ seg_start last_segment)%Qc as Hle.
      { apply (non_decreasing_le_last (map seg_start (tr_segments result)));
          [exact Hs|by apply last_seg_start|].
        apply list_elem_of_In, in_map, list_elem_of_In, Hin. }
      destruct (Hspans last_segment) as [H0 H1].
      { apply last_Some in Hlast as [front ->].
        apply elem_of_app. right. by apply list_elem_of_singleton. }
      qc_lra.
    - rewrite Hnil in Hin. by apply elem_of_nil in Hin. }
  assert (Hgrow : (total_duration
                   ≤ (merge_result result all_segments total_duration).2)%Qc).
  { destruct (merge_result_offset_cases result all_segments total_duration)
      as [(last_segment & Hlast & ->)|[_ ->]]; [|apply Qcle_refl].
    destruct (Hspans last_segment) as [H0 H1].
    { apply last_Some in Hlast as [front ->].
      apply elem_of_app. right. by apply list_elem_of_singleton. }
    qc_lra. }
  split; [qc_lra|]. split.
  - rewrite List.map_app, map_start_adjust.
    apply StronglySorted_app_2; [|exact Hstarts|by apply non_decreasing_shift].
    intros x1 x2 Hx1 Hx2.
    apply list_elem_of_In, in_map_iff in Hx1 as (a & <- & Ha).
    apply list_elem_of_In, in_map_iff in Hx2 as (x & <- & Hx).
    apply in_map_iff in Hx as (b & <- & Hb).
    apply list_elem_of_In in Ha, Hb.
    specialize (Hbound a Ha). destruct (Hspans b Hb) as [Hb1 _].
    qc_lra.
  - apply Forall_app. split; apply Forall_forall.
    + intros a Ha. specialize (Hbound a Ha). simpl in Hbound. qc_lra.
    + intros a' Ha'.
      apply list_elem_of_In, in_map_iff in Ha' as (b & <- & Hb).
      apply list_elem_of_In in Hb. apply (Hnew b Hb).
Qed.

(** When its ends are in order too, the ends stay in order and below the
    new offset. *)
Lemma merge_result_ends result acc :
  (0 ≤ acc.2)%Qc ->
  ends_in_order acc ->
  spans_ok (tr_segments result) ->
  non_decreasing (map seg_end (tr_segments result)) ->
  ends_in_order (merge_result result acc.1 acc.2).
Proof.
  destruct acc as [all_segments total_duration]. simpl.
  intros Hpos (Hends & Hbound) Hspans He.
  unfold spans_ok in Hspans. rewrite Forall_forall in Hspans, Hbound.
  unfold ends_in_order. rewrite merge_result_segments.
  assert (Hnew : forall s, s ∈ tr_segments result ->
            (seg_end s + total_duration
             ≤ (merge_result result all_segments total_duration).2)%Qc).
  { intros s Hin.
    destruct (merge_result_offset_cases result all_segments total_duration)
      as [(last_segment & Hlast & ->)|[Hnil _]].
    - assert (seg_end s ≤ seg_end last_segment)%Qc as Hle.
      { apply (non_decreasing_le_last (map seg_end (tr_segments result)));
          [exact He|by apply last_seg_end|].
        apply list_elem_of_In, in_map, list_elem_of_In, Hin. }
      qc_lra.
    - rewrite Hnil in Hin. by apply elem_of_nil in Hin. }
  assert (Hgrow : (total_duration
                   ≤ (merge_result result all_segments total_duration).2)%Qc).
  { destruct (merge_result_offset_cases result all_segments total_duration)
      as [(last_segment & Hlast & ->)|[_ ->]]; [|apply Qcle_refl].
    destruct (Hspans last_segment) as [H0 H1].
    { apply last_Some in Hlast as [front ->].
      apply elem_of_app. right. by apply list_elem_of_singleton. }
    qc_lra. }
  split.
  - rewrite List.map_app, map_end_adjust.
    apply StronglySorted_app_2; [|exact Hends|by apply non_decreasing_shift].
    intros x1 x2 Hx1 Hx2.
    apply list_elem_of_In, in_map_iff in Hx1 as (a & <- & Ha).
    apply list_elem_of_In, in_map_iff in Hx2 as (x & <- & Hx).
    apply in_map_iff in Hx as (b & <- & Hb).
    apply list_elem_of_In in Ha, Hb.
    specialize (Hbound a Ha). destruct (Hspans b Hb) as [Hb1 Hb2].
    simpl in Hbound. qc_lra.
  - apply Forall_app. split; apply Forall_forall.
    + intros a Ha. specialize (Hbound a Ha). simpl in Hbound. qc_lra.
    + intros a' Ha'.
      apply list_elem_of_In, in_map_iff in Ha' as (b & <- & Hb).
      apply list_elem_of_In in Hb. apply (Hnew b Hb).
Qed.

Lemma fold_absorb_starts results acc :
  starts_in_order acc ->
  Forall (fun r => exists t, r = Returned t
                     ∧ spans_ok (tr_segments t)
                     ∧ non_decreasing (map seg_start (tr_segments t))) results ->
  starts_in_order (fold_left absorb results acc).
Proof.
  intros Hacc Hall. revert acc Hacc.
  induction Hall as [|r rest (t & -> & Hspans & Hs) _ IH]; intros acc Hacc.
  - exact Hacc.
  - simpl. apply IH. by apply merge_result_starts.
Qed.

Lemma fold_absorb_ends results acc :
  starts_in_order acc ->
  ends_in_order acc ->
  Forall (fun r => exists t, r = Returned t
                     ∧ spans_ok (tr_segments t)
                     ∧ non_decreasing (map seg_start (tr_segments t))) results ->
  Forall (fun r => forall t, r = Returned t ->
                     non_decreasing (map seg_end (tr_segments t))) results ->
  ends_in_order (fold_left absorb results acc).
Proof.
  intros Hstarts Hends Hall. revert acc Hstarts Hends.
  induction Hall as [|r rest (t & -> & Hspans & Hs) _ IH];
    intros acc Hstarts Hends Hall_ends.
  - exact Hends.
  - apply Forall_cons in Hall_ends as [He Hrest]. simpl. apply IH.
    + by apply merge_result_starts.
    + apply merge_result_ends; [apply Hstarts|exact Hends|exact Hspans|].
      by apply He.
    + exact Hrest.
Qed.

End Order.

(** C5, as it stands, fails.  Both chunks of this run are transcribed, every
    segment has start <= end and each transcript lists its segments by
    non-decreasing start, yet the merged ends go 10, 2, 3: the first
    transcript's second utterance ends before its first one does. *)
Lemma C5_counterexample :
  chunk_results Examples.overlapping Examples.transcriber "zh"
    Examples.three_chunks Examples.two_files
  = [Returned (Examples.heard [Examples.seg 0 10 "a"; Examples.seg 1 2 "b"]);
     Returned (Examples.heard [Examples.seg 0 1 "c"])]
  /\ Forall (fun segments =>
               Forall (fun s => (seg_start s ≤ seg_end s)%Qc) segments
               ∧ non_decreasing (map seg_start segments))
            [[Examples.seg 0 10 "a"; Examples.seg 1 2 "b"];
             [Examples.seg 0 1 "c"]]
  /\ (merge_chunks Examples.overlapping Examples.transcriber Examples.two_files
                   "zh" Examples.three_chunks).1
     = Returned {| tr_text := "a b c";
                   tr_segments := [Examples.seg 0 10 "a"; Examples.seg 1 2 "b";
                                   Examples.seg 2 3 "c"];
                   tr_language := "zh" |}
  /\ ~ non_decreasing
         (map seg_end [Examples.seg 0 10 "a"; Examples.seg 1 2 "b";
                       Examples.seg 2 3 "c"]).
Proof. split_and!; by_evaluation. Qed.

(** C5, amended.  When every chunk of a multi-chunk run is transcribed and
    each transcript's segments have 0 <= start <= end and are listed by
    non-decreasing start, the run returns a merged transcript whose starts
    are non-decreasing; its ends are non-decreasing as well when every
    transcript lists its segments by non-decreasing end. *)
Theorem C5_merged_timestamps_non_decreasing ext self language w chunk_files :
  Forall (fun r => exists t, r = Returned t
                     ∧ spans_ok (tr_segments t)
                     ∧ non_decreasing (map seg_start (tr_segments t)))
         (chunk_results ext self language w chunk_files) ->
  exists merged,
    (merge_chunks ext self chunk_files language w).1 = Returned merged
    ∧ non_decreasing (map seg_start (tr_segments merged))
    ∧ (Forall (fun r => forall t, r = Returned t ->
                          non_decreasing (map seg_end (tr_segments t)))
              (chunk_results ext self language w chunk_files) ->
       non_decreasing (map seg_end (tr_segments merged))).
Proof.
  intros Hall. rewrite merge_chunks_fold. eexists. split; [reflexivity|].
  assert (starts_in_order ([], 0%Qc)) as Hstarts.
  { unfold starts_in_order. simpl. split; [apply Qcle_refl|].
    split; constructor. }
  assert (ends_in_order ([], 0%Qc)) as Hends.
  { unfold ends_in_order. simpl. split; constructor. }
  simpl. split.
  - apply (fold_absorb_starts _ _ Hstarts Hall).
  - intros Hall_ends. apply (fold_absorb_ends _ _ Hstarts Hends Hall Hall_ends).
Qed.

Lemma C5_merged_timestamps_non_decreasing_witness :
  exists merged,
    (merge_chunks Examples.consecutive Examples.transcriber Examples.two_files
                  "zh" Examples.three_chunks).1 = Returned merged
    ∧ non_decreasing (map seg_start (tr_segments merged))
    ∧ non_decreasing (map seg_end (tr_segments merged)).
Proof.
  assert (chunk_results Examples.consecutive Examples.transcriber "zh"
            Examples.three_chunks Examples.two_files
          = [Returned (Examples.heard [Examples.seg 0 4 "a"; Examples.seg 5 9 "b"]);
             Returned (Examples.heard [Examples.seg 1 3 "c"; Examples.seg 3 8 "d"])])
    as Hresults by by_evaluation.
  destruct (C5_merged_timestamps_non_decreasing Examples.consecutive
              Examples.transcriber "zh" Examples.three_chunks Examples.two_files)
    as (merged & Hrun & Hstarts & Hends).
  - rewrite Hresults. repeat constructor.
    + eexists. split; [reflexivity|]. split; by_evaluation.
    + eexists. split; [reflexivity|]. split; by_evaluation.
  - exists merged. split; [exact Hrun|]. split; [exact Hstarts|].
    apply Hends. rewrite Hresults. repeat constructor.
    + intros t [= <-]. by_evaluation.
    + intros t [= <-]. by_evaluation.
Defined.

(** ** Segmentation engine *)

Section Segmentation.

Variable ext : Collaborators.

Lemma len_nonneg audio : 0 <= len audio.
Proof. unfold len. lia. Qed.

Lemma len_audio_slice audio start stop :
  0 <= start <= stop ->
  len (audio_slice audio start stop)
  = Z.min stop (len audio) - Z.min start (len audio).
Proof.
  intros Hrange. unfold audio_slice, len.
  rewrite length_take, length_drop. lia.
Qed.

(** [ceil(total / L)] is the least number of windows of length [L] that
    cover [total]. *)
Lemma window_count total L :
  0 < L -> 0 < total ->
  ((total + L - 1) / L - 1) * L < total <= (total + L - 1) / L * L.
Proof. intros HL Htotal. Z.div_mod_to_equations. nia. Qed.

(** The list comprehension of line 186, for a positive step. *)
Lemma fixed_windows_run audio L :
  0 < L ->
  match py_range 0 (len audio) L with
  | Returned starts =>
      Returned (map (fun i => audio_slice audio i (i + L)) starts)
  | Raised e => Raised e
  end
  = Returned
      (map (fun k => audio_slice audio (Z.of_nat k * L) (Z.of_nat k * L + L))
           (seq 0 (Z.to_nat ((len audio + L - 1) / L)))).
Proof.
  intros HL. unfold py_range.
  destruct (L =? 0) eqn:H0; [lia|].
  destruct (0 <? L) eqn:Hpos; [|lia].
  rewrite map_map, Z.sub_0_r. reflexivity.
Qed.

Lemma concat_windows audio L n :
  0 < L ->
  concat (map (fun k => audio_slice audio (Z.of_nat k * L) (Z.of_nat k * L + L))
              (seq 0 n))
  = take (Z.to_nat (Z.of_nat n * L)) audio.
Proof.
  intros HL. induction n as [|n IH].
  - reflexivity.
  - rewrite seq_S, List.map_app, concat_app, IH. simpl. rewrite app_nil_r.
    unfold audio_slice, len.
    destruct (decide (Z.of_nat n * L <= Z.of_nat (length audio))) as [Hin|Hout].
    + rewrite (Z.min_l (Z.of_nat n * L)) by lia.
      rewrite take_take_drop.
      destruct (decide (Z.of_nat n * L + L <= Z.of_nat (length audio))).
      * f_equal. lia.
      * rewrite !take_ge by lia. reflexivity.
    + rewrite (drop_ge audio) by lia. rewrite take_nil, app_nil_r.
      rewrite !take_ge by lia. reflexivity.
Qed.

Lemma fold_max_gt L xs a :
  L < fold_left Z.max xs a <-> L < a \/ Exists (fun x => L < x) xs.
Proof.
  revert a. induction xs as [|x rest IH]; intros a; simpl.
  - rewrite Exists_nil. tauto.
  - rewrite IH, Exists_cons, Z.max_lt_iff. tauto.
Qed.

(** Line 184: the silence-aware result is rejected when it is empty or one
    of its chunks is longer than the budget. *)
Lemma rejects_iff chunks L :
  bool_decide (chunks = []) || (L <? max_len chunks) = true
  <-> chunks = [] \/ Exists (fun chunk => L < len chunk) chunks.
Proof.
  destruct chunks as [|chunk rest].
  - simpl. rewrite Exists_nil. tauto.
  - unfold max_len. rewrite orb_true_iff, bool_decide_eq_true, Z.ltb_lt.
    rewrite fold_max_gt, Exists_cons.
    change (map len rest) with (len <$> rest). rewrite Exists_fmap.
    intuition congruence.
Qed.

Lemma choose_chunks_fallback audio L min_silence_len silence_thresh keep_silence :
  0 < L ->
  (let chunks :=
     split_on_silence ext audio min_silence_len silence_thresh keep_silence in
   chunks = [] \/ Exists (fun chunk => L < len chunk) chunks) ->
  choose_chunks ext audio L min_silence_len silence_thresh keep_silence
  = Returned
      (map (fun k => audio_slice audio (Z.of_nat k * L) (Z.of_nat k * L + L))
           (seq 0 (Z.to_nat ((len audio + L - 1) / L)))).
Proof.
  intros HL Hrej. apply rejects_iff in Hrej. unfold choose_chunks.
  simpl in Hrej. rewrite Hrej. by apply fixed_windows_run.
Qed.

Lemma choose_chunks_keeps audio L min_silence_len silence_thresh keep_silence :
  (let chunks :=
     split_on_silence ext audio min_silence_len silence_thresh keep_silence in
   ~ (chunks = [] \/ Exists (fun chunk => L < len chunk) chunks)) ->
  choose_chunks ext audio L min_silence_len silence_thresh keep_silence
  = Returned
      (split_on_silence ext audio min_silence_len silence_thresh keep_silence).
Proof.
  intros Hkeep. simpl in Hkeep. rewrite <- rejects_iff in Hkeep.
  unfold choose_chunks. by apply not_true_is_false in Hkeep as ->.
Qed.

(** The shape of the fixed-length split of a clip longer than [L]. *)
Lemma fixed_windows_shape audio L :
  0 < L -> L < len audio ->
  let n := (len audio + L - 1) / L in
  let chunks :=
    map (fun k => audio_slice audio (Z.of_nat k * L) (Z.of_nat k * L + L))
        (seq 0 (Z.to_nat n)) in
  Z.of_nat (length chunks) = n
  /\ (n - 1) * L < len audio <= n * L
  /\ (forall i : nat,
        Z.of_nat i < n ->
        chunks !! i
        = Some (audio_slice audio (Z.of_nat i * L) (Z.of_nat i * L + L)))
  /\ (forall (i : nat) chunk,
        Z.of_nat i < n - 1 -> chunks !! i = Some chunk -> len chunk = L)
  /\ (forall chunk,
        last chunks = Some chunk -> len chunk = len audio - (n - 1) * L)
  /\ concat chunks = audio.
Proof.
  intros HL Hlong n chunks.
  pose proof (window_count (len audio) L HL ltac:(lia)) as Hn. fold n in Hn.
  assert (Hlookup : forall i : nat,
            Z.of_nat i < n ->
            chunks !! i
            = Some (audio_slice audio (Z.of_nat i * L) (Z.of_nat i * L + L))).
  { intros i Hi. unfold chunks.
    change (map ?f ?l) with (f <$> l).
    rewrite list_lookup_fmap, lookup_seq_lt by lia. reflexivity. }
  assert (Hlength : Z.of_nat (length chunks) = n).
  { unfold chunks. rewrite length_map, length_seq. lia. }
  repeat split; try lia; try assumption.
  - intros i chunk Hi Hchunk. rewrite Hlookup in Hchunk by lia.
    injection Hchunk as <-. rewrite len_audio_slice by lia. nia.
  - intros chunk Hlast. rewrite last_lookup in Hlast.
    replace (Nat.pred (length chunks)) with (Z.to_nat (n - 1)) in Hlast by lia.
    rewrite Hlookup in Hlast by lia. injection Hlast as <-.
    rewrite len_audio_slice by lia. rewrite Z2Nat.id by lia. lia.
  - unfold chunks. rewrite concat_windows by lia.
    apply take_ge. unfold len in *. lia.
Qed.

End Segmentation.

(** ** Running [split_audio] and [transcribe_long_audio] *)

Section Runs.

Variable ext : Collaborators.
Variable self : WhisperTranscriber.

Lemma bind_returned {A B} (m : M A) (k : A -> M B) w a w' :
  m w = (Returned a, w') -> (m ≫= k) w = k a w'.
Proof. intros Hm. unfold mbind, M_bind, bind. by rewrite Hm. Qed.

Lemma ensure_dir_run d w :
  exists w',
    ensure_dir d w = (Returned tt, w')
    /\ audio_files w' = audio_files w
    /\ documents w' = documents w
    /\ directories w' = {[ d ]} ∪ directories w.
Proof.
  unfold ensure_dir. destruct (decide (d ∈ directories w)); eexists.
  - split_and!; [reflexivity..|].
    symmetry. apply subseteq_union_1_L. by apply singleton_subseteq_l.
  - by split_and!.
Qed.

Lemma from_file_run path w audio :
  audio_files w !! path = Some audio -> from_file path w = (Returned audio, w).
Proof. intros Hfile. unfold from_file. by rewrite Hfile. Qed.

(** A clip within the budget: lines 170-172. *)
Lemma split_audio_short audio_path output_dir L min_silence_len silence_thresh
    keep_silence w audio :
  audio_files w !! audio_path = Some audio ->
  len audio <= L ->
  exists w',
    split_audio ext audio_path output_dir L min_silence_len silence_thresh
                keep_silence w
    = (Returned [audio_path], w')
    /\ audio_files w' = audio_files w
    /\ documents w' = documents w
    /\ directories w' = {[ output_dir ]} ∪ directories w.
Proof.
  intros Hfile Hshort.
  destruct (ensure_dir_run output_dir w) as (w1 & Hdir & Haudio & Hdocs & Hdirs).
  exists w1. split; [|done]. unfold split_audio.
  rewrite (bind_returned _ _ _ _ _ Hdir).
  rewrite (bind_returned _ _ w1 audio w1)
    by (apply from_file_run; by rewrite Haudio).
  apply Z.leb_le in Hshort. by rewrite Hshort.
Qed.

(** A longer clip: the chosen chunks are exported in order. *)
Lemma split_audio_long audio_path output_dir L min_silence_len silence_thresh
    keep_silence w audio chunks :
  audio_files w !! audio_path = Some audio ->
  L < len audio ->
  choose_chunks ext audio L min_silence_len silence_thresh keep_silence
  = Returned chunks ->
  split_audio ext audio_path output_dir L min_silence_len silence_thresh
              keep_silence w
  = export_chunks ext output_dir
      (os_path_splitext ext (os_path_basename ext audio_path)).1 0 chunks []
      (ensure_dir output_dir w).2.
Proof.
  intros Hfile Hlong Hchunks.
  destruct (ensure_dir_run output_dir w) as (w1 & Hdir & Haudio & Hdocs & _).
  unfold split_audio.
  rewrite (bind_returned _ _ _ _ _ Hdir).
  rewrite (bind_returned _ _ w1 audio w1)
    by (apply from_file_run; by rewrite Haudio).
  apply Z.leb_gt in Hlong. rewrite Hlong, Hchunks, Hdir.
  reflexivity.
Qed.

Lemma export_chunks_run output_dir base_name chunks i chunk_files w :
  exists new_files w',
    export_chunks ext output_dir base_name i chunks chunk_files w
    = (Returned (chunk_files ++ new_files), w')
    /\ length new_files = length chunks
    /\ documents w' = documents w.
Proof.
  revert i chunk_files w.
  induction chunks as [|chunk rest IH]; intros i chunk_files w.
  - exists [], w. simpl. by rewrite app_nil_r.
  - simpl. unfold export at 1.
    erewrite bind_returned by reflexivity.
    edestruct IH as (new_files & w' & -> & Hlen & Hdocs).
    eexists (_ :: new_files), w'. rewrite <- app_assoc. simpl.
    repeat split; [by rewrite Hlen|exact Hdocs].
Qed.

(** When segmentation did not pass the input through, the run is the merge
    of the chunk files (lines 234-271). *)
Lemma transcribe_long_audio_merges audio_path output_dir language w chunk_files w1 :
  split_audio ext audio_path output_dir default_chunk_length_ms
    default_min_silence_len default_silence_thresh default_keep_silence w
  = (Returned chunk_files, w1) ->
  chunk_files <> [audio_path] ->
  transcribe_long_audio ext self audio_path (Some output_dir) language w
  = merge_chunks ext self chunk_files language w1.
Proof.
  intros Hsplit Hmulti. unfold transcribe_long_audio.
  rewrite (bind_returned _ _ w output_dir w) by reflexivity.
  rewrite (bind_returned _ _ _ _ _ Hsplit).
  destruct (bool_decide (length chunk_files = 1%nat)
            && bool_decide (head chunk_files = Some audio_path)) eqn:Htest;
    [|reflexivity].
  apply andb_true_iff in Htest as [Hone Hhead].
  apply bool_decide_eq_true in Hone, Hhead.
  destruct chunk_files as [|only [|? ?]]; simpl in *; try discriminate.
  congruence.
Qed.

End Runs.

(** C1 (the code departs from it).  The eleven-minute
    [Examples.interview] is cut at its two pauses into three chunks, heard
    as the utterances 1-199 s, 1-200 s and 1-199 s of their chunks.  The
    specified merger places them at 1-199, 200-399 and 400-598.
    [transcribe_long_audio] places the third at 599-797, past the end of the
    recording: the offset after the second chunk is 199 + (200 + 199),
    because line 257 reads the last segment's end after lines 252-254 have
    already added the running offset to it.  The merged text is the
    space-joined texts. *)
Theorem C1_third_chunk_is_placed_too_late :
  (transcribe_long_audio Examples.interview_heard Examples.transcriber
     "audio/talk.mp3" None "zh" Examples.newsroom).1
  = Returned {| tr_text := "a b c";
                tr_segments := [Examples.seg 1 199 "a"; Examples.seg 200 399 "b";
                                Examples.seg 599 797 "c"];
                tr_language := "zh" |}
  /\ map (fun chunk => model_transcribe Examples.interview_heard chunk "zh")
         (Examples.three_answers Examples.interview)
     = [Returned (Examples.heard [Examples.seg 1 199 "a"]);
        Returned (Examples.heard [Examples.seg 1 200 "b"]);
        Returned (Examples.heard [Examples.seg 1 199 "c"])]
  /\ spec_merge 0 [Examples.heard [Examples.seg 1 199 "a"];
                   Examples.heard [Examples.seg 1 200 "b"];
                   Examples.heard [Examples.seg 1 199 "c"]]
     = [Examples.seg 1 199 "a"; Examples.seg 200 399 "b"; Examples.seg 400 598 "c"]
  /\ len Examples.interview = 660000.
Proof. split_and!; by_evaluation. Qed.

(** C2.  In the multi-chunk path a chunk whose recognition raises is
    skipped: the run never raises, its result is the one of the run over
    the successful chunks alone, a run whose chunks all fail returns the
    empty transcript, and when only the second of three chunks fails the
    result holds the first chunk's segments as they were heard, followed by
    the third's with the end of the first chunk's last segment added to
    every start and end.  [transcribe_long_audio] is that merge whenever
    segmentation did not pass the input through. *)
Theorem C2_failed_chunks_are_skipped ext self language w chunk_files :
  (exists merged,
     (merge_chunks ext self chunk_files language w).1 = Returned merged)
  /\ (merge_chunks ext self chunk_files language w).1
     = (merge_chunks ext self
          (List.filter
             (fun chunk_path =>
                is_returned (transcribe_audio ext self chunk_path language w).1)
             chunk_files)
          language w).1
  /\ (Forall (fun r => is_returned r = false)
             (chunk_results ext self language w chunk_files) ->
      (merge_chunks ext self chunk_files language w).1
      = Returned {| tr_text := ""; tr_segments := []; tr_language := language |})
  /\ (forall t1 e t3,
        chunk_results ext self language w chunk_files
        = [Returned t1; Raised e; Returned t3] ->
        (merge_chunks ext self chunk_files language w).1
        = Returned
            {| tr_text :=
                 Py.join " " (map seg_text (tr_segments t1 ++ tr_segments t3));
               tr_segments :=
                 tr_segments t1
                 ++ map (fun segment =>
                           {| seg_start :=
                                seg_start segment + last_end (tr_segments t1);
                              seg_end :=
                                seg_end segment + last_end (tr_segments t1);
                              seg_text := seg_text segment |})
                        (tr_segments t3);
               tr_language := language |})
  /\ (forall audio_path output_dir w0,
        split_audio ext audio_path output_dir default_chunk_length_ms
          default_min_silence_len default_silence_thresh default_keep_silence w0
        = (Returned chunk_files, w) ->
        chunk_files <> [audio_path] ->
        transcribe_long_audio ext self audio_path (Some output_dir) language w0
        = merge_chunks ext self chunk_files language w).
Proof.
  split_and!; try rewrite !merge_chunks_fold.
  - by eexists.
  - by rewrite chunk_results_filter, <- fold_absorb_skips_failures.
  - intros Hall. by rewrite (fold_absorb_all_failed _ _ Hall).
  - intros t1 e t3 ->. simpl. unfold merge_result. simpl.
    rewrite !Qcplus_0_l, map_adjust_timestamps_0.
    fold (last_end (tr_segments t1)).
    by rewrite !List.map_app, seg_text_adjust.
  - intros audio_path output_dir w0. apply transcribe_long_audio_merges.
Qed.

Lemma C2_failed_chunks_are_skipped_witness :
  (merge_chunks Examples.second_fails Examples.transcriber Examples.three_files
                "zh" Examples.three_chunks).1
  = Returned
      {| tr_text := "a b c";
         tr_segments :=
           [Examples.seg 0 4 "a"; Examples.seg 5 9 "b"; Examples.seg 10 12 "c"];
         tr_language := "zh" |}
  /\ (merge_chunks Examples.none_heard Examples.transcriber Examples.three_files
                   "zh" Examples.three_chunks).1
     = Returned {| tr_text := ""; tr_segments := []; tr_language := "zh" |}.
Proof.
  split.
  - rewrite (proj1 (proj2 (proj2 (proj2
      (C2_failed_chunks_are_skipped Examples.second_fails Examples.transcriber
         "zh" Examples.three_chunks Examples.three_files))))
      (Examples.heard [Examples.seg 0 4 "a"; Examples.seg 5 9 "b"])
      (RecognitionError "decoder error")
      (Examples.heard [Examples.seg 1 3 "c"])
      ltac:(vm_compute; reflexivity)).
    by_evaluation.
  - apply (proj1 (proj2 (proj2
      (C2_failed_chunks_are_skipped Examples.none_heard Examples.transcriber
         "zh" Examples.three_chunks Examples.three_files)))).
    vm_compute. repeat constructor.
Defined.

(** C3.  For a clip longer than a positive budget [L], the silence-aware
    result is replaced exactly when it is empty or has a chunk longer than
    [L]; the replacement consists of ceil(len / L) windows, the i-th
    (counting from 0) being [audio[i*L : i*L + L]], every window but the last
    of length [L], and the windows concatenate to the clip.  A 12-minute
    clip whose silence-aware result is one 12-minute chunk is cut, for
    [L] = 10 minutes, into a 10-minute and a 2-minute chunk. *)
Theorem C3_fixed_length_fallback ext audio L min_silence_len silence_thresh
    keep_silence :
  0 < L -> L < len audio ->
  let silent :=
    split_on_silence ext audio min_silence_len silence_thresh keep_silence in
  let n := (len audio + L - 1) / L in
  ((silent = [] \/ Exists (fun chunk => L < len chunk) silent) ->
   exists chunks,
     choose_chunks ext audio L min_silence_len silence_thresh keep_silence
     = Returned chunks
     /\ Z.of_nat (length chunks) = n
     /\ (n - 1) * L < len audio <= n * L
     /\ (forall i : nat,
           Z.of_nat i < n ->
           chunks !! i
           = Some (audio_slice audio (Z.of_nat i * L) (Z.of_nat i * L + L)))
     /\ (forall (i : nat) chunk,
           Z.of_nat i < n - 1 -> chunks !! i = Some chunk -> len chunk = L)
     /\ (forall chunk,
           last chunks = Some chunk -> len chunk = len audio - (n - 1) * L)
     /\ concat chunks = audio)
  /\ (~ (silent = [] \/ Exists (fun chunk => L < len chunk) silent) ->
      choose_chunks ext audio L min_silence_len silence_thresh keep_silence
      = Returned silent)
  /\ (L = 600000 -> len audio = 720000 ->
      (exists chunk, silent = [chunk] /\ len chunk = 720000) ->
      exists first second,
        choose_chunks ext audio L min_silence_len silence_thresh keep_silence
        = Returned [first; second]
        /\ len first = 600000 /\ len second = 120000).
Proof.
  intros HL Hlong silent n. repeat split.
  - intros Hrej. eexists. split.
    + by apply choose_chunks_fallback.
    + by apply fixed_windows_shape.
  - intros Hkeep. by apply choose_chunks_keeps.
  - intros -> Hlen (chunk & Hsilent & Hchunk).
    rewrite choose_chunks_fallback; [|lia|].
    + rewrite Hlen. do 2 eexists. split; [reflexivity|].
      rewrite !len_audio_slice by lia. lia.
    + right. fold silent. rewrite Hsilent. apply Exists_cons. left. lia.
Qed.

Lemma C3_fixed_length_fallback_witness :
  (exists chunks,
     choose_chunks Examples.all_heard [1; 2; 3; 4; 5] 2 1000 (-40) 500
     = Returned chunks
     /\ Z.of_nat (length chunks) = 3
     /\ concat chunks = [1; 2; 3; 4; 5])
  /\ (exists first second,
        choose_chunks Examples.all_heard (replicate (Z.to_nat 720000) 1)
                      600000 1000 (-40) 500
        = Returned [first; second]
        /\ len first = 600000 /\ len second = 120000).
Proof.
  split.
  - destruct (C3_fixed_length_fallback Examples.all_heard [1; 2; 3; 4; 5] 2
                1000 (-40) 500 ltac:(lia) ltac:(vm_compute; reflexivity))
      as [Hfallback _].
    destruct Hfallback as (chunks & Hrun & Hcount & _ & _ & _ & _ & Hconcat).
    { right. apply Exists_cons. left. vm_compute. reflexivity. }
    exists chunks. repeat split; assumption.
  - destruct (C3_fixed_length_fallback Examples.all_heard
                (replicate (Z.to_nat 720000) 1) 600000 1000 (-40) 500
                ltac:(lia) ltac:(vm_compute; reflexivity))
      as (_ & _ & Htwelve).
    apply Htwelve; [reflexivity|vm_compute; reflexivity|].
    eexists. split; [reflexivity|vm_compute; reflexivity].
Defined.

(** C4.  A clip no longer than the budget (equality included) is not split:
    [split_audio] returns the input path alone and writes neither an audio
    file nor a document (it only makes sure the output directory exists),
    and [transcribe_long_audio] then returns exactly what [transcribe_audio]
    yields for the input, without merging. *)
Theorem C4_short_clip_passes_through ext self audio_path language w audio :
  audio_files w !! audio_path = Some audio ->
  (forall output_dir L min_silence_len silence_thresh keep_silence,
     len audio <= L ->
     exists w',
       split_audio ext audio_path output_dir L min_silence_len silence_thresh
                   keep_silence w
       = (Returned [audio_path], w')
       /\ audio_files w' = audio_files w
       /\ documents w' = documents w
       /\ directories w' = {[ output_dir ]} ∪ directories w)
  /\ (forall output_dir,
        len audio <= default_chunk_length_ms ->
        exists w' d,
          transcribe_long_audio ext self audio_path output_dir language w
          = ((transcribe_audio ext self audio_path language w).1, w')
          /\ audio_files w' = audio_files w
          /\ documents w' = documents w
          /\ directories w' = {[ d ]} ∪ directories w).
Proof.
  intros Hfile. split.
  - intros. by eapply split_audio_short.
  - intros output_dir Hshort. unfold transcribe_long_audio.
    assert (exists d w0,
              (match output_dir with
               | Some output_dir => mret output_dir
               | None =>
                   ensure_dir
                     (os_path_join ext (os_path_dirname ext audio_path)
                        (os_path_splitext ext (os_path_basename ext audio_path)).1);;
                   mret
                     (os_path_join ext (os_path_dirname ext audio_path)
                        (os_path_splitext ext (os_path_basename ext audio_path)).1)
               end : M string) w = (Returned d, w0)
              /\ audio_files w0 = audio_files w
              /\ documents w0 = documents w
              /\ {[ d ]} ∪ directories w0 = {[ d ]} ∪ directories w)
      as (d & w0 & Hdir & Haudio & Hdocs & Hdirs).
    { destruct output_dir as [d|].
      - by exists d, w.
      - edestruct ensure_dir_run as (w0 & Hrun & ? & ? & Hd).
        do 2 eexists. split; [by rewrite (bind_returned _ _ _ _ _ Hrun)|].
        split_and!; [done..|].
        by rewrite Hd, (assoc_L (∪)), (idemp_L (∪)). }
    rewrite (bind_returned _ _ _ _ _ Hdir).
    destruct (split_audio_short ext audio_path d default_chunk_length_ms
                default_min_silence_len default_silence_thresh
                default_keep_silence w0 audio)
      as (w1 & Hsplit & Haudio1 & Hdocs1 & Hdirs1);
      [by rewrite Haudio|exact Hshort|].
    rewrite (bind_returned _ _ _ _ _ Hsplit). simpl.
    rewrite !bool_decide_eq_true_2 by reflexivity. simpl.
    exists w1, d. split; [|split_and!; congruence].
    rewrite (surjective_pairing (transcribe_audio ext self audio_path language w1)).
    rewrite transcribe_audio_store. f_equal.
    apply transcribe_audio_reads_audio. congruence.
Qed.

Lemma C4_short_clip_passes_through_witness :
  exists w',
    transcribe_long_audio Examples.all_heard Examples.transcriber
      "ep/ep_001.mp3" None "zh" Examples.three_chunks
    = (Returned (Examples.heard [Examples.seg 0 10 "a"]), w')
    /\ audio_files w' = audio_files Examples.three_chunks
    /\ documents w' = documents Examples.three_chunks.
Proof.
  destruct (C4_short_clip_passes_through Examples.all_heard Examples.transcriber
              "ep/ep_001.mp3" "zh" Examples.three_chunks (Examples.clip 1)
              ltac:(vm_compute; reflexivity)) as [_ Hlong].
  destruct (Hlong None ltac:(vm_compute; discriminate))
    as (w' & d & Hrun & Hfiles & Hdocs & _).
  exists w'. split; [|by split]. rewrite Hrun. f_equal.
Defined.

(** ** Script normalisation *)

(** C9.  With normalisation enabled, the recogniser's text and every
    segment's text go through the converter when the requested language is
    ["zh"]; for any other language the recogniser's result is returned as it
    is. *)
Theorem C9_normalisation_only_for_zh ext self audio_path language w audio result :
  to_simplified self = true ->
  audio_files w !! audio_path = Some audio ->
  model_transcribe ext audio language = Returned result ->
  (language = "zh" ->
   (transcribe_audio ext self audio_path language w).1
   = Returned
       {| tr_text := converter_convert ext (tr_text result);
          tr_segments :=
            map (fun s => {| seg_start := seg_start s;
                             seg_end := seg_end s;
                             seg_text := converter_convert ext (seg_text s) |})
                (tr_segments result);
          tr_language := tr_language result |})
  /\ (language <> "zh" ->
      (transcribe_audio ext self audio_path language w).1 = Returned result).
Proof.
  intros Hon Hfile Hheard.
  unfold transcribe_audio.
  rewrite (bind_returned _ _ w audio w) by (by apply from_file_run).
  rewrite (bind_returned _ _ w result w) by (unfold lift; by rewrite Hheard).
  rewrite Hon. simpl. split.
  - intros ->. rewrite bool_decide_eq_true_2 by reflexivity.
    unfold convert_segment, convert_to_simplified. by rewrite Hon.
  - intros Hother. by rewrite bool_decide_eq_false_2.
Qed.

Lemma C9_normalisation_only_for_zh_witness :
  (transcribe_audio Examples.traditional Examples.transcriber "ep/ep_001.mp3"
                    "zh" Examples.three_chunks).1
  = Returned {| tr_text := "书";
                tr_segments := [{| seg_start := 0; seg_end := Qc_of_Z 1;
                                   seg_text := "书" |}];
                tr_language := "zh" |}
  /\ (transcribe_audio Examples.traditional Examples.transcriber "ep/ep_001.mp3"
                       "ja" Examples.three_chunks).1
     = Returned {| tr_text := "書";
                   tr_segments := [{| seg_start := 0; seg_end := Qc_of_Z 1;
                                      seg_text := "書" |}];
                   tr_language := "ja" |}.
Proof.
  split.
  - apply (proj1 (C9_normalisation_only_for_zh Examples.traditional
             Examples.transcriber "ep/ep_001.mp3" "zh" Examples.three_chunks
             (Examples.clip 1) _ eq_refl ltac:(vm_compute; reflexivity) eq_refl)).
    reflexivity.
  - apply (proj2 (C9_normalisation_only_for_zh Examples.traditional
             Examples.transcriber "ep/ep_001.mp3" "ja" Examples.three_chunks
             (Examples.clip 1) _ eq_refl ltac:(vm_compute; reflexivity) eq_refl)).
    discriminate.
Defined.

(** ** Document renderer *)

Section Renderer.

Variable ext : Collaborators.

Lemma append_assoc (a b c : string) : (a +:+ b) +:+ c = a +:+ b +:+ c.
Proof.
  induction a as [|ch a IH]; [done|].
  change (String ch ((a +:+ b) +:+ c) = String ch (a +:+ b +:+ c)).
  by rewrite IH.
Qed.

Lemma max_time_value : max_time = Qc_of_Z 36000.
Proof. reflexivity. Qed.

Lemma clamp_le t : (clamp t ≤ Qc_of_Z 36000)%Qc.
Proof.
  unfold clamp, Py.min. rewrite max_time_value.
  destruct (decide (Qc_of_Z 36000 < t)%Qc) as [Hlt|Hge].
  - apply Qcle_refl.
  - by apply Qcnot_lt_le.
Qed.

(** Clamping at 36000 s does not move a time across the one-hour mark. *)
Lemma clamp_hour t : (Qc_of_Z 3600 ≤ clamp t)%Qc <-> (Qc_of_Z 3600 ≤ t)%Qc.
Proof.
  unfold clamp, Py.min. rewrite max_time_value.
  assert (Qc_of_Z 3600 ≤ Qc_of_Z 36000)%Qc as Hc
    by (apply (bool_decide_unpack _); vm_compute; exact I).
  destruct (decide (Qc_of_Z 36000 < t)%Qc) as [Hlt|Hge]; [|done].
  split; intros _; [|exact Hc].
  eapply Qcle_trans; [exact Hc|]. by apply Qclt_le_weak.
Qed.

Lemma format_times_long segment :
  (Qc_of_Z 3600 ≤ seg_start segment)%Qc \/ (Qc_of_Z 3600 ≤ seg_end segment)%Qc ->
  format_times segment
  = (hh_mm_ss (clamp (seg_start segment)), hh_mm_ss (clamp (seg_end segment))).
Proof.
  intros Hlong. unfold format_times.
  fold (clamp (seg_start segment)). fold (clamp (seg_end segment)).
  rewrite <- (clamp_hour (seg_start segment)),
          <- (clamp_hour (seg_end segment)) in Hlong.
  destruct (bool_decide _ || bool_decide _) eqn:Htest; [reflexivity|].
  apply orb_false_iff in Htest as [H1 H2].
  apply bool_decide_eq_false in H1, H2. tauto.
Qed.

Lemma format_times_short segment :
  ~ ((Qc_of_Z 3600 ≤ seg_start segment)%Qc \/ (Qc_of_Z 3600 ≤ seg_end segment)%Qc) ->
  format_times segment
  = (mm_ss (clamp (seg_start segment)), mm_ss (clamp (seg_end segment))).
Proof.
  intros Hshort. unfold format_times.
  fold (clamp (seg_start segment)). fold (clamp (seg_end segment)).
  rewrite <- (clamp_hour (seg_start segment)),
          <- (clamp_hour (seg_end segment)) in Hshort.
  destruct (bool_decide _ || bool_decide _) eqn:Htest; [|reflexivity].
  apply orb_true_iff in Htest as [H|H]; apply bool_decide_eq_true in H; tauto.
Qed.

Lemma duration_str_hms_text last_end :
  duration_str last_end = hms_text (clamp last_end).
Proof.
  unfold duration_str, hms_text. fold (clamp last_end).
  destruct (0 <? Py.int (clamp last_end / Qc_of_Z 3600)).
  - by rewrite append_assoc.
  - reflexivity.
Qed.

Lemma append_nil_r (s : string) : s +:+ "" = s.
Proof.
  induction s as [|c s IH]; [done|].
  change (String c (s +:+ "") = String c s). by rewrite IH.
Qed.

Lemma concat_cons (x : string) (xs : list string) :
  String.concat "" (x :: xs) = x +:+ String.concat "" xs.
Proof. destruct xs; simpl; [by rewrite append_nil_r|reflexivity]. Qed.

(** The loop writes one line per segment, in order, and nothing else. *)
Lemma write_segments_run segments r :
  write_segments ext segments r
  = (tt, {| transcript_object := transcript_object r;
            written :=
              written r +:+ String.concat "" (map (segment_line ext) segments) |}).
Proof.
  revert r. induction segments as [|segment rest IH]; intros r.
  - simpl. rewrite append_nil_r. by destruct r.
  - change (write_segments ext (segment :: rest) r)
      with (write_segments ext rest (f_write (segment_line ext segment) r).2).
    rewrite IH. unfold f_write. cbn [snd transcript_object written map].
    by rewrite concat_cons, append_assoc.
Qed.

(** The writes add up to [render_markdown]; they are appended to what the
    file holds, and the dictionary is left as it was handed over. *)
Lemma write_document_run r :
  write_document ext r
  = (tt, {| transcript_object := transcript_object r;
            written := written r +:+ render_markdown ext (transcript_object r) |}).
Proof.
  destruct r as [transcript file].
  unfold render_markdown, metadata_block, timestamped_listing.
  cbv [transcript_object written].
  destruct (get_segments transcript) as [[|segment rest]|] eqn:Hsegments.
  - do 2 (cbv [write_document mbind Render_bind read f_write mret Render_ret
               fst snd transcript_object written];
          rewrite ?Hsegments; simpl (last [])).
    by rewrite !append_assoc.
  - destruct (last (segment :: rest)) as [last_segment|] eqn:Hlast;
      [|by apply last_None in Hlast].
    do 2 (cbv [write_document mbind Render_bind read f_write mret Render_ret
               fst snd transcript_object written];
          rewrite ?Hsegments, ?Hlast).
    cbv [mbind Render_bind f_write fst snd transcript_object written].
    rewrite write_segments_run.
    cbv [transcript_object written].
    by rewrite !append_assoc.
  - do 2 (cbv [write_document mbind Render_bind read f_write mret Render_ret
               fst snd transcript_object written];
          rewrite ?Hsegments).
    by rewrite !append_assoc.
Qed.

Lemma save_transcript_to_markdown_run transcript output_path w :
  save_transcript_to_markdown ext transcript output_path w
  = (Returned tt,
     {| audio_files := audio_files w;
        documents := <[ output_path := render_markdown ext transcript ]> (documents w);
        directories := directories w |}).
Proof.
  unfold save_transcript_to_markdown. by rewrite write_document_run.
Qed.

End Renderer.

(** ** The shape of rendered timestamps *)

Section Shape.

Lemma string_length_append (a b : string) :
  String.length (a +:+ b) = (String.length a + String.length b)%nat.
Proof.
  induction a as [|ch a IH]; [done|].
  change (S (String.length (a +:+ b)) = S (String.length a + String.length b)).
  by rewrite IH.
Qed.

(** Two digits for every value from 0 to 99. *)
Lemma format_0d_2_length n :
  0 <= n < 100 -> String.length (Py.format_0d 2 n) = 2%nat.
Proof.
  assert (forall k : nat,
            (k < 100)%nat ->
            String.length (Py.format_0d 2 (Z.of_nat k)) = 2%nat) as Hall.
  { intros k Hk.
    do 100 (destruct k as [|k]; [vm_compute; reflexivity|]). lia. }
  intros Hn. rewrite <- (Z2Nat.id n) by lia. apply Hall. lia.
Qed.

Lemma floor_bounds (x : Q) :
  (inject_Z (Qfloor x) <= x)%Q /\ (x < inject_Z (Qfloor x) + 1)%Q.
Proof.
  split; [apply Qfloor_le|].
  pose proof (Qlt_floor x) as H. rewrite inject_Z_plus in H. exact H.
Qed.

(** [int()] of a non-negative time below an integer bound. *)
Lemma py_int_bounds (x : Qc) (k : Z) :
  (0 ≤ x)%Qc -> (x < Qc_of_Z k)%Qc -> 0 <= Py.int x < k.
Proof.
  intros H0 Hk. unfold Py.int. destruct (decide (0 ≤ x)%Qc); [|done].
  destruct (floor_bounds x) as [Hlo Hhi].
  unfold Qcle, Qclt in *. simpl in *.
  split.
  - apply (Qfloor_resp_le 0 x) in H0. exact H0.
  - rewrite Zlt_Qlt. lra.
Qed.

Lemma py_int_le (x : Qc) (k : Z) :
  (0 ≤ x)%Qc -> (x ≤ Qc_of_Z k)%Qc -> 0 <= Py.int x <= k.
Proof.
  intros H0 Hk. unfold Py.int. destruct (decide (0 ≤ x)%Qc); [|done].
  unfold Qcle in *. simpl in *. split.
  - apply (Qfloor_resp_le 0 x) in H0. exact H0.
  - apply (Qfloor_resp_le x (inject_Z k)) in Hk. by rewrite Qfloor_Z in Hk.
Qed.

Ltac to_Q :=
  unfold Qcle, Qclt, Qcdiv, Qcmult, Qcinv, Qcplus, Qcminus, Qcopp, Q2Qc,
    Qc_of_Z in *;
  simpl this in *;
  repeat rewrite !Qred_correct in *.

Lemma div_3600_bounds (t : Qc) :
  (0 ≤ t)%Qc -> (t ≤ Qc_of_Z 36000)%Qc ->
  (0 ≤ t / Qc_of_Z 3600)%Qc /\ (t / Qc_of_Z 3600 ≤ Qc_of_Z 10)%Qc.
Proof.
  intros H0 H1. to_Q.
  change (/ inject_Z 3600)%Q with (1 # 3600)%Q.
  change (inject_Z 36000) with (36000 # 1)%Q in H1.
  change (inject_Z 10) with (10 # 1)%Q.
  split; lra.
Qed.

Lemma div_60_bounds (t : Qc) :
  (0 ≤ t)%Qc -> (t < Qc_of_Z 3600)%Qc ->
  (0 ≤ t / Qc_of_Z 60)%Qc /\ (t / Qc_of_Z 60 < Qc_of_Z 60)%Qc.
Proof.
  intros H0 H1. to_Q.
  change (/ inject_Z 60)%Q with (1 # 60)%Q.
  change (inject_Z 3600) with (3600 # 1)%Q in H1.
  change (inject_Z 60) with (60 # 1)%Q.
  split; lra.
Qed.

Lemma mod_3600_bounds (t : Qc) :
  (0 ≤ Py.mod_ t (Qc_of_Z 3600))%Qc /\ (Py.mod_ t (Qc_of_Z 3600) < Qc_of_Z 3600)%Qc.
Proof.
  unfold Py.mod_.
  match goal with
  | |- context [Qfloor ?e] =>
      destruct (floor_bounds e) as [Hlo Hhi];
      remember (Qfloor e) as q eqn:Hq; clear Hq
  end.
  to_Q. unfold Qdiv in *.
  change (/ inject_Z 3600)%Q with (1 # 3600)%Q in *.
  change (inject_Z 3600) with (3600 # 1)%Q.
  split; lra.
Qed.

Lemma mod_60_bounds (t : Qc) :
  (0 ≤ Py.mod_ t (Qc_of_Z 60))%Qc /\ (Py.mod_ t (Qc_of_Z 60) < Qc_of_Z 60)%Qc.
Proof.
  unfold Py.mod_.
  match goal with
  | |- context [Qfloor ?e] =>
      destruct (floor_bounds e) as [Hlo Hhi];
      remember (Qfloor e) as q eqn:Hq; clear Hq
  end.
  to_Q. unfold Qdiv in *.
  change (/ inject_Z 60)%Q with (1 # 60)%Q in *.
  change (inject_Z 60) with (60 # 1)%Q.
  split; lra.
Qed.

Lemma clamp_nonneg (t : Qc) : (0 ≤ t)%Qc -> (0 ≤ clamp t)%Qc.
Proof.
  intros H0. unfold clamp, Py.min.
  destruct (decide (max_time < t)%Qc); [|exact H0].
  by_evaluation.
Qed.

(** The long form of a time between 0 and ten hours is eight characters. *)
Lemma hh_mm_ss_length (t : Qc) :
  (0 ≤ t)%Qc -> (t ≤ Qc_of_Z 36000)%Qc -> String.length (hh_mm_ss t) = 8%nat.
Proof.
  intros H0 H1. unfold hh_mm_ss. rewrite !string_length_append.
  destruct (div_3600_bounds t H0 H1) as [Hh0 Hh1].
  destruct (mod_3600_bounds t) as [Hm0 Hm1].
  destruct (div_60_bounds _ Hm0 Hm1) as [Hd0 Hd1].
  destruct (mod_60_bounds t) as [Hs0 Hs1].
  pose proof (py_int_le _ 10 Hh0 Hh1).
  pose proof (py_int_bounds _ 60 Hd0 Hd1).
  pose proof (py_int_bounds _ 60 Hs0 Hs1).
  rewrite !format_0d_2_length by lia. reflexivity.
Qed.

(** The short form of a time between 0 and one hour is five characters. *)
Lemma mm_ss_length (t : Qc) :
  (0 ≤ t)%Qc -> (t < Qc_of_Z 3600)%Qc -> String.length (mm_ss t) = 5%nat.
Proof.
  intros H0 H1. unfold mm_ss. rewrite !string_length_append.
  destruct (div_60_bounds t H0 H1) as [Hd0 Hd1].
  destruct (mod_60_bounds t) as [Hs0 Hs1].
  pose proof (py_int_bounds _ 60 Hd0 Hd1).
  pose proof (py_int_bounds _ 60 Hs0 Hs1).
  rewrite !format_0d_2_length by lia. reflexivity.
Qed.

Lemma format_times_shape segment :
  (0 ≤ seg_start segment)%Qc -> (0 ≤ seg_end segment)%Qc ->
  ((Qc_of_Z 3600 ≤ seg_start segment)%Qc \/ (Qc_of_Z 3600 ≤ seg_end segment)%Qc ->
   String.length (format_times segment).1 = 8%nat
   /\ String.length (format_times segment).2 = 8%nat)
  /\ (~ ((Qc_of_Z 3600 ≤ seg_start segment)%Qc
         \/ (Qc_of_Z 3600 ≤ seg_end segment)%Qc) ->
      String.length (format_times segment).1 = 5%nat
      /\ String.length (format_times segment).2 = 5%nat).
Proof.
  intros Hs He. split.
  - intros Hlong. rewrite (format_times_long _ Hlong). simpl.
    split; apply hh_mm_ss_length; auto using clamp_nonneg, clamp_le.
  - intros Hshort. rewrite (format_times_short _ Hshort). simpl.
    split; apply mm_ss_length; auto using clamp_nonneg;
      apply Qcnot_le_lt; rewrite clamp_hour; tauto.
Qed.

End Shape.

(** The whole pipeline on [Examples.lecture]: the second chunk's utterance,
    heard from 1 s to 299 s of its chunk, is placed from 299 s to 597 s. *)
Lemma lecture_run :
  (transcribe_long_audio Examples.lecture_heard Examples.transcriber
     "audio/ep.mp3" None "zh" Examples.studio).1
  = Returned {| tr_text := "a b";
                tr_segments := [Examples.seg 2 298 "a"; Examples.seg 299 597 "b"];
                tr_language := "zh" |}.
Proof. by_evaluation. Qed.

(** C6.  Each endpoint of a segment is clamped to 36000 s on its own; the
    pair is rendered in the long form when either endpoint is at least
    3600 s and in the short form otherwise, both endpoints in the same form:
    for non-negative times, eight characters each in the long form and five
    each in the short one.  An end of 40000 s is rendered as 10:00:00, and
    the segment 3599-3601 as 00:59:59-01:00:01.  This is what the document
    holds: the listing that [save_transcript_to_markdown] writes has one
    line per segment, in order, each with the segment's two rendered
    endpoints and its text, and the document ends with that listing. *)
Theorem C6_segment_timestamps ext segment :
  let start_time := clamp (seg_start segment) in
  let end_time := clamp (seg_end segment) in
  ((start_time ≤ Qc_of_Z 36000)%Qc /\ (end_time ≤ Qc_of_Z 36000)%Qc)
  /\ ((Qc_of_Z 3600 ≤ seg_start segment)%Qc \/ (Qc_of_Z 3600 ≤ seg_end segment)%Qc ->
      format_times segment = (hh_mm_ss start_time, hh_mm_ss end_time))
  /\ (~ ((Qc_of_Z 3600 ≤ seg_start segment)%Qc
         \/ (Qc_of_Z 3600 ≤ seg_end segment)%Qc) ->
      format_times segment = (mm_ss start_time, mm_ss end_time))
  /\ segment_line ext segment
     = "**[" +:+ (format_times segment).1 +:+ "-" +:+ (format_times segment).2
       +:+ "]** " +:+ strip ext (seg_text segment) +:+ Py.nl +:+ Py.nl
  /\ ((0 ≤ seg_start segment)%Qc -> (0 ≤ seg_end segment)%Qc ->
      ((Qc_of_Z 3600 ≤ seg_start segment)%Qc
       \/ (Qc_of_Z 3600 ≤ seg_end segment)%Qc ->
       String.length (format_times segment).1 = 8%nat
       /\ String.length (format_times segment).2 = 8%nat)
      /\ (~ ((Qc_of_Z 3600 ≤ seg_start segment)%Qc
             \/ (Qc_of_Z 3600 ≤ seg_end segment)%Qc) ->
          String.length (format_times segment).1 = 5%nat
          /\ String.length (format_times segment).2 = 5%nat))
  /\ (forall start text,
        (format_times {| seg_start := start; seg_end := Qc_of_Z 40000;
                         seg_text := text |}).2 = "10:00:00")
  /\ (forall text,
        format_times {| seg_start := Qc_of_Z 3599; seg_end := Qc_of_Z 3601;
                        seg_text := text |}
        = ("00:59:59", "01:00:01"))
  /\ (forall transcript first others output_path w,
        get_segments transcript = Some (first :: others) ->
        let listing :=
          "## 带时间戳的分段文本" +:+ Py.nl +:+ Py.nl
          +:+ String.concat ""
                (map (fun s =>
                        "**[" +:+ (format_times s).1 +:+ "-"
                        +:+ (format_times s).2 +:+ "]** "
                        +:+ strip ext (seg_text s) +:+ Py.nl +:+ Py.nl)
                     (first :: others)) in
        timestamped_listing ext transcript = listing
        /\ documents
             (save_transcript_to_markdown ext transcript output_path w).2
           !! output_path
           = Some ("# 音频转录" +:+ Py.nl +:+ Py.nl
                   +:+ metadata_block transcript
                   +:+ "## 完整转录文本" +:+ Py.nl +:+ Py.nl
                   +:+ strip ext (default "" (get_text transcript))
                   +:+ Py.nl +:+ Py.nl
                   +:+ listing))
  /\ (forall output_path w,
        documents
          (save_transcript_to_markdown Examples.all_heard
             (as_dict (Examples.heard [Examples.seg 3599 3601 "x";
                                       Examples.seg 0 40000 "y";
                                       Examples.seg 61 125 "z"]))
             output_path w).2
        !! output_path
        = Some (text_lines
                  ["# 音频转录"; "";
                   "## 音频信息"; "";
                   "- 语言: zh";
                   "- 时长: 2分钟5秒"; "";
                   "## 完整转录文本"; "";
                   "xyz"; "";
                   "## 带时间戳的分段文本"; "";
                   "**[00:59:59-01:00:01]** x"; "";
                   "**[00:00:00-10:00:00]** y"; "";
                   "**[01:01-02:05]** z"; ""])).
Proof.
  intros start_time end_time.
  assert (forall s, segment_line ext s
                    = "**[" +:+ (format_times s).1 +:+ "-" +:+ (format_times s).2
                      +:+ "]** " +:+ strip ext (seg_text s) +:+ Py.nl +:+ Py.nl)
    as Hline.
  { intros s. unfold segment_line. by destruct (format_times s). }
  split; [split; apply clamp_le|].
  split; [apply format_times_long|].
  split; [apply format_times_short|].
  split; [apply Hline|].
  split; [apply format_times_shape|].
  split; [|split; [|split]].
  - intros start text. rewrite format_times_long; [by vm_compute|].
    right. simpl. apply (bool_decide_unpack _). vm_compute. exact I.
  - intros text. rewrite format_times_long; [by vm_compute|].
    right. simpl. apply (bool_decide_unpack _). vm_compute. exact I.
  - intros transcript first others output_path w Hsegments listing.
    assert (timestamped_listing ext transcript = listing) as Hlisting.
    { unfold timestamped_listing, listing. rewrite Hsegments.
      do 4 f_equal. apply map_ext. exact Hline. }
    split; [exact Hlisting|].
    rewrite save_transcript_to_markdown_run. simpl.
    rewrite lookup_insert_eq. unfold render_markdown. by rewrite Hlisting.
  - intros output_path w. rewrite save_transcript_to_markdown_run. simpl.
    rewrite lookup_insert_eq. apply (f_equal Some). vm_compute. reflexivity.
Qed.

Lemma C6_segment_timestamps_witness :
  format_times (Examples.seg 3000 4000 "a") = ("00:50:00", "01:06:40")
  /\ format_times (Examples.seg 61 125 "b") = ("01:01", "02:05")
  /\ timestamped_listing Examples.all_heard
       (as_dict (Examples.heard [Examples.seg 3000 4000 "a";
                                 Examples.seg 61 125 "b"]))
     = text_lines ["## 带时间戳的分段文本"; "";
                   "**[00:50:00-01:06:40]** a"; "";
                   "**[01:01-02:05]** b"; ""].
Proof.
  split; [|split].
  - rewrite (proj1 (proj2 (C6_segment_timestamps Examples.all_heard
                             (Examples.seg 3000 4000 "a")))).
    + vm_compute. reflexivity.
    + right. apply (bool_decide_unpack _). vm_compute. exact I.
  - rewrite (proj1 (proj2 (proj2 (C6_segment_timestamps Examples.all_heard
                                    (Examples.seg 61 125 "b"))))).
    + vm_compute. reflexivity.
    + apply (bool_decide_unpack _). vm_compute. exact I.
  - destruct (C6_segment_timestamps Examples.all_heard
                (Examples.seg 61 125 "b"))
      as (_ & _ & _ & _ & _ & _ & _ & Hdocument & _).
    destruct (Hdocument
                (as_dict (Examples.heard [Examples.seg 3000 4000 "a";
                                          Examples.seg 61 125 "b"]))
                (Examples.seg 3000 4000 "a") [Examples.seg 61 125 "b"]
                "out.md" Examples.three_chunks eq_refl) as [Hlisting _].
    rewrite Hlisting. vm_compute. reflexivity.
Defined.

(** C8.  Rendering a transcript to a path twice leaves the same document,
    byte for byte.  The renderer only reads the dictionary it is handed and
    only appends to the file it has opened: the dictionary it leaves behind
    is the one it was given, so the second call renders the same transcript;
    the file is opened for writing, so what the path held before does not
    show in the document; and the document is a function of the transcript
    alone, given here write by write.  The second call returns normally and
    the store after it is the store after the first.  In the merge loop the
    result that is merged after a chunk's document was written is the
    recogniser's result. *)
Theorem C8_rendering_is_idempotent ext self transcript output_path w :
  let first_run :=
    write_document ext {| transcript_object := transcript; written := "" |} in
  let left_behind := transcript_object first_run.2 in
  let document := written first_run.2 in
  let once := save_transcript_to_markdown ext transcript output_path w in
  let twice := save_transcript_to_markdown ext left_behind output_path once.2 in
  left_behind = transcript
  /\ once.1 = Returned tt
  /\ twice.1 = Returned tt
  /\ documents once.2 !! output_path = Some document
  /\ documents twice.2 !! output_path = Some document
  /\ twice.2 = once.2
  /\ audio_files once.2 = audio_files w
  /\ (forall file,
        (write_document ext {| transcript_object := transcript; written := file |}).2
        = {| transcript_object := transcript; written := file +:+ document |})
  /\ (forall previous,
        documents
          (save_transcript_to_markdown ext transcript output_path
             {| audio_files := audio_files w;
                documents := <[ output_path := previous ]> (documents w);
                directories := directories w |}).2
        !! output_path
        = Some document)
  /\ document
     = "# 音频转录" +:+ Py.nl +:+ Py.nl
       +:+ "## 音频信息" +:+ Py.nl +:+ Py.nl
       +:+ "- 语言: " +:+ default "未知" (get_language transcript) +:+ Py.nl
       +:+ match get_segments transcript with
           | Some segments =>
               match last segments with
               | Some last_segment =>
                   "- 时长: " +:+ duration_str (seg_end last_segment) +:+ Py.nl
               | None => ""
               end
           | None => ""
           end
       +:+ Py.nl
       +:+ "## 完整转录文本" +:+ Py.nl +:+ Py.nl
       +:+ strip ext (default "" (get_text transcript))
       +:+ Py.nl +:+ Py.nl
       +:+ match get_segments transcript with
           | Some segments =>
               match segments with
               | [] => ""
               | _ :: _ =>
                   "## 带时间戳的分段文本" +:+ Py.nl +:+ Py.nl
                   +:+ String.concat ""
                         (map (fun s =>
                                 "**[" +:+ (format_times s).1 +:+ "-"
                                 +:+ (format_times s).2 +:+ "]** "
                                 +:+ strip ext (seg_text s) +:+ Py.nl +:+ Py.nl)
                              segments)
               end
           | None => ""
           end
  /\ (forall chunk_path language all_segments total_duration,
        (transcribe_chunk ext self chunk_path language all_segments
                          total_duration w).1
        = match (transcribe_audio ext self chunk_path language w).1 with
          | Returned result =>
              Returned (merge_result result all_segments total_duration)
          | Raised e => Raised e
          end)
  /\ (let heard :=
        as_dict (Examples.heard [Examples.seg 2 298 "a";
                                 Examples.seg 299 3601 "b"]) in
      let held := {| audio_files := ∅;
                     documents := {[ "ep.md" := "an older document" ]};
                     directories := ∅ |} in
      let once := save_transcript_to_markdown Examples.all_heard heard "ep.md"
                    held in
      let twice := save_transcript_to_markdown Examples.all_heard heard "ep.md"
                     once.2 in
      documents once.2 !! "ep.md"
      = Some (text_lines
                ["# 音频转录"; "";
                 "## 音频信息"; "";
                 "- 语言: zh";
                 "- 时长: 1小时0分钟1秒"; "";
                 "## 完整转录文本"; "";
                 "ab"; "";
                 "## 带时间戳的分段文本"; "";
                 "**[00:02-04:58]** a"; "";
                 "**[00:04:59-01:00:01]** b"; ""])
      /\ documents twice.2 !! "ep.md" = documents once.2 !! "ep.md").
Proof.
  intros first_run left_behind document once twice.
  assert (first_run.2
          = {| transcript_object := transcript;
               written := render_markdown ext transcript |}) as Hrun.
  { unfold first_run. by rewrite write_document_run. }
  assert (left_behind = transcript) as Hsame
    by (unfold left_behind; by rewrite Hrun).
  assert (document = render_markdown ext transcript) as Hdocument
    by (unfold document; by rewrite Hrun).
  unfold twice, once. rewrite Hsame, Hdocument.
  rewrite !save_transcript_to_markdown_run.
  cbn [fst snd documents audio_files directories].
  rewrite insert_insert_eq, lookup_insert_eq.
  do 7 (split; [reflexivity|]).
  split; [|split; [|split; [|split]]].
  - intros file. by rewrite write_document_run.
  - intros previous. rewrite save_transcript_to_markdown_run.
    cbn [fst snd documents]. by rewrite lookup_insert_eq.
  - unfold render_markdown, metadata_block, timestamped_listing.
    rewrite !append_assoc.
    destruct (get_segments transcript) as [[|first others]|];
      [reflexivity| |reflexivity].
    rewrite (map_ext (segment_line ext)
               (fun s =>
                  "**[" +:+ (format_times s).1 +:+ "-" +:+ (format_times s).2
                  +:+ "]** " +:+ strip ext (seg_text s) +:+ Py.nl +:+ Py.nl));
      [reflexivity|].
    intros s. unfold segment_line. by destruct (format_times s).
  - intros. apply transcribe_chunk_run.
  - cbv zeta. rewrite ?save_transcript_to_markdown_run.
    cbn [fst snd documents].
    rewrite ?insert_insert_eq, !lookup_insert_eq. split; [|reflexivity].
    apply (f_equal Some). vm_compute. reflexivity.
Qed.



(** ** Silence-aware chunks and where the merger places them *)

Section Placement.

Variable ext : Collaborators.
Variable self : WhisperTranscriber.

Lemma fold_absorb_prefix results acc :
  exists tail, (fold_left absorb results acc).1 = acc.1 ++ tail.
Proof.
  revert acc. induction results as [|r rest IH]; intros acc.
  - exists []. simpl. by rewrite app_nil_r.
  - simpl. destruct (IH (absorb acc r)) as [tail ->].
    destruct r as [result|e]; simpl.
    + eexists. by rewrite <- app_assoc.
    + by eexists.
Qed.

Lemma choose_chunks_within_budget audio L min_silence_len silence_thresh
    keep_silence :
  (let chunks :=
     split_on_silence ext audio min_silence_len silence_thresh keep_silence in
   chunks <> [] /\ Forall (fun chunk => len chunk <= L) chunks) ->
  choose_chunks ext audio L min_silence_len silence_thresh keep_silence
  = Returned
      (split_on_silence ext audio min_silence_len silence_thresh keep_silence).
Proof.
  simpl. intros [Hne Hfit]. apply choose_chunks_keeps. simpl.
  intros [Hnil|Hlong]; [done|].
  rewrite Forall_forall in Hfit. apply Exists_exists in Hlong as (c & Hc & Hlt).
  specialize (Hfit c Hc). lia.
Qed.

(** The merged list, chunk by chunk: each chunk is placed at the offset the
    loop had reached when it came to that chunk. *)
Lemma fold_absorb_placed results acc :
  (fold_left absorb results acc).1
  = acc.1
    ++ concat (imap (fun k r =>
                       placed (fold_left absorb (take k results) acc).2 r)
                    results).
Proof.
  revert acc. induction results as [|r rest IH]; intros acc.
  - simpl. by rewrite app_nil_r.
  - change (fold_left absorb (r :: rest) acc)
      with (fold_left absorb rest (absorb acc r)).
    rewrite IH. simpl. rewrite app_assoc. f_equal.
    destruct r as [t|e]; simpl; [reflexivity|by rewrite app_nil_r].
Qed.

Lemma absorb_offset_grows acc r :
  (0 ≤ acc.2)%Qc -> ends_from_zero r ->
  (acc.2 ≤ (absorb acc r).2)%Qc
  /\ (forall t last_segment,
        r = Returned t -> last (tr_segments t) = Some last_segment ->
        (0 < seg_end last_segment)%Qc ->
        (acc.2 < (absorb acc r).2)%Qc).
Proof.
  intros Hacc Hends. destruct r as [t|e]; cbn [absorb].
  - destruct (merge_result_offset_cases t acc.1 acc.2)
      as [(last_segment & Hlast & ->)|[Hnil ->]].
    + assert (0 ≤ seg_end last_segment)%Qc as Hend.
      { simpl in Hends. rewrite Forall_forall in Hends. apply Hends.
        by apply last_Some_elem_of. }
      split; [qc_lra|].
      intros t' last' [= <-] Hlast' Hpos.
      rewrite Hlast in Hlast'. injection Hlast' as <-. qc_lra.
    + split; [apply Qcle_refl|].
      intros t' last' [= <-] Hlast'. by rewrite Hnil in Hlast'.
  - split; [apply Qcle_refl|]. intros t last_segment Hr. discriminate.
Qed.

Lemma running_offset_nonneg results :
  Forall ends_from_zero results -> (0 ≤ running_offset results)%Qc.
Proof.
  unfold running_offset.
  assert (forall acc, (0 ≤ acc.2)%Qc -> Forall ends_from_zero results ->
                      (0 ≤ (fold_left absorb results acc).2)%Qc) as Hgen.
  { induction results as [|r rest IH]; intros acc Hacc Hall; [done|].
    apply Forall_cons in Hall as [Hr Hrest]. simpl. apply IH; [|done].
    destruct (absorb_offset_grows acc r Hacc Hr) as [Hle _].
    eapply Qcle_trans; [exact Hacc|exact Hle]. }
  apply Hgen. apply Qcle_refl.
Qed.

Lemma running_offset_snoc results r :
  running_offset (results ++ [r])
  = (absorb (fold_left absorb results ([], 0%Qc)) r).2.
Proof. unfold running_offset. by rewrite fold_left_app. Qed.

End Placement.

(** C7, as it stands, fails.  The eleven-minute [Examples.lecture] is split
    at its pause into two chunks within the ten-minute budget, so the
    silence-aware result is kept.  The second chunk is the clip from
    359500 ms on, yet its utterance, heard 1 s into the chunk, is placed at
    299 s: the offset is 298 s, the end of the first chunk's last segment,
    not 359.5 s.  The two chunks last 601000 ms together, the clip
    660000 ms.  Nor do the offsets always increase: after a chunk in which
    nothing is heard the next chunk has the offset that chunk had. *)
Lemma C7_counterexample :
  let run :=
    split_audio Examples.lecture_heard "audio/ep.mp3" "audio/ep"
      default_chunk_length_ms default_min_silence_len default_silence_thresh
      default_keep_silence Examples.studio in
  run.1 = Returned ["audio/ep/ep_001.mp3"; "audio/ep/ep_002.mp3"]
  /\ audio_files run.2 !! "audio/ep/ep_001.mp3"
     = Some (audio_slice Examples.lecture 0 300500)
  /\ audio_files run.2 !! "audio/ep/ep_002.mp3"
     = Some (audio_slice Examples.lecture 359500 660000)
  /\ len (audio_slice Examples.lecture 0 300500)
     + len (audio_slice Examples.lecture 359500 660000) = 601000
  /\ len Examples.lecture = 660000
  /\ chunk_results Examples.lecture_heard Examples.transcriber "zh" run.2
       ["audio/ep/ep_001.mp3"; "audio/ep/ep_002.mp3"]
     = [Returned (Examples.heard [Examples.seg 2 298 "a"]);
        Returned (Examples.heard [Examples.seg 1 299 "b"])]
  /\ (transcribe_long_audio Examples.lecture_heard Examples.transcriber
        "audio/ep.mp3" None "zh" Examples.studio).1
     = Returned {| tr_text := "a b";
                   tr_segments := [Examples.seg 2 298 "a";
                                   Examples.seg 299 597 "b"];
                   tr_language := "zh" |}
  /\ adjust_timestamps (Qc_of_Z 298) (Examples.seg 1 299 "b")
     = Examples.seg 299 597 "b"
  /\ Qc_of_Z 298 <> (Qc_of_Z 359500 / Qc_of_Z 1000)%Qc
  /\ (merge_chunks
        (Examples.collaborators (fun audio => [audio])
           [(Examples.clip 1, Returned (Examples.heard []));
            (Examples.clip 2, Returned (Examples.heard [Examples.seg 1 2 "b"]))])
        Examples.transcriber Examples.two_files "zh" Examples.three_chunks).1
     = Returned {| tr_text := "b";
                   tr_segments := [Examples.seg 1 2 "b"];
                   tr_language := "zh" |}
  /\ running_offset [Returned (Examples.heard [])] = running_offset [].
Proof.
  intros run. subst run.
  split_and!;
    [by_evaluation..|exact lecture_run|by_evaluation|by_evaluation
    |by_evaluation|by_evaluation].
Qed.

(** C7, amended.  On the silence-aware path the chunks are the pieces the
    silence splitter returned, in its order, whenever there is at least one
    and none exceeds the budget.  The offset of a chunk, which is added to
    every start and end of its segments, is the running offset the merge
    loop has reached when it comes to the chunk: a value computed from the
    recogniser's outcomes for the chunks before it and from nothing else,
    0 for the first chunk and the end of the first chunk's last segment for
    the second; a chunk that is not recognised leaves it where it was.  It
    is not read from the clips, their positions or their lengths: two runs
    with the same outcomes merge to the same transcript.  When no segment
    ends before 0 the offsets never decrease along the chunks, and they
    increase across every recognised chunk whose last segment ends after
    0. *)
Theorem C7_chunks_kept_and_placed_by_transcripts ext self :
  (forall audio L min_silence_len silence_thresh keep_silence,
     let silent :=
       split_on_silence ext audio min_silence_len silence_thresh keep_silence in
     silent <> [] -> Forall (fun chunk => len chunk <= L) silent ->
     choose_chunks ext audio L min_silence_len silence_thresh keep_silence
     = Returned silent)
  /\ (forall ext' self' language w w' chunk_files chunk_files',
        chunk_results ext self language w chunk_files
        = chunk_results ext' self' language w' chunk_files' ->
        (merge_chunks ext self chunk_files language w).1
        = (merge_chunks ext' self' chunk_files' language w').1)
  /\ (forall language w chunk_files first others,
        chunk_results ext self language w chunk_files
        = Returned first :: others ->
        exists merged later,
          (merge_chunks ext self chunk_files language w).1 = Returned merged
          /\ tr_segments merged = tr_segments first ++ later)
  /\ (forall language w chunk_files,
        let results := chunk_results ext self language w chunk_files in
        exists merged,
          (merge_chunks ext self chunk_files language w).1 = Returned merged
          /\ tr_segments merged
             = concat (imap (fun k r => placed (running_offset (take k results)) r)
                            results))
  /\ running_offset [] = 0%Qc
  /\ (forall first, running_offset [Returned first] = last_end (tr_segments first))
  /\ (forall results e,
        running_offset (results ++ [Raised e]) = running_offset results)
  /\ (forall results (k : nat),
        Forall ends_from_zero results ->
        (running_offset (take k results) ≤ running_offset (take (S k) results))%Qc)
  /\ (forall results (k : nat) t last_segment,
        Forall ends_from_zero results ->
        results !! k = Some (Returned t) ->
        last (tr_segments t) = Some last_segment ->
        (0 < seg_end last_segment)%Qc ->
        (running_offset (take k results) < running_offset (take (S k) results))%Qc).
Proof.
  split_and!.
  - intros audio L min_silence_len silence_thresh keep_silence silent Hne Hfit.
    by apply choose_chunks_within_budget.
  - intros ext' self' language w w' chunk_files chunk_files' Hsame.
    by rewrite !merge_chunks_fold, Hsame.
  - intros language w chunk_files first others Hresults.
    rewrite merge_chunks_fold, Hresults. simpl.
    destruct (fold_absorb_prefix others (merge_result first [] 0%Qc))
      as [later Hlater].
    do 2 eexists. split; [reflexivity|]. simpl. rewrite Hlater.
    rewrite merge_result_segments, map_adjust_timestamps_0. reflexivity.
  - intros language w chunk_files results. rewrite merge_chunks_fold.
    eexists. split; [reflexivity|]. simpl. fold results.
    by rewrite fold_absorb_placed.
  - reflexivity.
  - intros first. unfold running_offset. cbn [fold_left absorb fst snd].
    destruct (merge_result_offset_cases first [] 0%Qc)
      as [(last_segment & Hlast & ->)|[Hnil ->]].
    + unfold last_end. rewrite Hlast. by rewrite Qcplus_0_l, Qcplus_0_r.
    + by rewrite Hnil.
  - intros results e. by rewrite running_offset_snoc.
  - intros results k Hends.
    destruct (results !! k) as [r|] eqn:Hk.
    + rewrite (take_S_r results k r Hk), running_offset_snoc.
      apply absorb_offset_grows.
      * apply (running_offset_nonneg (take k results)). by apply Forall_take.
      * rewrite Forall_lookup in Hends. by apply (Hends k).
    + apply lookup_ge_None in Hk. rewrite !take_ge by lia. apply Qcle_refl.
  - intros results k t last_segment Hends Hk Hlast Hpos.
    rewrite (take_S_r results k _ Hk), running_offset_snoc.
    eapply (proj2 (absorb_offset_grows _ (Returned t) _ _)); [done|exact Hlast|exact Hpos].
    Unshelve.
    + apply (running_offset_nonneg (take k results)). by apply Forall_take.
    + rewrite Forall_lookup in Hends. by apply (Hends k).
Qed.

Lemma C7_chunks_kept_and_placed_by_transcripts_witness :
  choose_chunks Examples.lecture_heard Examples.lecture default_chunk_length_ms
    default_min_silence_len default_silence_thresh default_keep_silence
  = Returned (Examples.between_pauses Examples.lecture)
  /\ (merge_chunks Examples.lecture_heard Examples.transcriber
        ["audio/ep/ep_001.mp3"; "audio/ep/ep_002.mp3"] "zh"
        (split_audio Examples.lecture_heard "audio/ep.mp3" "audio/ep"
           default_chunk_length_ms default_min_silence_len
           default_silence_thresh default_keep_silence Examples.studio).2).1
     = (merge_chunks
          (Examples.collaborators (fun audio => [audio])
             [(Examples.clip 1, Returned (Examples.heard [Examples.seg 2 298 "a"]));
              (Examples.clip 2, Returned (Examples.heard [Examples.seg 1 299 "b"]))])
          Examples.transcriber Examples.two_files "zh" Examples.three_chunks).1
  /\ (running_offset
         [Returned (Examples.heard [Examples.seg 0 4 "a"; Examples.seg 5 9 "b"])]
       < running_offset
           [Returned (Examples.heard [Examples.seg 0 4 "a"; Examples.seg 5 9 "b"]);
            Returned (Examples.heard [Examples.seg 1 3 "c"])])%Qc.
Proof.
  split; [|split].
  - apply (proj1 (C7_chunks_kept_and_placed_by_transcripts
                    Examples.lecture_heard Examples.transcriber)).
    + discriminate.
    + apply (bool_decide_unpack _). vm_compute. exact I.
  - apply (proj1 (proj2 (C7_chunks_kept_and_placed_by_transcripts
                           Examples.lecture_heard Examples.transcriber))).
    vm_compute. reflexivity.
  - destruct (C7_chunks_kept_and_placed_by_transcripts Examples.lecture_heard
                Examples.transcriber)
      as (_ & _ & _ & _ & _ & _ & _ & _ & Hgrows).
    apply (Hgrows
             [Returned (Examples.heard [Examples.seg 0 4 "a"; Examples.seg 5 9 "b"]);
              Returned (Examples.heard [Examples.seg 1 3 "c"])]
             1%nat (Examples.heard [Examples.seg 1 3 "c"])
             (Examples.seg 1 3 "c")).
    + repeat constructor; by_evaluation.
    + reflexivity.
    + reflexivity.
    + by_evaluation.
Defined.

(** * Further properties of the transcriber *)

(** ** Recognition: what normalisation keeps, and how failures travel *)

(** X1.  Whatever the flags and the language, a transcript returned by
    [transcribe_audio] has the recogniser's segment starts, ends and
    language, and the store is left as it was; it is the recogniser's
    result itself when normalisation is off or the language is not ["zh"]. *)
Theorem transcribe_audio_keeps_timing ext self audio_path language w result :
  (transcribe_audio ext self audio_path language w).1 = Returned result ->
  exists audio heard,
    audio_files w !! audio_path = Some audio
    /\ model_transcribe ext audio language = Returned heard
    /\ map seg_start (tr_segments result) = map seg_start (tr_segments heard)
    /\ map seg_end (tr_segments result) = map seg_end (tr_segments heard)
    /\ tr_language result = tr_language heard
    /\ (transcribe_audio ext self audio_path language w).2 = w
    /\ (to_simplified self = false \/ language <> "zh" -> result = heard).
Proof.
  intros Hrun. rewrite transcribe_audio_store.
  unfold transcribe_audio, from_file, mbind, mret, M_bind, M_ret, bind, ret,
    lift in Hrun.
  destruct (audio_files w !! audio_path) as [audio|] eqn:Hfile; [|discriminate].
  simpl in Hrun.
  destruct (model_transcribe ext audio language) as [heard|e] eqn:Hheard;
    [|discriminate].
  exists audio, heard. split; [reflexivity|]. split; [exact Hheard|].
  destruct (to_simplified self) eqn:Hflag; simpl in Hrun.
  - destruct (bool_decide (language = "zh")) eqn:Hzh; simpl in Hrun;
      injection Hrun as <-; simpl.
    + rewrite !map_map. split_and!; try reflexivity.
      intros [?|Hne]; [discriminate|].
      apply bool_decide_eq_true in Hzh. contradiction.
    + by split_and!.
  - injection Hrun as <-. by split_and!.
Qed.

Lemma transcribe_audio_keeps_timing_witness :
  exists heard,
    model_transcribe Examples.traditional (Examples.clip 1) "zh" = Returned heard
    /\ map seg_end
         [{| seg_start := 0; seg_end := Qc_of_Z 1; seg_text := "书" |}]
       = map seg_end (tr_segments heard).
Proof.
  destruct (transcribe_audio_keeps_timing Examples.traditional
              Examples.transcriber "ep/ep_001.mp3" "zh" Examples.three_chunks
              {| tr_text := "书";
                 tr_segments := [{| seg_start := 0; seg_end := Qc_of_Z 1;
                                    seg_text := "书" |}];
                 tr_language := "zh" |})
    as (audio & heard & Hfile & Hheard & _ & Hends & _).
  - by_evaluation.
  - exists heard. split; [|exact Hends].
    assert (audio = Examples.clip 1) as <-; [|exact Hheard].
    assert (audio_files Examples.three_chunks !! "ep/ep_001.mp3"
            = Some (Examples.clip 1)) as Hclip by reflexivity.
    congruence.
Defined.

(** X2.  [transcribe_audio] fails exactly as its collaborators do: a file
    that is not there is an exception, an exception of the recogniser is
    re-raised as it is, and in both cases the store is untouched; otherwise
    the call returns and the store is untouched as well. *)
Theorem transcribe_audio_failures ext self audio_path language w :
  (audio_files w !! audio_path = None ->
   exists e, transcribe_audio ext self audio_path language w = (Raised e, w))
  /\ (forall audio e,
        audio_files w !! audio_path = Some audio ->
        model_transcribe ext audio language = Raised e ->
        transcribe_audio ext self audio_path language w = (Raised e, w))
  /\ (forall audio heard,
        audio_files w !! audio_path = Some audio ->
        model_transcribe ext audio language = Returned heard ->
        exists result,
          transcribe_audio ext self audio_path language w = (Returned result, w)).
Proof.
  split_and!.
  - intros Hnone. eexists. unfold transcribe_audio, from_file. run_monad.
    by rewrite Hnone.
  - intros audio e Hfile Hfail. unfold transcribe_audio.
    rewrite (bind_returned _ _ w audio w) by (by apply from_file_run).
    unfold mbind, M_bind, bind, lift. by rewrite Hfail.
  - intros audio heard Hfile Hheard. unfold transcribe_audio.
    rewrite (bind_returned _ _ w audio w) by (by apply from_file_run).
    rewrite (bind_returned _ _ w heard w) by (unfold lift; by rewrite Hheard).
    destruct (to_simplified self && bool_decide (language = "zh")); by eexists.
Qed.

Lemma transcribe_audio_failures_witness :
  transcribe_audio Examples.second_fails Examples.transcriber "ep/ep_002.mp3"
    "zh" Examples.three_chunks
  = (Raised (RecognitionError "decoder error"), Examples.three_chunks)
  /\ exists e,
       transcribe_audio Examples.second_fails Examples.transcriber
         "ep/ep_009.mp3" "zh" Examples.three_chunks
       = (Raised e, Examples.three_chunks).
Proof.
  split.
  - apply (proj1 (proj2 (transcribe_audio_failures Examples.second_fails
             Examples.transcriber "ep/ep_002.mp3" "zh" Examples.three_chunks))
             (Examples.clip 2)).
    + reflexivity.
    + by_evaluation.
  - apply (proj1 (transcribe_audio_failures Examples.second_fails
             Examples.transcriber "ep/ep_009.mp3" "zh" Examples.three_chunks)).
    reflexivity.
Defined.

(** ** Segmentation: budget, edge cases and the exported files *)

Section SegmentationMore.

Variable ext : Collaborators.

Lemma audio_slice_within audio start L :
  0 <= start -> 0 < L -> len (audio_slice audio start (start + L)) <= L.
Proof. intros Hs HL. rewrite len_audio_slice by lia. lia. Qed.

Lemma max_len_nonneg chunks : 0 <= max_len chunks.
Proof.
  destruct chunks as [|chunk rest]; [done|]. unfold max_len.
  assert (forall xs a, 0 <= a -> 0 <= fold_left Z.max xs a) as Hfold.
  { induction xs as [|x xs IH]; intros a Ha; simpl; [done|]. apply IH. lia. }
  apply Hfold, len_nonneg.
Qed.

End SegmentationMore.

(** X3.  For a positive budget the choice of chunks never fails and never
    yields a chunk longer than the budget, on either path; a non-empty clip
    always yields at least one chunk. *)
Theorem chunks_never_exceed_budget ext audio L min_silence_len silence_thresh
    keep_silence :
  0 < L ->
  exists chunks,
    choose_chunks ext audio L min_silence_len silence_thresh keep_silence
    = Returned chunks
    /\ Forall (fun chunk => len chunk <= L) chunks
    /\ (0 < len audio -> chunks <> []).
Proof.
  intros HL.
  destruct (decide
    (split_on_silence ext audio min_silence_len silence_thresh keep_silence = []
     \/ Exists (fun chunk => L < len chunk)
          (split_on_silence ext audio min_silence_len silence_thresh
             keep_silence))) as [Hrej|Hkeep].
  - rewrite (choose_chunks_fallback ext audio L _ _ _ HL Hrej).
    eexists. split; [reflexivity|]. split.
    + apply Forall_forall. intros chunk Hin.
      apply list_elem_of_In, in_map_iff in Hin as (k & <- & _).
      apply audio_slice_within; lia.
    + intros Hlen Hnil. apply (f_equal length) in Hnil.
      rewrite length_map, length_seq in Hnil. simpl in Hnil.
      pose proof (window_count (len audio) L HL Hlen). lia.
  - rewrite (choose_chunks_keeps ext audio L _ _ _ Hkeep).
    eexists. split; [reflexivity|]. split.
    + apply Forall_forall. intros chunk Hin.
      destruct (decide (len chunk <= L)) as [|Hlong]; [done|].
      exfalso. apply Hkeep. right. apply Exists_exists. exists chunk.
      split; [exact Hin|lia].
    + intros _ Hnil. apply Hkeep. by left.
Qed.

Lemma chunks_never_exceed_budget_witness :
  exists chunks,
    choose_chunks Examples.lecture_heard Examples.lecture
      default_chunk_length_ms default_min_silence_len default_silence_thresh
      default_keep_silence
    = Returned chunks
    /\ Forall (fun chunk => len chunk <= default_chunk_length_ms) chunks.
Proof.
  destruct (chunks_never_exceed_budget Examples.lecture_heard Examples.lecture
              default_chunk_length_ms default_min_silence_len
              default_silence_thresh default_keep_silence)
    as (chunks & Hrun & Hfit & _).
  - reflexivity.
  - exists chunks. by split.
Defined.

(** X4.  A budget that is not positive is not rejected by [split_audio]:
    with a negative budget every clip is "too long", the silence-aware
    result is always discarded and the fixed-length split is empty, so no
    chunk at all is returned and nothing is exported; with a budget of 0 a
    discarded silence-aware result ends in the [ValueError] of [range]. *)
Theorem non_positive_budget ext audio_path output_dir L min_silence_len
    silence_thresh keep_silence w audio :
  audio_files w !! audio_path = Some audio ->
  (L < 0 ->
   exists w',
     split_audio ext audio_path output_dir L min_silence_len silence_thresh
                 keep_silence w
     = (Returned [], w')
     /\ audio_files w' = audio_files w /\ documents w' = documents w)
  /\ (L = 0 -> 0 < len audio ->
      (split_on_silence ext audio min_silence_len silence_thresh keep_silence = []
       \/ Exists (fun chunk => 0 < len chunk)
            (split_on_silence ext audio min_silence_len silence_thresh
               keep_silence)) ->
      exists msg w',
        split_audio ext audio_path output_dir L min_silence_len silence_thresh
                    keep_silence w
        = (Raised (ValueError msg), w')
        /\ audio_files w' = audio_files w /\ documents w' = documents w).
Proof.
  intros Hfile.
  destruct (ensure_dir_run output_dir w) as (w1 & Hdir & Haudio & Hdocs & _).
  pose proof (len_nonneg audio) as Hlen.
  split.
  - intros Hneg. exists w1. split; [|done]. unfold split_audio.
    rewrite (bind_returned _ _ _ _ _ Hdir).
    rewrite (bind_returned _ _ w1 audio w1)
      by (apply from_file_run; by rewrite Haudio).
    destruct (len audio <=? L) eqn:Hle; [apply Z.leb_le in Hle; lia|].
    assert (choose_chunks ext audio L min_silence_len silence_thresh keep_silence
            = Returned []) as Hchunks.
    { unfold choose_chunks.
      assert (bool_decide
                (split_on_silence ext audio min_silence_len silence_thresh
                   keep_silence = [])
              || (L <? max_len
                         (split_on_silence ext audio min_silence_len
                            silence_thresh keep_silence)) = true) as ->.
      { apply orb_true_iff. right. apply Z.ltb_lt.
        pose proof (max_len_nonneg
                      (split_on_silence ext audio min_silence_len silence_thresh
                         keep_silence)). lia. }
      unfold py_range.
      destruct (L =? 0) eqn:H0; [apply Z.eqb_eq in H0; lia|].
      destruct (0 <? L) eqn:Hpos; [apply Z.ltb_lt in Hpos; lia|].
      replace (Z.to_nat ((0 - len audio - L - 1) / - L)) with 0%nat; [done|].
      assert ((0 - len audio - L - 1) / - L <= 0); [|lia].
      Z.div_mod_to_equations. nia. }
    rewrite (bind_returned _ _ w1 [] w1) by (unfold lift; by rewrite Hchunks).
    reflexivity.
  - intros -> Hpos Hrej. eexists _, w1. split; [|done]. unfold split_audio.
    rewrite (bind_returned _ _ _ _ _ Hdir).
    rewrite (bind_returned _ _ w1 audio w1)
      by (apply from_file_run; by rewrite Haudio).
    destruct (len audio <=? 0) eqn:Hle; [apply Z.leb_le in Hle; lia|].
    apply rejects_iff in Hrej.
    unfold mbind, M_bind, bind, lift, choose_chunks. rewrite Hrej.
    reflexivity.
Qed.

Lemma non_positive_budget_witness :
  exists w',
    split_audio Examples.all_heard "ep/ep_001.mp3" "out" (-1)
      default_min_silence_len default_silence_thresh default_keep_silence
      Examples.three_chunks
    = (Returned [], w').
Proof.
  destruct (non_positive_budget Examples.all_heard "ep/ep_001.mp3" "out" (-1)
              default_min_silence_len default_silence_thresh
              default_keep_silence Examples.three_chunks (Examples.clip 1)
              ltac:(reflexivity)) as [Hneg _].
  destruct (Hneg ltac:(lia)) as (w' & Hrun & _). by exists w'.
Defined.

(** ** The exported chunk files *)

Section ExportedFiles.

Variable ext : Collaborators.

Lemma append_inj_l (a x y : string) : a +:+ x = a +:+ y -> x = y.
Proof. induction a as [|c a IH]; simpl; [done|]. intros [= H]. by apply IH. Qed.

Lemma append_inj_length (x y s t : string) :
  String.length x = String.length y -> x +:+ s = y +:+ t -> x = y.
Proof.
  revert y. induction x as [|c x IH]; intros [|d y]; simpl; try done.
  intros [= Hlen] [= -> Happ]. f_equal. by apply IH.
Qed.

Lemma ordinals_lookup (i : nat) :
  (i < 999)%nat -> ordinals !! i = Some (Py.format_0d 3 (Z.of_nat i + 1)).
Proof.
  intros Hi. unfold ordinals.
  change (map ?f ?l) with (f <$> l).
  by rewrite list_lookup_fmap, lookup_seq_lt.
Qed.

Lemma ordinals_width : Forall (fun s => String.length s = 3%nat) ordinals.
Proof. by_evaluation. Qed.

Lemma ordinals_distinct : NoDup ordinals.
Proof. by_evaluation. Qed.

Lemma ordinal_width (i : nat) :
  (i < 999)%nat -> String.length (Py.format_0d 3 (Z.of_nat i + 1)) = 3%nat.
Proof.
  intros Hi. pose proof ordinals_width as Hall.
  rewrite Forall_lookup in Hall. exact (Hall i _ (ordinals_lookup i Hi)).
Qed.

Lemma ordinal_inj (i j : nat) :
  (i < 999)%nat -> (j < 999)%nat ->
  Py.format_0d 3 (Z.of_nat i + 1) = Py.format_0d 3 (Z.of_nat j + 1) -> i = j.
Proof.
  intros Hi Hj Heq.
  apply (NoDup_lookup ordinals i j (Py.format_0d 3 (Z.of_nat i + 1))
           ordinals_distinct).
  - by apply ordinals_lookup.
  - rewrite Heq. by apply ordinals_lookup.
Qed.

Lemma chunk_path_inj output_dir base_name (i j : nat) :
  (forall a b,
     os_path_join ext output_dir (base_name +:+ "_" +:+ a)
     = os_path_join ext output_dir (base_name +:+ "_" +:+ b) ->
     a = b) ->
  (i < 999)%nat -> (j < 999)%nat ->
  chunk_path ext output_dir base_name i = chunk_path ext output_dir base_name j ->
  i = j.
Proof.
  intros Hjoin Hi Hj Heq. unfold chunk_path in Heq.
  apply Hjoin in Heq.
  apply append_inj_length in Heq;
    [by apply ordinal_inj|by rewrite !ordinal_width].
Qed.

(** The export loop, from ordinal [i] on: the paths it appends and the
    store it leaves. *)
Lemma export_chunks_files output_dir base_name chunks i chunk_files w :
  let paths :=
    map (chunk_path ext output_dir base_name) (seq i (length chunks)) in
  exists w',
    export_chunks ext output_dir base_name i chunks chunk_files w
    = (Returned (chunk_files ++ paths), w')
    /\ documents w' = documents w
    /\ directories w' = directories w
    /\ (forall p, p ∉ paths -> audio_files w' !! p = audio_files w !! p)
    /\ (NoDup paths ->
        forall (k : nat) chunk,
          chunks !! k = Some chunk ->
          audio_files w' !! chunk_path ext output_dir base_name (i + k)
          = Some chunk).
Proof.
  revert i chunk_files w.
  induction chunks as [|chunk rest IH]; intros i chunk_files w paths.
  - exists w. subst paths. simpl. rewrite app_nil_r. by split_and!.
  - simpl in paths. simpl. unfold export at 1.
    erewrite bind_returned by reflexivity.
    fold (chunk_path ext output_dir base_name i).
    destruct (IH (S i) (chunk_files ++ [chunk_path ext output_dir base_name i])
                {| audio_files :=
                     <[chunk_path ext output_dir base_name i:=chunk]> (audio_files w);
                   documents := documents w;
                   directories := directories w |})
      as (w' & -> & Hdocs & Hdirs & Hother & Hheld).
    exists w'. simpl in *. rewrite <- app_assoc. split_and!; try done.
    + intros p Hp. subst paths. apply not_elem_of_cons in Hp as [Hne Hrest].
      rewrite (Hother p Hrest). by apply lookup_insert_ne.
    + intros Hnodup k c Hk. subst paths.
      apply NoDup_cons in Hnodup as [Hfresh Hnodup].
      destruct k as [|k]; simpl in Hk.
      * injection Hk as ->. rewrite Nat.add_0_r, (Hother _ Hfresh).
        apply lookup_insert_eq.
      * replace (i + S k)%nat with (S i + k)%nat by lia. by apply Hheld.
Qed.

End ExportedFiles.

(** X5.  A clip longer than the budget is exported chunk by chunk: chunk
    [k] (from 0) goes to the file named after the input with the
    three-digit ordinal [k + 1], in the output directory.  Joining the
    output directory with names that begin with the input's base name and
    an underscore is taken to tell such names apart, as [os.path.join] does
    for a base name that is not an absolute path.  Up to 999 chunks the
    paths are then distinct, so every file is the export of its own chunk;
    no other audio file and no document is touched, the output directory
    has been made sure of and no directory is lost. *)
Theorem exported_chunks_round_trip ext audio_path output_dir L min_silence_len
    silence_thresh keep_silence w audio chunks :
  audio_files w !! audio_path = Some audio ->
  L < len audio ->
  choose_chunks ext audio L min_silence_len silence_thresh keep_silence
  = Returned chunks ->
  (length chunks <= 999)%nat ->
  let base_name := (os_path_splitext ext (os_path_basename ext audio_path)).1 in
  (forall a b,
     os_path_join ext output_dir (base_name +:+ "_" +:+ a)
     = os_path_join ext output_dir (base_name +:+ "_" +:+ b) ->
     a = b) ->
  let paths :=
    map (chunk_path ext output_dir base_name) (seq 0 (length chunks)) in
  exists w',
    split_audio ext audio_path output_dir L min_silence_len silence_thresh
                keep_silence w
    = (Returned paths, w')
    /\ NoDup paths
    /\ (forall (k : nat) chunk,
          chunks !! k = Some chunk ->
          audio_files w' !! chunk_path ext output_dir base_name k = Some chunk)
    /\ (forall p, p ∉ paths -> audio_files w' !! p = audio_files w !! p)
    /\ documents w' = documents w
    /\ output_dir ∈ directories w'
    /\ directories w ⊆ directories w'.
Proof.
  intros Hfile Hlong Hchunks Hcount base_name Hjoin paths.
  rewrite (split_audio_long ext audio_path output_dir L _ _ _ w audio chunks
             Hfile Hlong Hchunks).
  destruct (ensure_dir_run output_dir w) as (w1 & Hdir & Haudio & Hdocs & Hdirs).
  rewrite Hdir. simpl.
  destruct (export_chunks_files ext output_dir base_name chunks 0 [] w1)
    as (w' & Hrun & Hdocs' & Hdirs' & Hother & Hheld).
  assert (NoDup paths) as Hnodup.
  { subst paths. apply NoDup_fmap_2_strong; [|apply NoDup_seq].
    intros i j Hi%elem_of_seq Hj%elem_of_seq Heq.
    apply (chunk_path_inj ext output_dir base_name i j Hjoin); [lia..|done]. }
  exists w'. fold base_name. rewrite Hrun. simpl. split_and!; try done.
  - intros k chunk Hk. by apply (Hheld Hnodup k chunk).
  - intros p Hp. by rewrite (Hother p Hp), Haudio.
  - congruence.
  - rewrite Hdirs', Hdirs, elem_of_union, elem_of_singleton. by left.
  - rewrite Hdirs', Hdirs. apply union_subseteq_r.
Qed.

Lemma exported_chunks_round_trip_witness :
  exists w',
    split_audio Examples.all_heard "ep/ep_001.mp3" "out" 5000
      default_min_silence_len default_silence_thresh default_keep_silence
      Examples.three_chunks
    = (Returned ["out/ep_001_001.mp3"; "out/ep_001_002.mp3";
                 "out/ep_001_003.mp3"], w')
    /\ audio_files w' !! "out/ep_001_003.mp3"
       = Some (audio_slice (Examples.clip 1) 10000 15000).
Proof.
  destruct (exported_chunks_round_trip Examples.all_heard "ep/ep_001.mp3"
              "out" 5000 default_min_silence_len default_silence_thresh
              default_keep_silence Examples.three_chunks (Examples.clip 1)
              [audio_slice (Examples.clip 1) 0 5000;
               audio_slice (Examples.clip 1) 5000 10000;
               audio_slice (Examples.clip 1) 10000 15000])
    as (w' & Hrun & _ & Hheld & _).
  - reflexivity.
  - reflexivity.
  - by_evaluation.
  - simpl. lia.
  - intros a b Heq. by apply (append_inj_l "out/ep_001_") in Heq.
  - exists w'. split; [exact Hrun|]. exact (Hheld 2%nat _ eq_refl).
Defined.

(** ** A missing input *)

(** X6.  When the input file is not there, [split_audio] raises the
    [FileNotFoundError] of the loader and [transcribe_long_audio] lets it
    through: nothing is recognised and no file or document is written.
    The output directory has been made by then all the same, and when
    [output_dir] is not given the directory derived from the input's path
    is the one that is made. *)
Theorem missing_input_is_fatal ext self audio_path language w :
  audio_files w !! audio_path = None ->
  (forall output_dir L min_silence_len silence_thresh keep_silence,
     exists w',
       split_audio ext audio_path output_dir L min_silence_len silence_thresh
                   keep_silence w
       = (Raised (FileNotFoundError audio_path), w')
       /\ audio_files w' = audio_files w
       /\ documents w' = documents w
       /\ directories w' = {[ output_dir ]} ∪ directories w)
  /\ (forall output_dir,
        exists w',
          transcribe_long_audio ext self audio_path output_dir language w
          = (Raised (FileNotFoundError audio_path), w')
          /\ audio_files w' = audio_files w
          /\ documents w' = documents w
          /\ directories w'
             = {[ default
                    (os_path_join ext (os_path_dirname ext audio_path)
                       (os_path_splitext ext
                          (os_path_basename ext audio_path)).1)
                    output_dir ]}
               ∪ directories w).
Proof.
  intros Hnone.
  assert (forall output_dir L min_silence_len silence_thresh keep_silence w0,
            audio_files w0 = audio_files w ->
            exists w',
              split_audio ext audio_path output_dir L min_silence_len
                          silence_thresh keep_silence w0
              = (Raised (FileNotFoundError audio_path), w')
              /\ audio_files w' = audio_files w0
              /\ documents w' = documents w0
              /\ directories w' = {[ output_dir ]} ∪ directories w0) as Hsplit.
  { intros output_dir L min_silence_len silence_thresh keep_silence w0 Hsame.
    destruct (ensure_dir_run output_dir w0) as (w1 & Hdir & Haudio & Hdocs & Hdirs).
    exists w1. split; [|done]. unfold split_audio.
    rewrite (bind_returned _ _ _ _ _ Hdir).
    unfold mbind, M_bind, bind, from_file. by rewrite Haudio, Hsame, Hnone. }
  split.
  - intros. by apply Hsplit.
  - intros [output_dir|]; unfold transcribe_long_audio; simpl.
    + rewrite (bind_returned _ _ w output_dir w) by reflexivity.
      destruct (Hsplit output_dir default_chunk_length_ms default_min_silence_len
                  default_silence_thresh default_keep_silence w eq_refl)
        as (w' & Hrun & Hrest).
      exists w'. split; [|done]. unfold mbind, M_bind, bind. by rewrite Hrun.
    + set (output_dir := os_path_join ext _ _).
      destruct (ensure_dir_run output_dir w) as (w1 & Hdir & Haudio & Hdocs & Hdirs).
      rewrite (bind_returned _ _ w output_dir w1)
        by (by rewrite (bind_returned _ _ _ _ _ Hdir)).
      destruct (Hsplit output_dir default_chunk_length_ms default_min_silence_len
                  default_silence_thresh default_keep_silence w1 Haudio)
        as (w' & Hrun & Haudio' & Hdocs' & Hdirs').
      exists w'. split; [unfold mbind, M_bind, bind; by rewrite Hrun|].
      split_and!; [congruence..|].
      rewrite Hdirs', Hdirs. by rewrite (assoc_L (∪)), (idemp_L (∪)).
Qed.

Lemma missing_input_is_fatal_witness :
  exists w',
    transcribe_long_audio Examples.all_heard Examples.transcriber
      "ep/ep_009.mp3" None "zh" Examples.three_chunks
    = (Raised (FileNotFoundError "ep/ep_009.mp3"), w')
    /\ documents w' = documents Examples.three_chunks
    /\ directories w' = {[ "ep/ep_009" ]} ∪ directories Examples.three_chunks.
Proof.
  destruct (proj2 (missing_input_is_fatal Examples.all_heard
                     Examples.transcriber "ep/ep_009.mp3" "zh"
                     Examples.three_chunks ltac:(reflexivity)) None)
    as (w' & Hrun & _ & Hdocs & Hdirs).
  by exists w'.
Defined.

(** ** What the merge keeps of the chunks' transcripts *)

Section Keeps.

Variable ext : Collaborators.
Variable self : WhisperTranscriber.

Lemma filter_is_returned results :
  List.filter is_returned results = map Returned (heard_of results).
Proof.
  induction results as [|[t|e] rest IH]; simpl; [done| |done].
  unfold heard_of in *. simpl. by rewrite IH.
Qed.

(** Shifting segments leaves their texts alone, chunk by chunk. *)
Lemma texts_of_shifted_chunks (offset : nat -> Qc) (heard : list Transcript) :
  map seg_text
    (concat (imap (fun k t =>
                     map (fun s => {| seg_start := seg_start s + offset k;
                                      seg_end := seg_end s + offset k;
                                      seg_text := seg_text s |})
                         (tr_segments t))
                  heard))
  = concat (map (fun t => map seg_text (tr_segments t)) heard).
Proof.
  revert offset. induction heard as [|t rest IH]; intros offset; [done|].
  simpl. rewrite List.map_app, map_map. f_equal. apply (IH (offset ∘ S)).
Qed.

(** The merged list in terms of the recognised chunks alone. *)
Lemma fold_absorb_heard results :
  (fold_left absorb results ([], 0%Qc)).1
  = concat (imap (fun k t =>
                    placed (running_offset (map Returned (take k (heard_of results))))
                           (Returned t))
                 (heard_of results)).
Proof.
  rewrite fold_absorb_skips_failures, filter_is_returned, fold_absorb_placed.
  cbn [fst app].
  change (map Returned (heard_of results)) with (Returned <$> heard_of results).
  rewrite imap_fmap. f_equal. apply imap_ext. intros k t _. cbn [compose].
  unfold running_offset. by rewrite fmap_take.
Qed.

End Keeps.

(** X7.  The merge moves every recognised chunk as a whole: the merged
    segments are the segments of the recognised chunks, chunk after chunk
    and in their order, each chunk with one offset added to all its starts
    and ends.  The offset of a chunk is the running offset of the
    recognised chunks before it, 0 for the first; the chunks that were not
    recognised play no part.  Every text survives the merge, and the
    language reported is the one that was asked for. *)
Theorem merge_shifts_each_chunk_rigidly ext self chunk_files language w :
  let heard := heard_of (chunk_results ext self language w chunk_files) in
  let offset (k : nat) := running_offset (map Returned (take k heard)) in
  exists merged,
    (merge_chunks ext self chunk_files language w).1 = Returned merged
    /\ offset 0%nat = 0%Qc
    /\ tr_segments merged
       = concat (imap (fun k t =>
                         map (fun s => {| seg_start := seg_start s + offset k;
                                          seg_end := seg_end s + offset k;
                                          seg_text := seg_text s |})
                             (tr_segments t))
                      heard)
    /\ map seg_text (tr_segments merged)
       = concat (map (fun t => map seg_text (tr_segments t)) heard)
    /\ tr_language merged = language.
Proof.
  intros heard offset. rewrite merge_chunks_fold.
  eexists. split; [reflexivity|]. cbn [tr_segments tr_language].
  rewrite fold_absorb_heard. fold heard.
  split; [reflexivity|]. split; [reflexivity|]. split; [|reflexivity].
  apply (texts_of_shifted_chunks offset heard).
Qed.

Lemma merge_shifts_each_chunk_rigidly_witness :
  exists merged,
    (merge_chunks Examples.all_heard Examples.transcriber Examples.three_files
       "zh" Examples.three_chunks).1 = Returned merged
    /\ tr_segments merged
       = [Examples.seg 0 10 "a"; Examples.seg 10 20 "b"; Examples.seg 30 40 "c"].
Proof.
  destruct (merge_shifts_each_chunk_rigidly Examples.all_heard
              Examples.transcriber Examples.three_files "zh"
              Examples.three_chunks)
    as (merged & Hrun & _ & Hsegments & _).
  exists merged. split; [exact Hrun|]. rewrite Hsegments. by_evaluation.
Defined.

(** X8.  Up to two recognised chunks.  The segments of the first are
    merged as they were heard; those of the second have the end of the
    first chunk's last segment added to their starts and ends, 0 when the
    first chunk has no segment.  The offset is counted twice only from the
    third recognised chunk on. *)
Theorem up_to_two_chunks_are_placed_as_specified ext self chunk_files language w :
  let heard := heard_of (chunk_results ext self language w chunk_files) in
  (length heard <= 2)%nat ->
  exists merged,
    (merge_chunks ext self chunk_files language w).1 = Returned merged
    /\ tr_segments merged
       = match heard with
         | [] => []
         | first :: others =>
             tr_segments first
             ++ concat
                  (map (fun t =>
                          map (fun s =>
                                 {| seg_start :=
                                      seg_start s + last_end (tr_segments first);
                                    seg_end :=
                                      seg_end s + last_end (tr_segments first);
                                    seg_text := seg_text s |})
                              (tr_segments t))
                       others)
         end.
Proof.
  intros heard Hlen. rewrite merge_chunks_fold. eexists. split; [reflexivity|].
  cbn [tr_segments].
  rewrite fold_absorb_skips_failures, filter_is_returned. fold heard.
  destruct heard as [|t1 [|t2 [|t3 rest]]]; simpl in *; [done| | |lia].
  - by rewrite app_nil_r, map_adjust_timestamps_0.
  - rewrite app_nil_r, map_adjust_timestamps_0.
    unfold last_end. by rewrite !Qcplus_0_l.
Qed.

Lemma up_to_two_chunks_are_placed_as_specified_witness :
  exists merged,
    (merge_chunks Examples.consecutive Examples.transcriber Examples.two_files
       "zh" Examples.three_chunks).1 = Returned merged
    /\ tr_segments merged
       = [Examples.seg 0 4 "a"; Examples.seg 5 9 "b";
          Examples.seg 10 12 "c"; Examples.seg 12 17 "d"].
Proof.
  destruct (up_to_two_chunks_are_placed_as_specified Examples.consecutive
              Examples.transcriber Examples.two_files "zh"
              Examples.three_chunks)
    as (merged & Hrun & Hsegments).
  - vm_compute. lia.
  - exists merged. split; [exact Hrun|]. rewrite Hsegments. by_evaluation.
Defined.

(** ** The documents the merge leaves behind *)

Section ChunkDocuments.

Variable ext : Collaborators.
Variable self : WhisperTranscriber.

Lemma transcribe_chunk_world chunk_path language all_segments total_duration w :
  (transcribe_chunk ext self chunk_path language all_segments total_duration w).2
  = match (transcribe_audio ext self chunk_path language w).1 with
    | Returned result =>
        {| audio_files := audio_files w;
           documents :=
             <[ chunk_md_path ext chunk_path
                := render_markdown ext (as_dict result) ]> (documents w);
           directories := directories w |}
    | Raised _ => w
    end.
Proof.
  unfold transcribe_chunk, mbind, M_bind, bind.
  pose proof (transcribe_audio_store ext self chunk_path language w) as Hstore.
  destruct (transcribe_audio ext self chunk_path language w) as [[result|e] w1];
    cbn [fst snd] in *; subst w1; [|done].
  by rewrite save_transcript_to_markdown_run.
Qed.

Lemma transcribe_chunks_world chunk_files language all_segments total_duration w :
  let w' :=
    (transcribe_chunks ext self chunk_files language all_segments
                       total_duration w).2 in
  let recognised :=
    List.filter
      (fun c => is_returned (transcribe_audio ext self c language w).1)
      chunk_files in
  audio_files w' = audio_files w
  /\ directories w' = directories w
  /\ (forall p,
        p ∉ map (chunk_md_path ext) recognised ->
        documents w' !! p = documents w !! p)
  /\ (NoDup (map (chunk_md_path ext) chunk_files) ->
      forall c result,
        c ∈ chunk_files ->
        (transcribe_audio ext self c language w).1 = Returned result ->
        documents w' !! chunk_md_path ext c
        = Some (render_markdown ext (as_dict result))).
Proof.
  revert all_segments total_duration w.
  induction chunk_files as [|c0 rest IH]; intros all_segments total_duration w.
  - simpl. split_and!; try done. intros _ c result Hc. by apply elem_of_nil in Hc.
  - intros w' recognised.
    pose proof (transcribe_chunk_world c0 language all_segments total_duration w)
      as Hworld.
    destruct (transcribe_chunk_run ext self c0 language all_segments
                total_duration w) as [Hval _].
    subst w'. simpl. unfold mbind, M_bind, bind, try_except, mret, M_ret, ret.
    destruct (transcribe_chunk ext self c0 language all_segments total_duration w)
      as [[acc|e] w1]; simpl in Hworld, Hval.
    + destruct (transcribe_audio ext self c0 language w) as [[result0|e0] w2]
        eqn:Hrun0; simpl in Hworld, Hval; [|discriminate].
      assert (audio_files w1 = audio_files w) as Hsame by (by subst w1).
      destruct (IH acc.1 acc.2 w1) as (Haudio & Hdirs & Hother & Hheld).
      assert (forall c, (transcribe_audio ext self c language w1).1
                        = (transcribe_audio ext self c language w).1) as Hreads.
      { intros c. by apply transcribe_audio_reads_audio. }
      assert (recognised
              = c0 :: List.filter
                        (fun c => is_returned
                                    (transcribe_audio ext self c language w1).1)
                        rest) as Hrec.
      { subst recognised. simpl. rewrite Hrun0. simpl. f_equal.
        apply filter_ext. intros c. by rewrite Hreads. }
      split_and!.
      * by rewrite Haudio, Hsame.
      * rewrite Hdirs. by subst w1.
      * intros p Hp. rewrite Hrec in Hp. simpl in Hp.
        apply not_elem_of_cons in Hp as [Hne Hp].
        rewrite (Hother p Hp). subst w1. simpl. by apply lookup_insert_ne.
      * intros Hnodup c result Hc Hrun. simpl in Hnodup.
        apply NoDup_cons in Hnodup as [Hfresh Hnodup].
        apply elem_of_cons in Hc as [->|Hc].
        -- rewrite Hrun0 in Hrun. simpl in Hrun. injection Hrun as <-.
           rewrite Hother.
           ++ subst w1. simpl. apply lookup_insert_eq.
           ++ intros Hin. apply Hfresh.
              apply list_elem_of_fmap in Hin as (c & Heq & Hin).
              apply list_elem_of_In, filter_In in Hin as [Hin _].
              apply list_elem_of_fmap. exists c. split; [done|].
              by apply list_elem_of_In.
        -- apply (Hheld Hnodup c result Hc). by rewrite Hreads.
    + destruct (transcribe_audio ext self c0 language w) as [[result0|e0] w2]
        eqn:Hrun0; simpl in Hworld, Hval; [discriminate|].
      subst w1.
      destruct (IH all_segments total_duration w) as (Haudio & Hdirs & Hother & Hheld).
      assert (recognised
              = List.filter
                  (fun c => is_returned
                              (transcribe_audio ext self c language w).1)
                  rest) as Hrec.
      { subst recognised. simpl. by rewrite Hrun0. }
      split_and!; try done.
      * intros p Hp. rewrite Hrec in Hp. by apply Hother.
      * intros Hnodup c result Hc Hrun. simpl in Hnodup.
        apply NoDup_cons in Hnodup as [Hfresh Hnodup].
        apply elem_of_cons in Hc as [->|Hc].
        -- rewrite Hrun0 in Hrun. discriminate.
        -- by apply (Hheld Hnodup c result Hc).
Qed.

End ChunkDocuments.

(** X9.  The merge writes one document per recognised chunk, next to the
    chunk and named after it, and nothing else: a chunk that fails leaves no
    document, no audio file or directory changes.  The document of a chunk
    is rendered from the recogniser's own result for that chunk, so its
    timestamps count from the start of the chunk, not of the recording. *)
Theorem merge_leaves_one_document_per_recognised_chunk ext self chunk_files
    language w :
  let w' := (merge_chunks ext self chunk_files language w).2 in
  let recognised :=
    List.filter
      (fun c => is_returned (transcribe_audio ext self c language w).1)
      chunk_files in
  audio_files w' = audio_files w
  /\ directories w' = directories w
  /\ (forall p,
        p ∉ map (chunk_md_path ext) recognised ->
        documents w' !! p = documents w !! p)
  /\ (NoDup (map (chunk_md_path ext) chunk_files) ->
      forall c result,
        c ∈ chunk_files ->
        (transcribe_audio ext self c language w).1 = Returned result ->
        documents w' !! chunk_md_path ext c
        = Some (render_markdown ext (as_dict result))).
Proof.
  intros w' recognised.
  assert (w' = (transcribe_chunks ext self chunk_files language [] 0%Qc w).2)
    as ->.
  { subst w'. unfold merge_chunks. run_monad.
    by destruct (transcribe_chunks ext self chunk_files language [] 0%Qc w)
      as [[acc|e] w1]. }
  apply transcribe_chunks_world.
Qed.

Lemma merge_leaves_one_document_per_recognised_chunk_witness :
  let w' :=
    (merge_chunks Examples.second_fails Examples.transcriber
       Examples.three_files "zh" Examples.three_chunks).2 in
  documents w' !! "ep/ep_002.md" = None
  /\ documents w' !! "ep/ep_003.md"
     = Some (text_lines
               ["# 音频转录"; ""; "## 音频信息"; ""; "- 语言: zh";
                "- 时长: 0分钟3秒"; ""; "## 完整转录文本"; ""; "c"; "";
                "## 带时间戳的分段文本"; ""; "**[00:01-00:03]** c"; ""]).
Proof.
  intros w'.
  destruct (merge_leaves_one_document_per_recognised_chunk
              Examples.second_fails Examples.transcriber Examples.three_files
              "zh" Examples.three_chunks)
    as (_ & _ & Hother & Hheld).
  split.
  - subst w'. rewrite Hother; [reflexivity|]. by_evaluation.
  - subst w'.
    etransitivity;
      [exact (Hheld ltac:(by_evaluation) "ep/ep_003.mp3"
                (Examples.heard [Examples.seg 1 3 "c"])
                ltac:(by_evaluation) ltac:(by_evaluation))|].
    apply (f_equal Some). vm_compute. reflexivity.
Defined.

(** ** Rendered times are whole seconds *)

Section WholeSeconds.

Ltac as_rationals :=
  unfold Qcle, Qclt, Qcdiv, Qcmult, Qcinv, Qcplus, Qcminus, Qcopp, Q2Qc,
    Qc_of_Z in *;
  simpl this in *;
  repeat rewrite !Qred_correct in *.

Lemma floor_unique (x : Q) (k : Z) :
  (inject_Z k <= x)%Q -> (x < inject_Z k + 1)%Q -> Qfloor x = k.
Proof.
  intros Hlo Hhi. destruct (floor_bounds x) as [Flo Fhi].
  assert (inject_Z (Qfloor x) < inject_Z (k + 1))%Q as H1
    by (rewrite inject_Z_plus; change (inject_Z 1) with 1%Q; lra).
  assert (inject_Z k < inject_Z (Qfloor x + 1))%Q as H2
    by (rewrite inject_Z_plus; change (inject_Z 1) with 1%Q; lra).
  rewrite <- Zlt_Qlt in H1, H2. lia.
Qed.

Lemma inject_Z_pos (c : Z) : 0 < c -> (0 < inject_Z c)%Q.
Proof. intros Hc. rewrite Zlt_Qlt in Hc. exact Hc. Qed.

Lemma inject_Z_nonneg (c : Z) : 0 <= c -> (0 <= inject_Z c)%Q.
Proof. intros Hc. rewrite Zle_Qle in Hc. exact Hc. Qed.

Lemma floor_div (x : Q) (c : Z) :
  0 < c -> Qfloor (x / inject_Z c) = Qfloor x / c.
Proof.
  intros Hc. destruct (floor_bounds x) as [Flo Fhi].
  pose proof (inject_Z_pos c Hc) as HcQ.
  pose proof (Z.div_mod (Qfloor x) c ltac:(lia)) as Hdm.
  pose proof (Z.mod_pos_bound (Qfloor x) c Hc) as Hr.
  set (q := Qfloor x / c) in *. set (r := Qfloor x mod c) in *.
  assert (inject_Z (Qfloor x) = inject_Z c * inject_Z q + inject_Z r)%Q as Hn
    by (by rewrite <- inject_Z_mult, <- inject_Z_plus, <- Hdm).
  assert (0 <= inject_Z r)%Q as Hr0 by (apply inject_Z_nonneg; lia).
  assert (inject_Z r + 1 <= inject_Z c)%Q as Hr1.
  { change 1%Q with (inject_Z 1). rewrite <- inject_Z_plus, <- Zle_Qle. lia. }
  apply floor_unique.
  - apply Qle_shift_div_l; [exact HcQ|]. rewrite Hn in Flo.
    rewrite Qmult_comm. lra.
  - apply Qlt_shift_div_r; [exact HcQ|]. rewrite Hn in Fhi.
    rewrite Qmult_plus_distr_l, (Qmult_comm (inject_Z q)). lra.
Qed.

Lemma floor_sub_int (x : Q) (m : Z) : Qfloor (x - inject_Z m) = Qfloor x - m.
Proof.
  destruct (floor_bounds x) as [Flo Fhi].
  apply floor_unique; unfold Z.sub; rewrite inject_Z_plus, inject_Z_opp; lra.
Qed.

Lemma py_int_floor (x : Qc) : (0 ≤ x)%Qc -> Py.int x = Qfloor x.
Proof. intros H0. unfold Py.int. by destruct (decide (0 ≤ x)%Qc). Qed.

Lemma div_nonneg (d : Qc) (c : Z) :
  0 < c -> (0 ≤ d)%Qc -> (0 ≤ d / Qc_of_Z c)%Qc.
Proof.
  intros Hc H0. as_rationals.
  pose proof (inject_Z_pos c Hc) as HcQ.
  apply Qle_shift_div_l; [exact HcQ|]. lra.
Qed.

Lemma int_div (d : Qc) (c : Z) :
  0 < c -> (0 ≤ d)%Qc -> Py.int (d / Qc_of_Z c) = Py.int d / c.
Proof.
  intros Hc H0.
  rewrite (py_int_floor _ (div_nonneg d c Hc H0)), (py_int_floor d H0).
  rewrite <- floor_div by exact Hc.
  as_rationals. reflexivity.
Qed.

Lemma int_mod (d : Qc) (c : Z) :
  0 < c -> (0 ≤ d)%Qc ->
  (0 ≤ Py.mod_ d (Qc_of_Z c))%Qc
  /\ Py.int (Py.mod_ d (Qc_of_Z c)) = Py.int d mod c.
Proof.
  intros Hc H0.
  assert (Qfloor (d / Qc_of_Z c)%Q = Py.int d / c) as Hq.
  { rewrite (py_int_floor d H0), <- floor_div by exact Hc.
    reflexivity. }
  pose proof (py_int_floor d H0) as Hn.
  destruct (floor_bounds d) as [Flo Fhi]. rewrite <- Hn in Flo, Fhi.
  pose proof (Z.div_mod (Py.int d) c ltac:(lia)) as Hdm.
  pose proof (Z.mod_pos_bound (Py.int d) c Hc) as Hr.
  assert (this (Py.mod_ d (Qc_of_Z c))
          == this d - inject_Z (c * (Py.int d / c)))%Q as Hmod.
  { unfold Py.mod_. rewrite Hq. as_rationals. rewrite inject_Z_mult. ring. }
  assert (inject_Z (c * (Py.int d / c)) <= inject_Z (Py.int d))%Q as Hle
    by (rewrite <- Zle_Qle; lia).
  assert (0 ≤ Py.mod_ d (Qc_of_Z c))%Qc as Hnonneg.
  { unfold Qcle. rewrite Hmod. change (this 0%Qc) with 0%Q. lra. }
  split; [exact Hnonneg|].
  rewrite (py_int_floor _ Hnonneg), Hmod, floor_sub_int.
  rewrite <- (py_int_floor d H0). lia.
Qed.

Lemma int_clamp (t : Qc) : (0 ≤ t)%Qc -> Py.int (clamp t) = whole_seconds t.
Proof.
  intros H0. unfold whole_seconds, clamp, Py.min. rewrite max_time_value.
  destruct (decide (Qc_of_Z 36000 < t)%Qc) as [Hlt|Hge].
  - assert (36000 <= Py.int t); [|change (Py.int (Qc_of_Z 36000)) with 36000; lia].
    rewrite (py_int_floor t H0).
    apply Qclt_le_weak in Hlt. unfold Qcle in Hlt. simpl in Hlt.
    apply Qfloor_resp_le in Hlt. by rewrite Qfloor_Z in Hlt.
  - apply Qcnot_lt_le in Hge.
    destruct (py_int_le t 36000 H0 Hge). lia.
Qed.

(** A time is an hour or more exactly when its whole seconds are. *)
Lemma hour_or_more (d : Qc) :
  (0 ≤ d)%Qc ->
  bool_decide (Qc_of_Z 3600 ≤ d)%Qc = (3600 <=? Py.int d).
Proof.
  intros H0. rewrite (py_int_floor d H0).
  destruct (floor_bounds d) as [Flo Fhi].
  destruct (3600 <=? Qfloor d) eqn:Hcmp.
  - apply bool_decide_eq_true. apply Z.leb_le in Hcmp.
    rewrite Zle_Qle in Hcmp. unfold Qcle. simpl. lra.
  - apply bool_decide_eq_false. apply Z.leb_gt in Hcmp. intros Hle.
    unfold Qcle in Hle. simpl in Hle.
    apply Qfloor_resp_le in Hle. rewrite Qfloor_Z in Hle. lia.
Qed.

Lemma hh_mm_ss_clock (d : Qc) : (0 ≤ d)%Qc -> hh_mm_ss d = clock_long (Py.int d).
Proof.
  intros H0. unfold hh_mm_ss, clock_long.
  destruct (int_mod d 3600 ltac:(lia) H0) as [Hm0 Hm].
  destruct (int_mod d 60 ltac:(lia) H0) as [_ Hs].
  by rewrite (int_div d 3600), (int_div _ 60), Hm, Hs by (lia || done).
Qed.

Lemma mm_ss_clock (d : Qc) : (0 ≤ d)%Qc -> mm_ss d = clock_short (Py.int d).
Proof.
  intros H0. unfold mm_ss, clock_short.
  destruct (int_mod d 60 ltac:(lia) H0) as [_ Hs].
  by rewrite (int_div d 60), Hs by (lia || done).
Qed.

Lemma hms_text_duration (d : Qc) :
  (0 ≤ d)%Qc -> hms_text d = duration_text (Py.int d).
Proof.
  intros H0. unfold hms_text, duration_text.
  destruct (int_mod d 3600 ltac:(lia) H0) as [Hm0 Hm].
  destruct (int_mod d 60 ltac:(lia) H0) as [_ Hs].
  by rewrite (int_div d 3600), (int_div _ 60), Hm, Hs by (lia || done).
Qed.

End WholeSeconds.

(** X10.  What the renderer prints of a non-negative time depends on its
    whole seconds alone: the time is cut to a whole number of seconds (never
    rounded up) and capped at 36000, and hours, minutes and seconds are the
    integer quotients and remainders of that number.  The long form is
    chosen exactly when one endpoint has 3600 whole seconds or more. *)
Theorem rendered_times_are_whole_seconds segment last_end :
  (0 ≤ seg_start segment)%Qc -> (0 ≤ seg_end segment)%Qc -> (0 ≤ last_end)%Qc ->
  let a := whole_seconds (seg_start segment) in
  let b := whole_seconds (seg_end segment) in
  format_times segment
  = (if (3600 <=? a) || (3600 <=? b)
     then (clock_long a, clock_long b)
     else (clock_short a, clock_short b))
  /\ duration_str last_end = duration_text (whole_seconds last_end).
Proof.
  intros Hs He Hl a b. subst a b.
  pose proof (clamp_nonneg _ Hs) as Hcs. pose proof (clamp_nonneg _ He) as Hce.
  pose proof (clamp_nonneg _ Hl) as Hcl.
  rewrite <- !int_clamp by done. split.
  - rewrite <- !hour_or_more by done.
    destruct (bool_decide _ || bool_decide _) eqn:Htest.
    + rewrite format_times_long.
      * by rewrite !hh_mm_ss_clock.
      * rewrite <- (clamp_hour (seg_start segment)), <- (clamp_hour (seg_end segment)).
        apply orb_true_iff in Htest as [H|H]; apply bool_decide_eq_true in H; tauto.
    + rewrite format_times_short.
      * by rewrite !mm_ss_clock.
      * rewrite <- (clamp_hour (seg_start segment)), <- (clamp_hour (seg_end segment)).
        apply orb_false_iff in Htest as [H1 H2].
        apply bool_decide_eq_false in H1, H2. tauto.
  - by rewrite duration_str_hms_text, hms_text_duration.
Qed.

Lemma rendered_times_are_whole_seconds_witness :
  format_times (Examples.seg 59 3725 "a") = ("00:00:59", "01:02:05")
  /\ duration_str (Qc_of_Z 3725) = "1小时2分钟5秒".
Proof.
  exact (rendered_times_are_whole_seconds (Examples.seg 59 3725 "a")
           (Qc_of_Z 3725) ltac:(by_evaluation) ltac:(by_evaluation)
           ltac:(by_evaluation)).
Defined.

(** * The link reader *)

(** ** Substrings and [split] *)

Section Strings.

Lemma prefix_spec (a s : string) :
  String.prefix a s = true <-> exists t, s = a +:+ t.
Proof.
  revert s. induction a as [|c a IH]; intros s.
  - split; [intros _; by exists s|intros _; by destruct s].
  - destruct s as [|d s]; simpl.
    + split; [done|]. intros [t Ht]. discriminate.
    + destruct (ascii_dec c d) as [->|Hne].
      * rewrite IH. split; intros [t Ht]; exists t.
        -- by rewrite Ht.
        -- by injection Ht.
      * split; [done|]. intros [t Ht]. injection Ht as ? ?. congruence.
Qed.

Lemma prefix_nil (s : string) : String.prefix "" s = true.
Proof. by destruct s. Qed.

Lemma contains_step (needle : string) c s :
  PyStr.contains needle (String c s)
  = String.prefix needle (String c s) || PyStr.contains needle s.
Proof. reflexivity. Qed.

Lemma split_from_step (sep : string) c rest field :
  PyStr.split_from sep (String c rest) 0 field
  = if String.prefix sep (String c rest)
    then field :: PyStr.split_from sep rest (String.length sep - 1) ""
    else PyStr.split_from sep rest 0 (field +:+ String c "").
Proof. reflexivity. Qed.

Lemma split_from_skip (sep : string) c rest skip field :
  PyStr.split_from sep (String c rest) (S skip) field
  = PyStr.split_from sep rest skip field.
Proof. reflexivity. Qed.

(** [needle in s] holds exactly when [s] has [needle] somewhere in it. *)
Lemma contains_spec (needle s : string) :
  PyStr.contains needle s = true
  <-> exists before after, s = before +:+ needle +:+ after.
Proof.
  induction s as [|c s IH].
  - change (PyStr.contains needle "") with (String.prefix needle "" || false).
    rewrite orb_false_r, prefix_spec. split.
    + intros [t Ht]. by exists "", t.
    + intros ([|? ?] & after & Ht); [by exists after|discriminate].
  - rewrite contains_step, orb_true_iff, prefix_spec, IH. split.
    + intros [[t Ht]|(before & after & Ht)].
      * by exists "", t.
      * exists (String c before), after. by rewrite Ht.
    + intros ([|d before] & after & Ht).
      * left. by exists after.
      * right. injection Ht as -> Ht. by exists before, after.
Qed.

Lemma contains_suffix (a b s : string) :
  PyStr.contains (a +:+ b) s = true -> PyStr.contains b s = true.
Proof.
  rewrite !contains_spec. intros (before & after & ->).
  exists (before +:+ a), after. by rewrite !append_assoc.
Qed.

Lemma split_from_cons (sep s : string) skip field :
  exists first others, PyStr.split_from sep s skip field = first :: others.
Proof.
  revert skip field. induction s as [|c s IH]; intros skip field.
  - by exists field, [].
  - destruct skip as [|skip]; [|rewrite split_from_skip; apply IH].
    rewrite split_from_step.
    destruct (String.prefix sep (String c s)); [by eexists _, _|apply IH].
Qed.

(** A string that has the separator in it splits into two fields at
    least. *)
Lemma split_from_second (sep s field : string) :
  sep <> "" -> PyStr.contains sep s = true ->
  exists first second others,
    PyStr.split_from sep s 0 field = first :: second :: others.
Proof.
  intros Hsep. revert field. induction s as [|c s IH]; intros field Hin.
  - destruct sep; [done|discriminate].
  - rewrite contains_step in Hin. rewrite split_from_step.
    destruct (String.prefix sep (String c s)) eqn:Hprefix.
    + destruct (split_from_cons sep s (String.length sep - 1) "")
        as (second & others & ->).
      by eexists _, _, _.
    + by apply IH.
Qed.

(** The field being read is a prefix of the first field returned. *)
Lemma split_from_field (sep s field : string) :
  exists first others,
    PyStr.split_from sep s 0 "" = first :: others
    /\ PyStr.split_from sep s 0 field = (field +:+ first) :: others.
Proof.
  revert field. induction s as [|c s IH]; intros field.
  - exists "", []. simpl. by rewrite append_nil_r.
  - rewrite !split_from_step. destruct (String.prefix sep (String c s)).
    + eexists "", _. by rewrite append_nil_r.
    + destruct (IH (String c "")) as (first & others & Hnil & Hc).
      destruct (IH (field +:+ String c "")) as (first' & others' & Hnil' & Hfc).
      rewrite Hnil in Hnil'. injection Hnil' as <- <-.
      exists (String c first), others. split; [exact Hc|].
      rewrite Hfc. by rewrite append_assoc.
Qed.

(** Characters that cannot start a separator are read into the field. *)
Lemma split_from_reads (c0 : ascii) (sep' x s field : string) :
  PyStr.contains (String c0 "") x = false ->
  PyStr.split_from (String c0 sep') (x +:+ s) 0 field
  = PyStr.split_from (String c0 sep') s 0 (field +:+ x).
Proof.
  revert field. induction x as [|c x IH]; intros field Hfree.
  - by rewrite append_nil_r.
  - rewrite contains_step in Hfree.
    apply orb_false_iff in Hfree as [Hc Hx].
    change (String c x +:+ s) with (String c (x +:+ s)).
    assert (c0 <> c) as Hne.
    { intros ->. simpl in Hc. destruct (ascii_dec c c); [by destruct x|done]. }
    rewrite split_from_step. simpl String.prefix.
    destruct (ascii_dec c0 c) as [?|_]; [done|].
    rewrite (IH _ Hx). f_equal.
    rewrite append_assoc. reflexivity.
Qed.

Lemma split_from_skips (sep a s field : string) :
  PyStr.split_from sep (a +:+ s) (String.length a) field
  = PyStr.split_from sep s 0 field.
Proof.
  induction a as [|c a IH]; [done|].
  change (String c a +:+ s) with (String c (a +:+ s)).
  change (String.length (String c a)) with (S (String.length a)).
  by rewrite split_from_skip.
Qed.

(** At a separator the field ends and the scan goes on behind it. *)
Lemma split_from_separator (sep s field : string) :
  sep <> "" ->
  PyStr.split_from sep (sep +:+ s) 0 field
  = field :: PyStr.split_from sep s 0 "".
Proof.
  intros Hsep. destruct sep as [|c0 sep']; [done|].
  assert (String.prefix (String c0 sep') (String c0 sep' +:+ s) = true) as Hp
    by (apply prefix_spec; by exists s).
  change (String c0 sep' +:+ s) with (String c0 (sep' +:+ s)) in *.
  rewrite split_from_step, Hp. f_equal.
  replace (String.length (String c0 sep') - 1)%nat with (String.length sep')
    by (simpl; lia).
  apply split_from_skips.
Qed.

Lemma prefix_shorter (a y z : string) :
  (String.length a <= String.length y)%nat ->
  String.prefix a (y +:+ z) = true -> String.prefix a y = true.
Proof.
  revert y. induction a as [|c a IH]; intros y Hlen Hp; [by destruct y|].
  destruct y as [|d y]; simpl in Hlen; [lia|].
  change (String d y +:+ z) with (String d (y +:+ z)) in Hp.
  simpl in *. destruct (ascii_dec c d); [|done].
  apply IH; [lia|done].
Qed.

(** The text in front of the first separator is the first field. *)
Lemma split_from_first (sep start last before s field : string) :
  sep = start +:+ last -> String.length last = 1%nat ->
  PyStr.contains sep (before +:+ start) = false ->
  PyStr.split_from sep (before +:+ sep +:+ s) 0 field
  = (field +:+ before) :: PyStr.split_from sep s 0 "".
Proof.
  intros Hsep Hlast. revert field.
  assert (sep <> "") as Hne.
  { intros ->. destruct start; [|discriminate].
    change ("" +:+ last) with last in Hsep. by subst last. }
  induction before as [|c before IH]; intros field Hfree.
  - change ("" +:+ sep +:+ s) with (sep +:+ s).
    rewrite append_nil_r. by apply split_from_separator.
  - change (String c before +:+ start) with (String c (before +:+ start))
      in Hfree.
    rewrite contains_step in Hfree.
    apply orb_false_iff in Hfree as [Hhere Hlater].
    change (String c before +:+ sep +:+ s)
      with (String c (before +:+ sep +:+ s)).
    assert (String.prefix sep (String c (before +:+ sep +:+ s)) = false) as Hp.
    { apply not_true_is_false. intros Hp. apply not_true_iff_false in Hhere.
      apply Hhere.
      apply (prefix_shorter sep (String c (before +:+ start)) (last +:+ s)).
      - rewrite Hsep. simpl. rewrite !string_length_append, Hlast. lia.
      - change (String c (before +:+ start) +:+ last +:+ s)
          with (String c ((before +:+ start) +:+ last +:+ s)).
        by rewrite append_assoc, <- (append_assoc start), <- Hsep. }
    rewrite split_from_step, Hp, (IH _ Hlater). by rewrite append_assoc.
Qed.

(** No field of a split by a one-character separator has that character. *)
Lemma split_from_char_free (c0 : ascii) (s field : string) :
  PyStr.contains (String c0 "") field = false ->
  Forall (fun part => PyStr.contains (String c0 "") part = false)
         (PyStr.split_from (String c0 "") s 0 field).
Proof.
  revert field. induction s as [|c s IH]; intros field Hfree.
  - by apply Forall_singleton.
  - rewrite split_from_step. simpl String.prefix.
    destruct (ascii_dec c0 c) as [->|Hne].
    + rewrite prefix_nil. apply Forall_cons. split; [exact Hfree|].
      by apply IH.
    + apply IH. apply not_true_is_false. intros Hin.
      apply contains_spec in Hin as (before & after & Heq).
      apply not_true_iff_false in Hfree. apply Hfree.
      apply contains_spec.
      assert (forall (x y : string) (d e : ascii) z,
                d <> e -> x +:+ String e "" = y +:+ String d z ->
                exists z', x = y +:+ String d z') as Hcut.
      { clear. induction x as [|a x IHx]; intros y d e z Hde Heq.
        - destruct y as [|b y]; simpl in Heq.
          + injection Heq as ? ?. congruence.
          + injection Heq as _ Heq. by destruct y.
        - destruct y as [|b y]; simpl in Heq.
          + injection Heq as -> Heq. simpl. by eexists.
          + injection Heq as -> Heq.
            destruct (IHx y d e z Hde Heq) as [z' ->]. by exists z'. }
      destruct (Hcut field before c0 c after Hne Heq) as [z' ->].
      by exists before, z'.
Qed.

End Strings.

(** ** Episode identifiers *)

Section EpisodeIds.

Lemma split_head (sep s : string) :
  sep <> "" ->
  exists first others,
    PyStr.split sep s = Some (first :: others)
    /\ PyStr.split_from sep s 0 "" = first :: others.
Proof.
  intros Hsep. unfold PyStr.split.
  rewrite bool_decide_eq_false_2 by exact Hsep.
  destruct (split_from_cons sep s 0 "") as (first & others & ->).
  by exists first, others.
Qed.

(** The expression of line 98 has a value whenever the link has
    ["/episode/"] in it, and the value has no ["?"] in it. *)
Lemma episode_id_of_some (link : string) :
  PyStr.contains "/episode/" link = true ->
  exists episode_id,
    CsvReader.episode_id_of link = Some episode_id
    /\ PyStr.contains "?" episode_id = false.
Proof.
  intros Hin. unfold CsvReader.episode_id_of, PyStr.split.
  rewrite !bool_decide_eq_false_2 by discriminate.
  destruct (split_from_second "/episode/" link "" ltac:(discriminate) Hin)
    as (first & second & others & ->).
  simpl. 
  pose proof (split_from_char_free "?" second "" eq_refl) as Hfree.
  destruct (split_from_cons "?" second 0 "") as (episode_id & fields & Hsplit).
  rewrite Hsplit in *. simpl. exists episode_id. split; [done|].
  by apply Forall_cons in Hfree as [? _].
Qed.

Lemma valid_link_has_episode (link : string) :
  PyStr.contains "xiaoyuzhoufm.com/episode/" link = true ->
  PyStr.contains "/episode/" link = true.
Proof. apply (contains_suffix "xiaoyuzhoufm.com" "/episode/"). Qed.

Lemma valid_links_valid (cells : CsvReader.Series) :
  Forall (fun link => PyStr.contains "xiaoyuzhoufm.com/episode/" link = true)
         (CsvReader.valid_links cells).
Proof.
  induction cells as [|cell cells IH]; [by apply Forall_nil|].
  unfold CsvReader.valid_links in *. simpl.
  destruct cell as [|s|x]; simpl; try exact IH.
  destruct (PyStr.contains "xiaoyuzhoufm.com/episode/" s) eqn:Hs; simpl;
    [|exact IH].
  by apply Forall_cons.
Qed.

(** The loop of lines 94-103 over links that all have ["/episode/"] in
    them appends one identifier per link. *)
Lemma extract_loop (found episode_ids : list string) :
  Forall (fun link => PyStr.contains "/episode/" link = true) found ->
  exists ids,
    fold_left
      (fun episode_ids link =>
         if PyStr.contains "/episode/" link then
           match CsvReader.episode_id_of link with
           | Some episode_id => episode_ids ++ [episode_id]
           | None => episode_ids
           end
         else episode_ids)
      found episode_ids
    = episode_ids ++ ids
    /\ Forall2 (fun link episode_id =>
                  CsvReader.episode_id_of link = Some episode_id
                  /\ PyStr.contains "?" episode_id = false)
               found ids.
Proof.
  intros Hall. revert episode_ids.
  induction Hall as [|link found Hlink _ IH]; intros episode_ids.
  - exists []. simpl. rewrite app_nil_r. split; [done|]. constructor.
  - simpl. rewrite Hlink.
    destruct (episode_id_of_some link Hlink) as (episode_id & Hid & Hfree).
    rewrite Hid.
    destruct (IH (episode_ids ++ [episode_id])) as (ids & -> & Hids).
    exists (episode_id :: ids). rewrite <- app_assoc. split; [done|].
    by constructor.
Qed.

Lemma detect_getitem (df : CsvReader.DataFrame) (column_name : string) :
  CsvReader.detect df = Some column_name ->
  exists series, CsvReader.getitem df column_name = Some series.
Proof.
  unfold CsvReader.detect, CsvReader.getitem.
  induction df as [|[label series] df IH]; simpl; [done|].
  destruct (CsvReader.is_str_with "xiaoyuzhoufm.com"
              (CsvReader.first_value series)); simpl.
  - intros [= ->]. rewrite bool_decide_eq_true_2 by done. by eexists.
  - intros Hlater. destruct (bool_decide (label = column_name)); simpl.
    + by eexists.
    + by apply IH.
Qed.

End EpisodeIds.

(** X11.  The identifier taken from an episode address is what stands
    between the first ["/episode/"] and the query string: for a link made of
    a site, ["/episode/"], an identifier with no ["/"] and no ["?"] in it
    and, optionally, a query introduced by ["?"], it is that identifier. *)
Theorem episode_id_round_trip (site episode_id tail : string) :
  PyStr.contains "/episode/" (site +:+ "/episode") = false ->
  PyStr.contains "/" episode_id = false ->
  PyStr.contains "?" episode_id = false ->
  tail = "" \/ (exists query, tail = "?" +:+ query) ->
  CsvReader.episode_id_of (site +:+ "/episode/" +:+ episode_id +:+ tail)
  = Some episode_id.
Proof.
  intros Hsite Hslash Hquery Htail.
  unfold CsvReader.episode_id_of, PyStr.split.
  rewrite !bool_decide_eq_false_2 by discriminate.
  rewrite (split_from_first "/episode/" "/episode" "/" site
             (episode_id +:+ tail) "" eq_refl eq_refl Hsite).
  simpl.
  rewrite (split_from_reads "/" "episode/" episode_id tail "" Hslash).
  change ("" +:+ episode_id) with episode_id.
  destruct (split_from_field "/episode/" tail episode_id)
    as (first & others & Hfirst & ->).
  simpl. rewrite (split_from_reads "?" "" episode_id first "" Hquery).
  change ("" +:+ episode_id) with episode_id.
  destruct (split_from_field "?" first episode_id)
    as (first' & others' & Hfirst' & ->).
  simpl. f_equal.
  assert (first' = "") as ->; [|apply append_nil_r].
  destruct Htail as [->|[query ->]].
  - simpl in Hfirst. injection Hfirst as <- <-.
    simpl in Hfirst'. by injection Hfirst' as <- <-.
  - rewrite (split_from_reads "/" "episode/" "?" query "" eq_refl) in Hfirst.
    destruct (split_from_field "/episode/" query ("" +:+ "?"))
      as (rest & others'' & _ & Hq).
    rewrite Hq in Hfirst. injection Hfirst as <- <-.
    change (("" +:+ "?") +:+ rest) with ("?" +:+ rest) in Hfirst'.
    rewrite (split_from_separator "?" rest "" ltac:(discriminate)) in Hfirst'.
    by injection Hfirst' as <- <-.
Qed.

Lemma episode_id_round_trip_witness :
  CsvReader.episode_id_of
    ("https://www.xiaoyuzhoufm.com" +:+ "/episode/"
     +:+ "67f51aedf9578163d6d17090" +:+ "?s=eyJ1")
  = Some "67f51aedf9578163d6d17090".
Proof.
  apply episode_id_round_trip; [reflexivity..|].
  right. by exists "s=eyJ1".
Defined.

(** X12.  After [read_links] has returned, [extract_episode_ids] yields
    exactly one identifier per link, in the order of the links: every link
    [read_links] keeps has ["/episode/"] in it, so none is passed over and
    the expression of line 98 never raises.  Pairing the two lists, as the
    workflow does, pairs each link with its own identifier; no identifier
    has a ["?"] in it. *)
Theorem ids_are_aligned_with_links
    (files : gmap string (CsvReader.result CsvReader.DataFrame)) self
    column_name found self' :
  CsvReader.read_links files self column_name = (CsvReader.Ok found, self') ->
  CsvReader.links self' = found
  /\ Forall (fun link => PyStr.contains "xiaoyuzhoufm.com/episode/" link = true)
            found
  /\ Forall2 (fun link episode_id =>
                CsvReader.episode_id_of link = Some episode_id
                /\ PyStr.contains "?" episode_id = false)
             found (CsvReader.extract_episode_ids self').
Proof.
  intros Hread. unfold CsvReader.read_links in Hread.
  destruct (files !! CsvReader.csv_file_path self) as [[df|e]|]; try discriminate.
  destruct (match column_name with
            | Some column_name => Some column_name
            | None => CsvReader.detect df
            end) as [column|]; [|discriminate].
  destruct (CsvReader.getitem df column) as [series|]; [|discriminate].
  injection Hread as <- <-. simpl.
  pose proof (valid_links_valid (CsvReader.dropna series)) as Hvalid.
  split_and!; [done..|].
  unfold CsvReader.extract_episode_ids. simpl.
  destruct (CsvReader.valid_links (CsvReader.dropna series)) as [|link found]
    eqn:Hfound.
  - simpl. constructor.
  - rewrite bool_decide_eq_false_2 by discriminate.
    destruct (extract_loop (link :: found) []) as (ids & -> & Hids); [|done].
    eapply Forall_impl; [exact Hvalid|]. apply valid_link_has_episode.
Qed.

Lemma ids_are_aligned_with_links_witness :
  Forall2 (fun link episode_id =>
             CsvReader.episode_id_of link = Some episode_id
             /\ PyStr.contains "?" episode_id = false)
          ["https://www.xiaoyuzhoufm.com/episode/abc?s=1";
           "http://xiaoyuzhoufm.com/episode/def"]
          (CsvReader.extract_episode_ids
             {| CsvReader.csv_file_path := "links.csv";
                CsvReader.links :=
                  ["https://www.xiaoyuzhoufm.com/episode/abc?s=1";
                   "http://xiaoyuzhoufm.com/episode/def"] |}).
Proof.
  apply (ids_are_aligned_with_links
           {[ "links.csv" :=
                CsvReader.Ok
                  [("url",
                    [CsvReader.Str "https://www.xiaoyuzhoufm.com/episode/abc?s=1";
                     CsvReader.Str "https://example.com/episode/no";
                     CsvReader.NaN;
                     CsvReader.Str "http://xiaoyuzhoufm.com/episode/def"])] ]}
           (CsvReader.init "links.csv") (Some "url")).
  reflexivity.
Defined.

(** ** Reading the links *)

Section ReadLinks.

Lemma getitem_unique (before after : CsvReader.DataFrame) column series :
  NoDup (map fst (before ++ (column, series) :: after)) ->
  CsvReader.getitem (before ++ (column, series) :: after) column = Some series.
Proof.
  unfold CsvReader.getitem.
  induction before as [|[label cells] before IH]; simpl; intros Hnodup.
  - by rewrite bool_decide_eq_true_2.
  - apply NoDup_cons in Hnodup as [Hfresh Hnodup].
    rewrite bool_decide_eq_false_2; [by apply IH|].
    intros ->. apply Hfresh. rewrite List.map_app. simpl.
    apply elem_of_app. right. apply elem_of_cons. by left.
Qed.

Lemma detect_first (before after : CsvReader.DataFrame) column series :
  Forall (fun c => CsvReader.is_str_with "xiaoyuzhoufm.com"
                     (CsvReader.first_value c.2) = false) before ->
  CsvReader.is_str_with "xiaoyuzhoufm.com" (CsvReader.first_value series) = true ->
  CsvReader.detect (before ++ (column, series) :: after) = Some column.
Proof.
  intros Hbefore Hhere. unfold CsvReader.detect.
  induction Hbefore as [|c before Hc _ IH]; simpl.
  - by rewrite Hhere.
  - by rewrite Hc.
Qed.

Lemma detect_none (df : CsvReader.DataFrame) :
  Forall (fun c => CsvReader.is_str_with "xiaoyuzhoufm.com"
                     (CsvReader.first_value c.2) = false) df ->
  CsvReader.detect df = None.
Proof.
  intros Hall. unfold CsvReader.detect.
  induction Hall as [|c df Hc _ IH]; simpl; [done|]. by rewrite Hc.
Qed.

End ReadLinks.

(** X13.  Which column [read_links] reads when none is named.  Only the
    first value of a column that is not missing is looked at: the column
    read is the first one whose first value is a string with the site's
    name in it, whatever the other columns hold further down, and its links
    are the strings of that column with an episode address in them, in
    row order, missing cells and other objects dropped.  When no column
    starts that way the call raises a [ValueError] and the links held by the
    reader stay as they were. *)
Theorem auto_detection_reads_first_values
    (files : gmap string (CsvReader.result CsvReader.DataFrame)) self
    (df : CsvReader.DataFrame) :
  files !! CsvReader.csv_file_path self = Some (CsvReader.Ok df) ->
  NoDup (map fst df) ->
  (forall before column series after,
     df = before ++ (column, series) :: after ->
     Forall (fun c => CsvReader.is_str_with "xiaoyuzhoufm.com"
                        (CsvReader.first_value c.2) = false) before ->
     CsvReader.is_str_with "xiaoyuzhoufm.com" (CsvReader.first_value series)
     = true ->
     CsvReader.read_links files self None
     = (CsvReader.Ok (CsvReader.valid_links (CsvReader.dropna series)),
        {| CsvReader.csv_file_path := CsvReader.csv_file_path self;
           CsvReader.links := CsvReader.valid_links (CsvReader.dropna series) |}))
  /\ (Forall (fun c => CsvReader.is_str_with "xiaoyuzhoufm.com"
                         (CsvReader.first_value c.2) = false) df ->
      exists msg,
        CsvReader.read_links files self None
        = (CsvReader.Raise (CsvReader.ValueError msg), self)).
Proof.
  intros Hfile Hnodup. split.
  - intros before column series after -> Hbefore Hhere.
    unfold CsvReader.read_links. rewrite Hfile.
    rewrite (detect_first before after column series Hbefore Hhere).
    by rewrite (getitem_unique before after column series Hnodup).
  - intros Hall. unfold CsvReader.read_links.
    rewrite Hfile, (detect_none df Hall). by eexists.
Qed.

Lemma auto_detection_reads_first_values_witness :
  CsvReader.read_links
    {[ "links.csv" :=
         CsvReader.Ok
           [("title", [CsvReader.Str "one"; CsvReader.Str "two"]);
            ("url",
             [CsvReader.NaN;
              CsvReader.Str "https://www.xiaoyuzhoufm.com/episode/abc?s=1";
              CsvReader.Num 7;
              CsvReader.Str "https://www.xiaoyuzhoufm.com/podcast/xyz"])] ]}
    (CsvReader.init "links.csv") None
  = (CsvReader.Ok ["https://www.xiaoyuzhoufm.com/episode/abc?s=1"],
     {| CsvReader.csv_file_path := "links.csv";
        CsvReader.links := ["https://www.xiaoyuzhoufm.com/episode/abc?s=1"] |}).
Proof.
  exact (proj1 (auto_detection_reads_first_values
                  {[ "links.csv" :=
                       CsvReader.Ok
                         [("title", [CsvReader.Str "one"; CsvReader.Str "two"]);
                          ("url",
                           [CsvReader.NaN;
                            CsvReader.Str
                              "https://www.xiaoyuzhoufm.com/episode/abc?s=1";
                            CsvReader.Num 7;
                            CsvReader.Str
                              "https://www.xiaoyuzhoufm.com/podcast/xyz"])] ]}
                  (CsvReader.init "links.csv")
                  [("title", [CsvReader.Str "one"; CsvReader.Str "two"]);
                   ("url",
                    [CsvReader.NaN;
                     CsvReader.Str "https://www.xiaoyuzhoufm.com/episode/abc?s=1";
                     CsvReader.Num 7;
                     CsvReader.Str "https://www.xiaoyuzhoufm.com/podcast/xyz"])]
                  eq_refl ltac:(by_evaluation))
           [("title", [CsvReader.Str "one"; CsvReader.Str "two"])]
           "url"
           [CsvReader.NaN;
            CsvReader.Str "https://www.xiaoyuzhoufm.com/episode/abc?s=1";
            CsvReader.Num 7;
            CsvReader.Str "https://www.xiaoyuzhoufm.com/podcast/xyz"]
           [] eq_refl ltac:(by_evaluation) eq_refl).
Defined.

(** X14.  How [read_links] fails.  A path that does not exist is a
    [FileNotFoundError]; a named column the table does not have is a
    [KeyError]; and whatever the exception, the links the reader holds are
    the ones it held before, so a later [extract_episode_ids] still answers
    with the identifiers of the previous read. *)
Theorem read_links_failures_keep_the_links
    (files : gmap string (CsvReader.result CsvReader.DataFrame)) self
    column_name :
  (files !! CsvReader.csv_file_path self = None ->
   exists msg,
     CsvReader.read_links files self column_name
     = (CsvReader.Raise (CsvReader.FileNotFoundError msg), self))
  /\ (forall (df : CsvReader.DataFrame) column,
        files !! CsvReader.csv_file_path self = Some (CsvReader.Ok df) ->
        column_name = Some column ->
        CsvReader.getitem df column = None ->
        CsvReader.read_links files self column_name
        = (CsvReader.Raise (CsvReader.KeyError column), self))
  /\ (forall e self',
        CsvReader.read_links files self column_name = (CsvReader.Raise e, self') ->
        self' = self
        /\ CsvReader.extract_episode_ids self'
           = CsvReader.extract_episode_ids self).
Proof.
  unfold CsvReader.read_links. split_and!.
  - intros ->. by eexists.
  - intros df column -> -> Hnone. by rewrite Hnone.
  - intros e self'.
    destruct (files !! CsvReader.csv_file_path self) as [[df|e0]|];
      [|by intros [= <- <-]..].
    destruct (match column_name with
              | Some column_name => Some column_name
              | None => CsvReader.detect df
              end) as [column|]; [|by intros [= <- <-]].
    destruct (CsvReader.getitem df column) as [series|]; [done|].
    by intros [= <- <-].
Qed.

(** * The workflow *)

Section WorkflowRuns.

Variable ext : Collaborators.
Variable services : Workflow.Services.

Lemma ensure_dir_present d w :
  d ∈ directories w -> ensure_dir d w = (Returned tt, w).
Proof. intros Hin. unfold ensure_dir. by rewrite decide_True. Qed.

(** No exception leaves the loop over the episodes. *)
Lemma process_episodes_returns self dirs pairs w :
  exists w', Workflow.process_episodes ext services self dirs pairs w
             = (Returned tt, w').
Proof.
  revert w. induction pairs as [|[link episode_id] rest IH]; intros w.
  - by exists w.
  - simpl. unfold mbind, M_bind, bind, try_except, mret, M_ret, ret.
    destruct (Workflow.process_episode ext services self dirs link episode_id w)
      as [[[]|e] w1]; apply IH.
Qed.

(** After [create_directory_structure] the download directory exists. *)
Lemma directory_structure_prepared base_dir w :
  exists dirs w',
    Workflow.create_directory_structure ext base_dir w = (Returned dirs, w')
    /\ Workflow.mp3 dirs ∈ directories w'.
Proof.
  set (dirs :=
         {| Workflow.mp3 := os_path_join ext base_dir "mp3_files";
            Workflow.transcripts := os_path_join ext base_dir "transcripts";
            Workflow.temp := os_path_join ext base_dir "temp" |}).
  destruct (ensure_dir_run (Workflow.mp3 dirs) w)
    as (w1 & Hrun1 & _ & _ & Hdirs1).
  destruct (ensure_dir_run (Workflow.transcripts dirs) w1)
    as (w2 & Hrun2 & _ & _ & Hdirs2).
  destruct (ensure_dir_run (Workflow.temp dirs) w2)
    as (w3 & Hrun3 & _ & _ & Hdirs3).
  exists dirs, w3. unfold Workflow.create_directory_structure. fold dirs.
  rewrite (bind_returned _ _ _ _ _ Hrun1), (bind_returned _ _ _ _ _ Hrun2).
  rewrite (bind_returned _ _ _ _ _ Hrun3). split; [done|].
  rewrite Hdirs3, Hdirs2, Hdirs1, !elem_of_union, !elem_of_singleton. tauto.
Qed.

Lemma directory_structure_is_known base_dir w :
  exists w',
    Workflow.create_directory_structure ext base_dir w
    = (Returned
         {| Workflow.mp3 := os_path_join ext base_dir "mp3_files";
            Workflow.transcripts := os_path_join ext base_dir "transcripts";
            Workflow.temp := os_path_join ext base_dir "temp" |},
       w').
Proof.
  unfold Workflow.create_directory_structure.
  set (dirs := {| Workflow.mp3 := _ |}).
  destruct (ensure_dir_run (Workflow.mp3 dirs) w) as (w1 & Hrun1 & _).
  destruct (ensure_dir_run (Workflow.transcripts dirs) w1) as (w2 & Hrun2 & _).
  destruct (ensure_dir_run (Workflow.temp dirs) w2) as (w3 & Hrun3 & _).
  exists w3.
  rewrite (bind_returned _ _ _ _ _ Hrun1), (bind_returned _ _ _ _ _ Hrun2).
  by rewrite (bind_returned _ _ _ _ _ Hrun3).
Qed.

End WorkflowRuns.

(** X16.  What can make [process_podcast_links] fail.  An exception of the
    reader leaves the workflow as it is, after the directories were made and
    before the model is loaded or any episode is touched.  Once the links
    are read, no episode can make the workflow fail: an exception that
    leaves it was raised by loading the model or by closing the extractor;
    if these two return, the workflow is done. *)
Theorem workflow_fails_only_outside_the_loop ext services
    (files : gmap string (CsvReader.result CsvReader.DataFrame))
    csv_file output_base_dir whisper_model_size column_name to_simplified w :
  let run :=
    Workflow.process_podcast_links ext services files csv_file output_base_dir
      whisper_model_size column_name to_simplified w in
  let made := (Workflow.create_directory_structure ext output_base_dir w).2 in
  (forall e reader,
     CsvReader.read_links files (CsvReader.init csv_file) column_name
     = (CsvReader.Raise e, reader) ->
     run = (Workflow.Failed (Workflow.ReaderError e), made))
  /\ (forall e,
        run.1 = Workflow.Failed (Workflow.PipelineError e) ->
        exists w0,
          (Workflow.load_model services w0).1 = Raised e
          \/ (Workflow.close services w0).1 = Raised e)
  /\ (forall links reader,
        CsvReader.read_links files (CsvReader.init csv_file) column_name
        = (CsvReader.Ok links, reader) ->
        (forall w0, exists w1, Workflow.load_model services w0 = (Returned tt, w1)) ->
        (forall w0, exists w1, Workflow.close services w0 = (Returned tt, w1)) ->
        run.1 = Workflow.Done).
Proof.
  intros run made. subst run made.
  destruct (directory_structure_prepared ext output_base_dir w)
    as (dirs & w1 & Hmade & Hin).
  unfold Workflow.process_podcast_links. rewrite Hmade. simpl.
  split_and!.
  - intros e reader Hread. by rewrite Hread.
  - intros e.
    destruct (CsvReader.read_links files (CsvReader.init csv_file) column_name)
      as [[links|e0] reader]; [|discriminate].
    rewrite (bind_returned _ _ w1 tt w1) by (by apply ensure_dir_present).
    unfold mbind at 1, M_bind at 1, bind at 1.
    destruct (Workflow.load_model services w1) as [[[]|e1] w2] eqn:Hload.
    + destruct (process_episodes_returns ext services
                  {| model_size := whisper_model_size;
                     to_simplified := to_simplified |} dirs
                  (zip links (CsvReader.extract_episode_ids reader)) w2)
        as (w3 & Hloop).
      rewrite (bind_returned _ _ _ _ _ Hloop).
      destruct (Workflow.close services w3) as [[[]|e2] w4] eqn:Hclose;
        [discriminate|].
      simpl. intros [= ->]. exists w3. right. by rewrite Hclose.
    + simpl. intros [= ->]. exists w1. left. by rewrite Hload.
  - intros links reader Hread Hload Hclose. rewrite Hread.
    rewrite (bind_returned _ _ w1 tt w1) by (by apply ensure_dir_present).
    destruct (Hload w1) as (w2 & Hload1).
    rewrite (bind_returned _ _ _ _ _ Hload1).
    destruct (process_episodes_returns ext services
                {| model_size := whisper_model_size;
                   to_simplified := to_simplified |} dirs
                (zip links (CsvReader.extract_episode_ids reader)) w2)
      as (w3 & Hloop).
    rewrite (bind_returned _ _ _ _ _ Hloop).
    destruct (Hclose w3) as (w4 & ->). reflexivity.
Qed.

(** ** One episode, from the link to the document *)

Section Episode.

Variable ext : Collaborators.
Variable services : Workflow.Services.

(** A clip within the budget goes through [transcribe_long_audio] as
    through [transcribe_audio]; the output directory is made. *)
Lemma transcribe_long_audio_short self audio_path output_dir language w audio :
  audio_files w !! audio_path = Some audio ->
  len audio <= default_chunk_length_ms ->
  exists w',
    transcribe_long_audio ext self audio_path (Some output_dir) language w
    = ((transcribe_audio ext self audio_path language w).1, w')
    /\ audio_files w' = audio_files w
    /\ documents w' = documents w
    /\ directories w' = {[ output_dir ]} ∪ directories w.
Proof.
  intros Hfile Hshort.
  destruct (split_audio_short ext audio_path output_dir default_chunk_length_ms
              default_min_silence_len default_silence_thresh
              default_keep_silence w audio Hfile Hshort)
    as (w1 & Hsplit & Haudio & Hdocs & Hdirs).
  exists w1. split; [|done]. unfold transcribe_long_audio.
  rewrite (bind_returned _ _ w output_dir w) by reflexivity.
  rewrite (bind_returned _ _ _ _ _ Hsplit). simpl.
  rewrite !bool_decide_eq_true_2 by done. simpl.
  rewrite <- (transcribe_audio_reads_audio ext self audio_path language w1 w Haudio).
  rewrite <- (transcribe_audio_store ext self audio_path language w1) at 3.
  by destruct (transcribe_audio ext self audio_path language w1).
Qed.

Lemma process_episode_short self dirs link episode_id w w1 mp3_path audio
    transcript :
  Workflow.extract_mp3_from_episode services link w
  = (Returned (Some mp3_path), w1) ->
  mp3_path <> "" ->
  audio_files w1 !! mp3_path = Some audio ->
  len audio <= default_chunk_length_ms ->
  (transcribe_audio ext self mp3_path "zh" w1).1 = Returned transcript ->
  exists w',
    Workflow.process_episode ext services self dirs link episode_id w
    = (Returned tt, w')
    /\ documents w'
       = <[ os_path_join ext
              (os_path_join ext (Workflow.transcripts dirs) episode_id)
              (episode_id +:+ ".md")
            := render_markdown ext (as_dict transcript) ]> (documents w1)
    /\ audio_files w' = audio_files w1
    /\ directories w'
       = {[ os_path_join ext (Workflow.transcripts dirs) episode_id ]}
         ∪ ({[ os_path_join ext (Workflow.mp3 dirs) episode_id ]}
            ∪ directories w1).
Proof.
  intros Hextract Hpath Hfile Hshort Hheard.
  unfold Workflow.process_episode.
  rewrite (bind_returned _ _ _ _ _ Hextract).
  rewrite bool_decide_eq_false_2 by exact Hpath.
  destruct (ensure_dir_run (os_path_join ext (Workflow.mp3 dirs) episode_id) w1)
    as (w2 & Hrun2 & Haudio2 & Hdocs2 & Hdirs2).
  rewrite (bind_returned _ _ _ _ _ Hrun2).
  destruct (transcribe_long_audio_short self mp3_path
              (os_path_join ext (Workflow.mp3 dirs) episode_id) "zh" w2 audio)
    as (w3 & Hrun3 & Haudio3 & Hdocs3 & Hdirs3);
    [by rewrite Haudio2|done|].
  rewrite (transcribe_audio_reads_audio ext self mp3_path "zh" w2 w1 Haudio2),
    Hheard in Hrun3.
  rewrite (bind_returned _ _ _ _ _ Hrun3).
  destruct (ensure_dir_run
              (os_path_join ext (Workflow.transcripts dirs) episode_id) w3)
    as (w4 & Hrun4 & Haudio4 & Hdocs4 & Hdirs4).
  rewrite (bind_returned _ _ _ _ _ Hrun4).
  rewrite save_transcript_to_markdown_run. eexists. split; [reflexivity|].
  simpl. split_and!.
  - congruence.
  - congruence.
  - rewrite Hdirs4, Hdirs3, Hdirs2.
    apply set_eq. intros d. rewrite !elem_of_union, !elem_of_singleton. tauto.
Qed.

Lemma read_links_stores
    (files : gmap string (CsvReader.result CsvReader.DataFrame)) self
    column_name found self' :
  CsvReader.read_links files self column_name = (CsvReader.Ok found, self') ->
  CsvReader.links self' = found
  /\ Forall (fun link => PyStr.contains "/episode/" link = true) found.
Proof.
  intros Hread. unfold CsvReader.read_links in Hread.
  destruct (files !! CsvReader.csv_file_path self) as [[df|e]|]; try discriminate.
  destruct (match column_name with
            | Some column_name => Some column_name
            | None => CsvReader.detect df
            end) as [column|]; [|discriminate].
  destruct (CsvReader.getitem df column) as [series|]; [|discriminate].
  injection Hread as <- <-. split; [done|].
  eapply Forall_impl; [apply valid_links_valid|]. apply valid_link_has_episode.
Qed.

End Episode.

(** X17.  From the link to the document.  For a table with one episode
    link whose audio, once downloaded, is within the ten-minute budget and
    is recognised, the workflow is done and the transcript is found at
    [<base>/transcripts/<id>/<id>.md], rendered from what
    [transcribe_audio] returned for the downloaded file; the directories
    [<base>/mp3_files/<id>] and [<base>/transcripts/<id>] exist.  Loading
    the model and closing the extractor are taken to leave the files
    alone. *)
Theorem single_episode_end_to_end ext services
    (files : gmap string (CsvReader.result CsvReader.DataFrame))
    csv_file output_base_dir whisper_model_size column_name to_simplified w
    link episode_id reader w2 mp3_path audio transcript :
  let self :=
    {| model_size := whisper_model_size; to_simplified := to_simplified |} in
  let made := (Workflow.create_directory_structure ext output_base_dir w).2 in
  let chunks_dir :=
    os_path_join ext (os_path_join ext output_base_dir "mp3_files") episode_id in
  let transcript_dir :=
    os_path_join ext (os_path_join ext output_base_dir "transcripts")
      episode_id in
  CsvReader.read_links files (CsvReader.init csv_file) column_name
  = (CsvReader.Ok [link], reader) ->
  CsvReader.episode_id_of link = Some episode_id ->
  (forall w0, Workflow.load_model services w0 = (Returned tt, w0)) ->
  (forall w0, Workflow.close services w0 = (Returned tt, w0)) ->
  Workflow.extract_mp3_from_episode services link made
  = (Returned (Some mp3_path), w2) ->
  mp3_path <> "" ->
  audio_files w2 !! mp3_path = Some audio ->
  len audio <= default_chunk_length_ms ->
  (transcribe_audio ext self mp3_path "zh" w2).1 = Returned transcript ->
  exists w',
    Workflow.process_podcast_links ext services files csv_file output_base_dir
      whisper_model_size column_name to_simplified w
    = (Workflow.Done, w')
    /\ documents w' !! os_path_join ext transcript_dir (episode_id +:+ ".md")
       = Some (render_markdown ext (as_dict transcript))
    /\ audio_files w' = audio_files w2
    /\ chunks_dir ∈ directories w'
    /\ transcript_dir ∈ directories w'.
Proof.
  intros self made chunks_dir transcript_dir Hread Hid Hload Hclose Hextract
    Hpath Hfile Hshort Hheard.
  destruct (read_links_stores files _ _ _ _ Hread) as [Hlinks Hvalid].
  apply Forall_cons in Hvalid as [Hlink _].
  assert (CsvReader.extract_episode_ids reader = [episode_id]) as Hids.
  { unfold CsvReader.extract_episode_ids. rewrite Hlinks. simpl.
    by rewrite Hlink, Hid. }
  destruct (directory_structure_prepared ext output_base_dir w)
    as (dirs & w1 & Hmade & Hin).
  assert (dirs = {| Workflow.mp3 := os_path_join ext output_base_dir "mp3_files";
                    Workflow.transcripts :=
                      os_path_join ext output_base_dir "transcripts";
                    Workflow.temp := os_path_join ext output_base_dir "temp" |})
    as Hdirs.
  { destruct (directory_structure_is_known ext output_base_dir w) as [w0 Hknown].
    rewrite Hknown in Hmade. by injection Hmade as <- _. }
  subst made. rewrite Hmade in Hextract. simpl in Hextract.
  destruct (process_episode_short ext services self dirs link episode_id w1 w2
              mp3_path audio transcript Hextract Hpath Hfile Hshort Hheard)
    as (w3 & Hrun & Hdocs & Haudio & Hdirs3).
  exists w3. unfold Workflow.process_podcast_links.
  rewrite Hmade, Hread, Hids. simpl zip.
  rewrite (bind_returned _ _ w1 tt w1) by (by apply ensure_dir_present).
  rewrite (bind_returned _ _ w1 tt w1) by apply Hload.
  assert (Workflow.process_episodes ext services self dirs
            [(link, episode_id)] w1 = (Returned tt, w3)) as Hloop.
  { simpl. unfold mbind, M_bind, bind, try_except. fold self. by rewrite Hrun. }
  fold self. rewrite (bind_returned _ _ _ _ _ Hloop), Hclose.
  split; [reflexivity|]. subst chunks_dir transcript_dir. subst dirs.
  simpl in *. split_and!.
  - rewrite Hdocs. apply lookup_insert_eq.
  - exact Haudio.
  - rewrite Hdirs3, !elem_of_union, !elem_of_singleton. tauto.
  - rewrite Hdirs3, !elem_of_union, !elem_of_singleton. tauto.
Qed.

Lemma single_episode_end_to_end_witness :
  exists w',
    Workflow.process_podcast_links Examples.all_heard Scenario.downloads
      Scenario.links_csv "links.csv" "out" "small" None true
      Examples.three_chunks
    = (Workflow.Done, w')
    /\ documents w' !! "out/transcripts/abc/abc.md"
       = Some (text_lines
                 ["# 音频转录"; ""; "## 音频信息"; ""; "- 语言: zh";
                  "- 时长: 0分钟10秒"; ""; "## 完整转录文本"; ""; "a"; "";
                  "## 带时间戳的分段文本"; ""; "**[00:00-00:10]** a"; ""]).
Proof.
  destruct (single_episode_end_to_end Examples.all_heard Scenario.downloads
              Scenario.links_csv "links.csv" "out" "small" None true
              Examples.three_chunks Scenario.episode_link "abc"
              {| CsvReader.csv_file_path := "links.csv";
                 CsvReader.links := [Scenario.episode_link] |}
              (Workflow.create_directory_structure Examples.all_heard "out"
                 Examples.three_chunks).2
              "ep/ep_001.mp3" (Examples.clip 1)
              (Examples.heard [Examples.seg 0 10 "a"]))
    as (w' & Hrun & Hdoc & _).
  - vm_compute; reflexivity.
  - vm_compute; reflexivity.
  - reflexivity.
  - reflexivity.
  - vm_compute; reflexivity.
  - discriminate.
  - vm_compute; reflexivity.
  - by_evaluation.
  - by_evaluation.
  - exists w'. split; [exact Hrun|]. etransitivity; [exact Hdoc|].
    apply (f_equal Some). vm_compute. reflexivity.
Defined.

(** ** Where the chunks go by default *)

(** X18.  Without an output directory, [transcribe_long_audio] works in the
    directory named after the input, next to it: the run is the run with
    that directory given. *)
Theorem default_output_directory ext self audio_path language w :
  transcribe_long_audio ext self audio_path None language w
  = transcribe_long_audio ext self audio_path
      (Some (os_path_join ext (os_path_dirname ext audio_path)
               (os_path_splitext ext (os_path_basename ext audio_path)).1))
      language w.
Proof.
  unfold transcribe_long_audio.
  set (output_dir := os_path_join ext _ _).
  destruct (ensure_dir_run output_dir w) as (w1 & Hdir & _ & _ & Hdirs).
  rewrite (bind_returned _ _ w output_dir w1)
    by (by rewrite (bind_returned _ _ _ _ _ Hdir)).
  rewrite (bind_returned _ _ w output_dir w) by reflexivity.
  assert (split_audio ext audio_path output_dir default_chunk_length_ms
            default_min_silence_len default_silence_thresh
            default_keep_silence w1
          = split_audio ext audio_path output_dir default_chunk_length_ms
              default_min_silence_len default_silence_thresh
              default_keep_silence w) as Hsplit.
  { unfold split_audio. rewrite (bind_returned _ _ _ _ _ Hdir).
    rewrite (bind_returned _ _ w1 tt w1); [done|].
    apply ensure_dir_present. rewrite Hdirs, elem_of_union, elem_of_singleton.
    by left. }
  unfold mbind, M_bind, bind. by rewrite Hsplit.
Qed.

(** * The batch script *)

Section Options.

Lemma parse_options_fold (options : list string) model_size to_simplified :
  fold_left
    (fun '(model_size, to_simplified) arg =>
       if bool_decide (arg ∈ ["tiny"; "base"; "small"; "medium"; "large"])
       then (arg, to_simplified)
       else if bool_decide (arg = "--traditional")
            then (model_size, false)
            else (model_size, to_simplified))
    options (model_size, to_simplified)
  = (default model_size
       (last (filter (fun arg => arg ∈ ["tiny"; "base"; "small"; "medium"; "large"])
                     options)),
     to_simplified && bool_decide ("--traditional" ∉ options)).
Proof.
  revert model_size to_simplified.
  induction options as [|arg options IH]; intros model_size to_simplified.
  - simpl. by rewrite andb_true_r.
  - simpl. rewrite filter_cons.
    destruct (decide (arg ∈ ["tiny"; "base"; "small"; "medium"; "large"]))
      as [Hsize|Hother].
    + rewrite bool_decide_eq_true_2 by exact Hsize. rewrite IH.
      f_equal.
      * rewrite last_cons. by destruct (last _).
      * f_equal. apply bool_decide_ext. rewrite not_elem_of_cons.
        split; [|tauto]. intros Hnot. split; [|done].
        intros <-. revert Hsize. clear. intros Hsize.
        repeat (apply elem_of_cons in Hsize as [Hsize|Hsize];
                [discriminate|]).
        by apply elem_of_nil in Hsize.
    + rewrite bool_decide_eq_false_2 by exact Hother.
      destruct (decide (arg = "--traditional")) as [->|Hne].
      * rewrite bool_decide_eq_true_2 by done. rewrite IH. f_equal.
        rewrite andb_false_l. symmetry. rewrite andb_false_iff. right.
        apply bool_decide_eq_false_2. intros Hnot. apply Hnot.
        apply elem_of_cons. by left.
      * rewrite bool_decide_eq_false_2 by exact Hne. rewrite IH. f_equal.
        f_equal. apply bool_decide_ext. rewrite not_elem_of_cons.
        split; [|tauto]. intros Hnot. split; [congruence|done].
Qed.

End Options.

(** X19.  The options of the batch script.  Of the arguments after the two
    directories, the last one that names a model size decides the size, and
    ["small"] is kept when none does; conversion to simplified script is on
    unless ["--traditional"] is among them; any other argument is passed
    over without a word. *)
Theorem options_last_size_wins (argv : list string) :
  let options := drop 3 argv in
  TranscribeAll.parse_options argv
  = (default "small"
       (last (filter
                (fun arg => arg ∈ ["tiny"; "base"; "small"; "medium"; "large"])
                options)),
     bool_decide ("--traditional" ∉ options)).
Proof. intros options. apply parse_options_fold. Qed.

Section BatchRuns.

Variable ext : Collaborators.
Variable self : WhisperTranscriber.
Variables audio_dir output_dir : string.

Lemma transcribe_file_run mp3_file w :
  TranscribeAll.transcribe_file ext self audio_dir output_dir mp3_file w
  = match (transcribe_audio ext self (os_path_join ext audio_dir mp3_file)
             "zh" w).1 with
    | Returned result =>
        (Returned tt,
         {| audio_files := audio_files w;
            documents :=
              <[ os_path_join ext output_dir
                   ((os_path_splitext ext mp3_file).1 +:+ ".md")
                 := render_markdown ext (as_dict result) ]> (documents w);
            directories := directories w |})
    | Raised e => (Raised e, w)
    end.
Proof.
  unfold TranscribeAll.transcribe_file, mbind, M_bind, bind.
  pose proof (transcribe_audio_store ext self
                (os_path_join ext audio_dir mp3_file) "zh" w) as Hstore.
  destruct (transcribe_audio ext self (os_path_join ext audio_dir mp3_file)
              "zh" w) as [[result|e] w1]; cbn [fst snd] in *; subst w1;
    [|done].
  by rewrite save_transcript_to_markdown_run.
Qed.

Lemma transcribe_files_world mp3_files w :
  let md mp3_file :=
    os_path_join ext output_dir ((os_path_splitext ext mp3_file).1 +:+ ".md") in
  let recognised :=
    List.filter
      (fun mp3_file =>
         is_returned
           (transcribe_audio ext self (os_path_join ext audio_dir mp3_file)
              "zh" w).1)
      mp3_files in
  exists w',
    TranscribeAll.transcribe_files ext self audio_dir output_dir mp3_files w
    = (Returned tt, w')
    /\ audio_files w' = audio_files w
    /\ directories w' = directories w
    /\ (forall p, p ∉ map md recognised -> documents w' !! p = documents w !! p)
    /\ (NoDup (map md mp3_files) ->
        forall mp3_file result,
          mp3_file ∈ mp3_files ->
          (transcribe_audio ext self (os_path_join ext audio_dir mp3_file)
             "zh" w).1 = Returned result ->
          documents w' !! md mp3_file
          = Some (render_markdown ext (as_dict result))).
Proof.
  intros md. revert w.
  induction mp3_files as [|f0 rest IH]; intros w recognised.
  - exists w. split_and!; try done.
    intros _ f result Hf. by apply elem_of_nil in Hf.
  - simpl. unfold mbind, M_bind, bind, try_except, mret, M_ret, ret.
    rewrite transcribe_file_run.
    destruct (transcribe_audio ext self (os_path_join ext audio_dir f0) "zh" w)
      as [[result0|e0] w0] eqn:Hrun0; simpl.
    + set (w1 := {| audio_files := audio_files w;
                    documents := <[md f0 := render_markdown ext (as_dict result0)]>
                                   (documents w);
                    directories := directories w |}).
      destruct (IH w1) as (w' & Hrun & Haudio & Hdirs & Hother & Hheld).
      assert (forall f, (transcribe_audio ext self (os_path_join ext audio_dir f)
                           "zh" w1).1
                        = (transcribe_audio ext self
                             (os_path_join ext audio_dir f) "zh" w).1) as Hreads.
      { intros f. by apply transcribe_audio_reads_audio. }
      assert (recognised
              = f0 :: List.filter
                        (fun f => is_returned
                                    (transcribe_audio ext self
                                       (os_path_join ext audio_dir f) "zh" w1).1)
                        rest) as Hrec.
      { subst recognised. simpl. rewrite Hrun0. simpl. f_equal.
        apply filter_ext. intros f. by rewrite Hreads. }
      exists w'. split_and!; try done.
      * intros p Hp. rewrite Hrec in Hp. simpl in Hp.
        apply not_elem_of_cons in Hp as [Hne Hp].
        rewrite (Hother p Hp). subst w1. simpl. by apply lookup_insert_ne.
      * intros Hnodup f result Hf Hrunf. simpl in Hnodup.
        apply NoDup_cons in Hnodup as [Hfresh Hnodup].
        apply elem_of_cons in Hf as [->|Hf].
        -- rewrite Hrun0 in Hrunf. simpl in Hrunf. injection Hrunf as <-.
           rewrite Hother.
           ++ subst w1. simpl. apply lookup_insert_eq.
           ++ intros Hin. apply Hfresh.
              apply list_elem_of_fmap in Hin as (f & Heq & Hin).
              apply list_elem_of_In, filter_In in Hin as [Hin _].
              apply list_elem_of_fmap. exists f. split; [done|].
              by apply list_elem_of_In.
        -- apply (Hheld Hnodup f result Hf). by rewrite Hreads.
    + destruct (IH w) as (w' & Hrun & Haudio & Hdirs & Hother & Hheld).
      assert (recognised
              = List.filter
                  (fun f => is_returned
                              (transcribe_audio ext self
                                 (os_path_join ext audio_dir f) "zh" w).1)
                  rest) as Hrec.
      { subst recognised. simpl. by rewrite Hrun0. }
      exists w'. split_and!; try done.
      * intros p Hp. rewrite Hrec in Hp. by apply Hother.
      * intros Hnodup f result Hf Hrunf. simpl in Hnodup.
        apply NoDup_cons in Hnodup as [Hfresh Hnodup].
        apply elem_of_cons in Hf as [->|Hf].
        -- rewrite Hrun0 in Hrunf. discriminate.
        -- by apply (Hheld Hnodup f result Hf).
Qed.

End BatchRuns.

(** X20.  The batch script.  Given the two directories, [main] makes the
    output directory, lists the audio directory and goes through the names
    ending in [".mp3"]: it returns whatever happens to single files, writes
    documents only for files that were recognised, at
    [<output_dir>/<name without extension>.md], and changes no audio file;
    the output directory has been made sure of and no directory is lost.
    When these paths are pairwise distinct each document is the rendering
    of what [transcribe_audio] returned for its file; with
    ["--traditional"] among the options that is the recogniser's own
    result.  Listing is taken to leave the files alone. *)
Theorem batch_writes_one_document_per_recognised_file ext listdir program
    audio_dir output_dir options w names :
  let argv := program :: audio_dir :: output_dir :: options in
  let self :=
    {| model_size := (TranscribeAll.parse_options argv).1;
       to_simplified := (TranscribeAll.parse_options argv).2 |} in
  let mp3_files := List.filter (PyStr.endswith ".mp3") names in
  let md mp3_file :=
    os_path_join ext output_dir ((os_path_splitext ext mp3_file).1 +:+ ".md") in
  let heard mp3_file :=
    (transcribe_audio ext self (os_path_join ext audio_dir mp3_file) "zh" w).1 in
  (forall w0, listdir audio_dir w0 = (Returned names, w0)) ->
  exists w',
    TranscribeAll.main ext listdir argv w = (Returned tt, w')
    /\ audio_files w' = audio_files w
    /\ output_dir ∈ directories w'
    /\ directories w ⊆ directories w'
    /\ (forall p,
          p ∉ map md (List.filter (fun f => is_returned (heard f)) mp3_files) ->
          documents w' !! p = documents w !! p)
    /\ (NoDup (map md mp3_files) ->
        forall mp3_file result,
          mp3_file ∈ mp3_files ->
          heard mp3_file = Returned result ->
          documents w' !! md mp3_file
          = Some (render_markdown ext (as_dict result)))
    /\ ("--traditional" ∈ options -> to_simplified self = false).
Proof.
  intros argv self mp3_files md heard Hlist.
  destruct (ensure_dir_run output_dir w) as (w1 & Hdir & Haudio & Hdocs & Hdirs).
  destruct (transcribe_files_world ext self audio_dir output_dir mp3_files w1)
    as (w' & Hrun & Haudio' & Hdirs' & Hother & Hheld).
  assert (forall f, (transcribe_audio ext self (os_path_join ext audio_dir f)
                       "zh" w1).1 = heard f) as Hreads.
  { intros f. by apply transcribe_audio_reads_audio. }
  exists w'. split_and!.
  - unfold TranscribeAll.main. subst argv.
    destruct (TranscribeAll.parse_options
                (program :: audio_dir :: output_dir :: options))
      as [model_size to_simplified] eqn:Hoptions.
    rewrite (bind_returned _ _ _ _ _ Hdir).
    rewrite (bind_returned _ _ _ _ _ (Hlist w1)).
    subst self. simpl in Hrun. exact Hrun.
  - congruence.
  - rewrite Hdirs', Hdirs, elem_of_union, elem_of_singleton. by left.
  - rewrite Hdirs', Hdirs. apply union_subseteq_r.
  - intros p Hp. rewrite Hother, Hdocs; [done|].
    erewrite filter_ext; [exact Hp|]. intros f. simpl. by rewrite Hreads.
  - intros Hnodup f result Hf Hrunf. apply (Hheld Hnodup f result Hf).
    by rewrite Hreads.
  - intros Htrad. subst self. simpl. unfold TranscribeAll.parse_options.
    rewrite parse_options_fold. simpl.
    apply bool_decide_eq_false_2. intros Hnot. by apply Hnot.
Qed.

Lemma batch_writes_one_document_per_recognised_file_witness :
  exists w',
    TranscribeAll.main Examples.second_fails
      Scenario.listing
      ["test_transcribe_all.py"; "ep"; "out"; "--traditional"]
      Examples.three_chunks
    = (Returned tt, w')
    /\ documents w' !! "out/ep_002.md" = None
    /\ documents w' !! "out/ep_001.md"
       = Some (text_lines
                 ["# 音频转录"; ""; "## 音频信息"; ""; "- 语言: zh";
                  "- 时长: 0分钟9秒"; ""; "## 完整转录文本"; ""; "ab"; "";
                  "## 带时间戳的分段文本"; ""; "**[00:00-00:04]** a"; "";
                  "**[00:05-00:09]** b"; ""]).
Proof.
  destruct (batch_writes_one_document_per_recognised_file
              Examples.second_fails
              Scenario.listing
              "test_transcribe_all.py" "ep" "out" ["--traditional"]
              Examples.three_chunks
              ["ep_001.mp3"; "notes.txt"; "ep_002.mp3"])
    as (w' & Hrun & _ & _ & _ & Hother & Hheld & _).
  - reflexivity.
  - exists w'. split; [exact Hrun|]. split.
    + rewrite Hother; [reflexivity|]. vm_compute.
      intros Hin. apply elem_of_cons in Hin as [Hin|Hin]; [discriminate|].
      by apply elem_of_nil in Hin.
    + etransitivity;
        [exact (Hheld ltac:(by_evaluation) "ep_001.mp3"
                  (Examples.heard [Examples.seg 0 4 "a"; Examples.seg 5 9 "b"])
                  ltac:(by_evaluation) ltac:(by_evaluation))|].
      apply (f_equal Some). vm_compute. reflexivity.
Defined.
